(** * Milhouse context memory: embedding fallback, project hash, context store
      and tool-call handler of the MCP server (mcp-server/src).

    The development embeds the TypeScript sources shallowly:
    - a JavaScript string is the sequence of its UTF-16 code units ([jsstr])
      wherever the code reads characters ([charCodeAt], regular expressions);
      record fields that are only stored, compared and cut are [string]s;
    - JavaScript numbers are integers in [Z] (or [nat]) where the code only
      uses integer values (hashes, lengths, limits, clock readings), IEEE-754
      binary64 values ([float]) in the embedding vectors, and exact rationals
      for the distances that the index reports and the scores made of them;
    - the LanceDB table is the list of its rows, in insertion order, with a
      schema that has the columns of the row the table was created from:
      [add] appends a row that fits the schema and throws for a row with a
      column the schema lacks, or for a row object that [toArray] returned;
      [query().toArray()] returns the rows; a vector search is exhaustive
      and throws for the limit 0; [delete] with the predicate [id = '<x>']
      removes the rows whose id is [x] when [x] has no quote character, and
      otherwise does what the SQL engine makes of the spliced text. The
      errors of the library and its reading of such a text are inputs;
    - a raised exception is the [Throw] case of the result type [res], and
      an operation that changes the store returns the store next to its
      result;
    - readings of [Date.now()], the remote embedding service and the
      indexer's file-system work are inputs of the operations. *)

From Stdlib Require Import ZArith QArith List String Ascii Bool Lia Floats Uint63.
From Stdlib Require Import DecimalString DecimalZ Permutation Sorted Lqa.
Import ListNotations.

Local Open Scope Z_scope.

(** ** JavaScript integer primitives *)

Module JS.

(** A string as the list of its UTF-16 code units. *)
Definition jsstr := list Z.

(** [ToInt32]: the signed 32-bit value congruent to [x] modulo 2^32. *)
Definition toInt32 (x : Z) : Z := (x + 2 ^ 31) mod 2 ^ 32 - 2 ^ 31.

(** [x << n] *)
Definition shl (x n : Z) : Z := toInt32 (Z.shiftl (toInt32 x) (Z.land n 31)).

(** [x & y] *)
Definition band (x y : Z) : Z := Z.land (toInt32 x) (toInt32 y).

(** One hexadecimal digit, lowercase, as [Number.prototype.toString(16)]
    prints it. *)
Definition hexDigit (d : Z) : ascii :=
  if d <? 10 then ascii_of_nat (Z.to_nat (48 + d))
  else ascii_of_nat (Z.to_nat (87 + d)).

Fixpoint hexDigits (fuel : nat) (n : Z) (acc : string) : string :=
  match fuel with
  | O => acc
  | S fuel' =>
      let acc' := String (hexDigit (n mod 16)) acc in
      if n / 16 =? 0 then acc' else hexDigits fuel' (n / 16) acc'
  end.

(** [n.toString(16)] for an integer [n >= 0]. *)
Definition toString16 (n : Z) : string :=
  hexDigits (S (Z.to_nat (Z.log2 n))) n EmptyString.

(** Reading a hexadecimal numeral back, used to state that [toString16]
    loses nothing. *)
Definition hexValue (c : ascii) : Z :=
  let k := Z.of_nat (nat_of_ascii c) in
  if k <? 58 then k - 48 else k - 87.

Fixpoint parseHex (s : string) (acc : Z) : Z :=
  match s with
  | EmptyString => acc
  | String c rest => parseHex rest (16 * acc + hexValue c)
  end.

End JS.

(** ** embeddings.ts / indexer.ts: the rolling string hash *)

Module Hash.
Import JS.

(** Body of the [for] loop shared by [hashString] (embeddings.ts) and
    [hashProjectPath] (indexer.ts):
    [hash = ((hash << 5) - hash) + char; hash = hash & hash]. *)
Definition hashStep (hash char : Z) : Z :=
  let hash1 := (shl hash 5 - hash) + char in
  band hash1 hash1.

Fixpoint hashLoop (str : jsstr) (hash : Z) : Z :=
  match str with
  | [] => hash
  | char :: rest => hashLoop rest (hashStep hash char)
  end.

(** embeddings.ts: [hashString]. *)
Definition hashString (str : jsstr) : Z := hashLoop str 0.

(** indexer.ts: [ConversationIndexer.hashProjectPath]. *)
Definition hashProjectPath (projectPath : jsstr) : string :=
  toString16 (Z.abs (hashLoop projectPath 0)).

(** *** The reference definition, as the specification words it *)

(** Wrapping an integer to the signed 32-bit range. *)
Definition wrapSigned32 (z : Z) : Z :=
  let r := z mod 2 ^ 32 in
  if r <? 2 ^ 31 then r else r - 2 ^ 32.

(** [hash = hash*31 + charCode], wrapped, starting from 0. *)
Definition referenceHash (s : jsstr) : Z :=
  fold_left (fun hash charCode => wrapSigned32 (hash * 31 + charCode)) s 0.

(** Absolute value, then lowercase hexadecimal. *)
Definition referenceProjectHash (path : jsstr) : string :=
  toString16 (Z.abs (referenceHash path)).

End Hash.

(** ** embeddings.ts: the fallback embedding *)

Module Embeddings.
Import JS Hash.

Definition Vector := list float.

Definition EMBEDDING_DIM : Z := 1536.

(** The regular-expression class [\w]: [A-Za-z0-9_]. *)
Definition isWordChar (c : Z) : bool :=
  ((48 <=? c) && (c <=? 57)) || ((65 <=? c) && (c <=? 90)) || (c =? 95)
  || ((97 <=? c) && (c <=? 122)).

(** The regular-expression class [\s]: the ECMAScript white space and line
    terminator code units. *)
Definition isWhiteSpace (c : Z) : bool :=
  ((9 <=? c) && (c <=? 13)) || (c =? 32) || (c =? 160) || (c =? 5760)
  || ((8192 <=? c) && (c <=? 8202)) || (c =? 8232) || (c =? 8233)
  || (c =? 8239) || (c =? 8287) || (c =? 12288) || (c =? 65279).

(** [.replace(/[^\w\s]/g, '')] *)
Definition replaceNonWordNonSpace (s : jsstr) : jsstr :=
  filter (fun c => isWordChar c || isWhiteSpace c) s.

(** [.split(/\s+/)]: the pieces between maximal runs of white space; a run at
    either end leaves an empty piece there, and the empty string splits into
    one empty piece. [cur] is the piece being read, reversed. *)
Fixpoint splitLoop (s : jsstr) (cur : jsstr) (inSeparator : bool) : list jsstr :=
  match s with
  | [] => [rev cur]
  | c :: rest =>
      if isWhiteSpace c then
        if inSeparator then splitLoop rest cur true
        else rev cur :: splitLoop rest [] true
      else splitLoop rest (c :: cur) false
  end.

Definition splitWhiteSpace (s : jsstr) : list jsstr := splitLoop s [] false.

(** The number [z] as a binary64 value (exact below 2^53; an array index is
    below 2^32). *)
Definition ofZ (z : Z) : float := PrimFloat.of_uint63 (Uint63.of_Z z).

(** [embedding[position] += w]; [position] is always below the length. *)
Fixpoint addAt (position : nat) (w : float) (embedding : Vector) : Vector :=
  match embedding, position with
  | [], _ => []
  | x :: rest, O => (x + w)%float :: rest
  | x :: rest, S p => x :: addAt p w rest
  end.

Section WithLowerCase.

(** [String.prototype.toLowerCase] of the runtime (Unicode case mapping). *)
Variable toLowerCase : jsstr -> jsstr.

(** [text.toLowerCase().replace(...).split(/\s+/).filter(w => w.length > 2)] *)
Definition words (text : jsstr) : list jsstr :=
  filter (fun w => 2 <? Z.of_nat (List.length w))
         (splitWhiteSpace (replaceNonWordNonSpace (toLowerCase text))).

(** [words.forEach((word, idx) => ...)], from index [idx] on. *)
Fixpoint forEachWord (ws : list jsstr) (idx : Z) (embedding : Vector) : Vector :=
  match ws with
  | [] => embedding
  | word :: rest =>
      let hash := hashString word in
      let position := Z.abs hash mod EMBEDDING_DIM in
      forEachWord rest (idx + 1)
        (addAt (Z.to_nat position) (1 / ofZ (idx + 1))%float embedding)
  end.

(** [Math.sqrt(embedding.reduce((sum, val) => sum + val * val, 0))] *)
Definition magnitudeOf (embedding : Vector) : float :=
  PrimFloat.sqrt
    (fold_left (fun sum val => (sum + val * val)%float) embedding 0%float).

(** [generateSimpleEmbedding] *)
Definition generateSimpleEmbedding (text : jsstr) : Vector :=
  let embedding :=
    forEachWord (words text) 0
      (repeat 0%float (Z.to_nat EMBEDDING_DIM)) in
  let magnitude := magnitudeOf embedding in
  if (0 <? magnitude)%float
  then map (fun x => (x / magnitude)%float) embedding
  else embedding.

(** What the request to the remote embedding service comes to: the [fetch]
    or the reading of its body throws, the response is not [ok], or an
    embedding is returned. *)
Inductive FetchOutcome :=
| FetchThrows
| FetchNotOk
| FetchOk (embedding : Vector).

(** The environment of the process: the credential and the remote service. *)
Record World := {
  OPENAI_API_KEY : option string;
  fetchEmbeddings : jsstr -> FetchOutcome
}.

(** A string option is truthy when it is set and not empty. *)
Definition truthy (s : option string) : bool :=
  match s with
  | Some (String _ _) => true
  | _ => false
  end.

(** [generateEmbedding] *)
Definition generateEmbedding (w : World) (text : jsstr) : Vector :=
  if truthy (OPENAI_API_KEY w) then
    match fetchEmbeddings w (firstn (Z.to_nat 8000) text) with
    | FetchOk embedding => embedding
    | FetchThrows | FetchNotOk => generateSimpleEmbedding text
    end
  else generateSimpleEmbedding text.

End WithLowerCase.

(** Code units of a [string] read as Latin-1, and the lower-casing of the
    runtime on such strings, used to run the definitions on examples. *)
Definition codeUnits (s : string) : jsstr :=
  map (fun a => Z.of_nat (nat_of_ascii a)) (list_ascii_of_string s).

Definition latin1LowerCase (s : jsstr) : jsstr :=
  map (fun c =>
         if ((65 <=? c) && (c <=? 90))
            || ((192 <=? c) && (c <=? 222) && negb (c =? 215))
         then c + 32 else c) s.

(** *** The reference definition, as the specification words it *)

(** White space: the white space and line terminator characters of
    ECMAScript, one by one. *)
Definition whiteSpaceCharacters : list Z :=
  [9; 10; 11; 12; 13; 32; 160; 5760; 8192; 8193; 8194; 8195; 8196; 8197; 8198;
   8199; 8200; 8201; 8202; 8232; 8233; 8239; 8287; 12288; 65279].

Definition isSpace (c : Z) : bool := existsb (Z.eqb c) whiteSpaceCharacters.

(** Punctuation: the punctuation marks and symbols of ASCII, from '!' to
    '/', from ':' to '@', from '[' to '`' (the underscore among them) and
    from '{' to '~'. *)
Definition isPunctuation (c : Z) : bool :=
  ((33 <=? c) && (c <=? 47)) || ((58 <=? c) && (c <=? 64))
  || ((91 <=? c) && (c <=? 96)) || ((123 <=? c) && (c <=? 126)).

(** What the code keeps instead: the letters of ASCII, the digits, the
    underscore and white space; every other character is deleted. *)
Definition keptCharacters : string :=
  "abcdefghijklmnopqrstuvwxyzABCDEFGHIJKLMNOPQRSTUVWXYZ0123456789_".

Definition isDeleted (c : Z) : bool :=
  negb (existsb (Z.eqb c) (codeUnits keptCharacters) || isSpace c).

(** The weight [1/(i+1)]: the binary64 quotient of 1 and the binary64 value
    of [i + 1]. *)
Definition referenceWeight (i : Z) : float :=
  SF2Prim (SFdiv prec emax (Prim2SF 1%float)
                 (binary_normalize prec emax (i + 1) 0 false)).

(** Splitting on white space: the maximal runs of characters that are not
    white space. [cur] is the run being read, reversed. *)
Fixpoint tokenRuns (s : jsstr) (cur : jsstr) : list jsstr :=
  match s with
  | [] => match cur with [] => [] | _ => [rev cur] end
  | c :: rest =>
      if isSpace c then
        match cur with
        | [] => tokenRuns rest []
        | _ => rev cur :: tokenRuns rest []
        end
      else tokenRuns rest (c :: cur)
  end.

Definition referenceBucket (token : jsstr) : Z :=
  Z.abs (referenceHash token) mod 1536.

(** The pairs (bucket, weight [1/(i+1)]) of the tokens, [i] counted from
    [i0]. *)
Fixpoint referenceWeights (tokens : list jsstr) (i0 : Z) : list (Z * float) :=
  match tokens with
  | [] => []
  | t :: rest => (referenceBucket t, referenceWeight i0) :: referenceWeights rest (i0 + 1)
  end.

(** The content of bucket [b]: the weights that fall into it, added in token
    order to [start]. *)
Definition bucketSum (b : Z) (weights : list (Z * float)) (start : float) : float :=
  fold_left (fun acc bw => if fst bw =? b then (acc + snd bw)%float else acc)
            weights start.

Definition referenceRaw (tokens : list jsstr) : Vector :=
  map (fun b => bucketSum (Z.of_nat b) (referenceWeights tokens 0) 0%float)
      (seq 0 1536).

Definition l2norm (v : Vector) : float :=
  PrimFloat.sqrt (fold_left PrimFloat.add (map (fun x => (x * x)%float) v) 0%float).

Section Reference.

Variable toLowerCase : jsstr -> jsstr.
(** The characters that are deleted before the split. *)
Variable deleted : Z -> bool.

Definition tokensWithout (text : jsstr) : list jsstr :=
  filter (fun t => negb (Z.of_nat (List.length t) <=? 2))
         (tokenRuns (filter (fun c => negb (deleted c)) (toLowerCase text)) []).

Definition embeddingWithout (text : jsstr) : Vector :=
  let v := referenceRaw (tokensWithout text) in
  let m := l2norm v in
  if (m =? 0)%float then v else map (fun x => (x / m)%float) v.

End Reference.

(** The reference as the specification words it: punctuation is
    stripped. *)
Definition referenceTokens (toLowerCase : jsstr -> jsstr) : jsstr -> list jsstr :=
  tokensWithout toLowerCase isPunctuation.

Definition referenceEmbedding (toLowerCase : jsstr -> jsstr) : jsstr -> Vector :=
  embeddingWithout toLowerCase isPunctuation.

(** The reference with the characters that the code deletes. *)
Definition amendedTokens (toLowerCase : jsstr -> jsstr) : jsstr -> list jsstr :=
  tokensWithout toLowerCase isDeleted.

Definition amendedEmbedding (toLowerCase : jsstr -> jsstr) : jsstr -> Vector :=
  embeddingWithout toLowerCase isDeleted.

(** The sign bit is clear and the value is a number: +0, a positive finite
    value or +infinity. *)
Definition sfNonNegative (x : spec_float) : Prop :=
  match x with
  | S754_zero false | S754_infinity false | S754_finite false _ _ => True
  | _ => False
  end.

Definition nonNegative (x : float) : Prop := sfNonNegative (Prim2SF x).

End Embeddings.

(** ** store.ts: the context store *)

Module Store.
Import JS Embeddings.
Local Open Scope string_scope.

(** A call returns a value or throws: an [Error] object with its message, or
    some other value. *)
Inductive Thrown :=
| ErrorObject (message : string)
| OtherValue.

Inductive res (A : Type) :=
| Ok (a : A)
| Throw (e : Thrown).
Arguments Ok {A} a.
Arguments Throw {A} e.

Inductive EntryType := conversation | code | decision | task | document.
Inductive Status := pending | in_progress | completed.
Inductive Priority := low | medium | high.

Definition typeName (t : EntryType) : string :=
  match t with
  | conversation => "conversation"
  | code => "code"
  | decision => "decision"
  | task => "task"
  | document => "document"
  end.

Definition EntryType_eqb (a b : EntryType) : bool :=
  match a, b with
  | conversation, conversation | code, code | decision, decision
  | task, task | document, document => true
  | _, _ => false
  end.

Definition Status_eqb (a b : Status) : bool :=
  match a, b with
  | pending, pending | in_progress, in_progress | completed, completed => true
  | _, _ => false
  end.

(** interface ContextEntry; an optional field that is [undefined] is [None]. *)
Record ContextEntry := {
  id : string;
  type : EntryType;
  title : string;
  content : string;
  projectPath : option string;
  filePath : option string;
  tags : list string;
  timestamp : Z;
  vector : Vector;
  status : option Status;
  priority : option Priority
}.

Record TaskEntry := {
  task_id : string;
  task_title : string;
  task_content : string;
  task_status : Status;
  task_priority : Priority;
  task_tags : list string;
  task_timestamp : Z;
  task_projectPath : option string
}.

Record DocumentEntry := {
  doc_id : string;
  doc_title : string;
  doc_content : string;
  doc_tags : list string;
  doc_timestamp : Z;
  doc_projectPath : option string
}.

Record SearchResult := {
  result_id : string;
  result_type : string;
  result_title : string;
  result_content : string;
  result_score : Q;
  result_timestamp : Z
}.

(** The rows of the LanceDB table, in insertion order. *)
Definition Table := list ContextEntry.

(** What the LanceDB library answers where the source does not decide it:
    - [unknownColumn row]: the error of [table.add] for a row with a column
      that the schema of the table lacks;
    - [fetchedRow row]: the error of [table.add] for a row object that
      [toArray] returned (the library does not take such an object back);
    - [zeroLimit]: the error of a vector search with [limit(0)];
    - [whereClause text]: a predicate text with a quote character spliced
      in, as the SQL engine reads it: the test on rows it comes to, or the
      error of parsing it. *)
Record Lance := {
  unknownColumn : ContextEntry -> Thrown;
  fetchedRow : ContextEntry -> Thrown;
  zeroLimit : Thrown;
  whereClause : string -> res (ContextEntry -> bool)
}.

(** class ContextStore: [table] is [null] until [initialize] has run.
    [taskColumns] says whether the schema of the table 'context' has the
    columns [status] and [priority] (before [initialize]: of the table on
    disk, when there is one); [lancedb] is the library behind [db] and
    [table]. *)
Record ContextStore := {
  table : option Table;
  dbPath : string;
  taskColumns : bool;
  lancedb : Lance
}.

Definition withTable (s : ContextStore) (t : Table) : ContextStore :=
  {| table := Some t; dbPath := dbPath s; taskColumns := taskColumns s;
     lancedb := lancedb s |}.

Definition notInitialized : Thrown := ErrorObject "Store not initialized".

(** [`${n}`] for an integer [n]. *)
Definition numberToString (n : Z) : string :=
  NilEmpty.string_of_int (Z.to_int n).

(** [Array.prototype.sort] with a comparator: a stable sort; [before a b]
    says that the comparator does not put [b] ahead of [a]. *)
Fixpoint insertBy {A : Type} (before : A -> A -> bool) (x : A) (l : list A) : list A :=
  match l with
  | [] => [x]
  | y :: rest => if before x y then x :: l else y :: insertBy before x rest
  end.

Definition sortBy {A : Type} (before : A -> A -> bool) (l : list A) : list A :=
  fold_right (insertBy before) [] l.

(** [(a, b) => b.timestamp - a.timestamp]: newest first. *)
Definition newestFirst (a b : ContextEntry) : bool :=
  (timestamp b <=? timestamp a)%Z.

(** [s.substring(0, n)] *)
Definition substring0 (n : nat) (s : string) : string := String.substring 0 n s.

(** The rows left when those whose id column equals [x] are removed; the
    others stay, in order. *)
Definition deleteById (x : string) (t : Table) : Table :=
  filter (fun e => negb (String.eqb (id e) x)) t.

(** [`id = '${x}'`] *)
Definition deletePredicate (x : string) : string := "id = '" ++ x ++ "'".

Fixpoint hasQuote (x : string) : bool :=
  match x with
  | EmptyString => false
  | String c rest => Ascii.eqb c "'"%char || hasQuote rest
  end.

(** [table.delete(`id = '${x}'`)]: the rows left. For an [x] without a quote
    character the predicate compares the id column with the literal [x],
    and deleting nothing is not an error; an [x] with a quote character
    ends the literal early, and the engine reads what the text then says. *)
Definition deleteWhere (engine : Lance) (x : string) (t : Table) : res Table :=
  if hasQuote x then
    match whereClause engine (deletePredicate x) with
    | Ok selects => Ok (filter (fun e => negb (selects e)) t)
    | Throw e => Throw e
    end
  else Ok (deleteById x t).

(** Whether [table.add] takes a new row: a row with [status] or [priority]
    needs a table with these columns; a column that the row leaves out is
    filled with null. *)
Definition fitsSchema (s : ContextStore) (row : ContextEntry) : bool :=
  match status row, priority row with
  | None, None => true
  | _, _ => taskColumns s
  end.

Definition option_eqb (a b : option string) : bool :=
  match a, b with
  | Some x, Some y => String.eqb x y
  | None, None => true
  | _, _ => false
  end.

(** [new Set(xs)], then [Array.from]: first occurrences, in order. *)
Fixpoint distinct (seen : list string) (xs : list string) : list string :=
  match xs with
  | [] => []
  | x :: rest =>
      if existsb (String.eqb x) seen then distinct seen rest
      else x :: distinct (x :: seen) rest
  end.

Definition toTaskEntry (t : ContextEntry) : TaskEntry :=
  {| task_id := id t;
     task_title := title t;
     task_content := content t;
     task_status := match status t with Some s => s | None => pending end;
     task_priority := match priority t with Some p => p | None => medium end;
     task_tags := tags t;
     task_timestamp := timestamp t;
     task_projectPath := projectPath t |}.

Definition toDocumentEntry (d : ContextEntry) : DocumentEntry :=
  {| doc_id := id d;
     doc_title := title d;
     doc_content := content d;
     doc_tags := tags d;
     doc_timestamp := timestamp d;
     doc_projectPath := projectPath d |}.

Record ProjectSummary := {
  summary_projectPath : option string;
  totalConversations : nat;
  totalDecisions : nat;
  totalCodeContexts : nat;
  recentConversations : list (string * Z);
  recentDecisions : list (string * string)
}.

Record Stats := {
  totalEntries : nat;
  stat_conversations : nat;
  stat_decisions : nat;
  stat_codeContexts : nat;
  stat_tasks : nat;
  stat_documents : nat;
  indexedProjects : list string;
  databasePath : string
}.

Definition isType (t : EntryType) (e : ContextEntry) : bool :=
  EntryType_eqb (type e) t.

Section WithEnvironment.

Variable toLowerCase : jsstr -> jsstr.
(** The process environment that [generateEmbedding] reads. *)
Variable world : World.
(** The distance of the index between a query vector and a stored vector. *)
Variable distance : Vector -> Vector -> Q.

Definition embed (text : string) : Vector :=
  generateEmbedding toLowerCase world (codeUnits text).

(** The record [initialize] puts into a table it creates. *)
Definition seedEntry (now : Z) : ContextEntry :=
  {| id := "init";
     type := decision;
     title := "Initial entry";
     content := "Database initialized";
     projectPath := Some "";
     filePath := Some "";
     tags := ["system"];
     timestamp := now;
     vector := repeat 0%float (Z.to_nat 1536);
     status := None;
     priority := None |}.

(** [initialize]: [onDisk] is the table 'context' of the database directory
    when there is one, and is opened as it is; otherwise the table is
    created from the seed record, whose columns become its schema. *)
Definition initialize (onDisk : option Table) (now : Z) (s : ContextStore) : ContextStore :=
  match onDisk with
  | Some t => withTable s t
  | None =>
      {| table := Some [seedEntry now]; dbPath := dbPath s; taskColumns := false;
         lancedb := lancedb s |}
  end.

(** [table.search(queryVector).limit(k).toArray()]: the [k] rows nearest to
    the query, nearest first, each with its [_distance]. *)
Definition nearest (queryVector : Vector) (k : nat) (t : Table) : list (ContextEntry * Q) :=
  firstn k
    (sortBy (fun a b => Qle_bool (snd a) (snd b))
            (map (fun r => (r, distance queryVector (vector r))) t)).

(** [r.content.substring(0, 500) + (r.content.length > 500 ? '...' : '')] *)
Definition preview (c : string) : string :=
  substring0 500 c ++ (if (500 <? String.length c)%nat then "..." else "").

(** The object built for each result; the score is
    [r._distance ? 1 - r._distance : 1]. *)
Definition toSearchResult (rd : ContextEntry * Q) : SearchResult :=
  let (r, d) := rd in
  {| result_id := id r;
     result_type := typeName (type r);
     result_title := title r;
     result_content := preview (content r);
     result_score := if Qeq_bool d 0 then 1%Q else (1 - d)%Q;
     result_timestamp := timestamp r |}.

(** [type && type !== 'all'] *)
Definition filtersType (type : option string) : option string :=
  match type with
  | Some t => if truthy (Some t) && negb (String.eqb t "all") then Some t else None
  | None => None
  end.

(** [ContextStore.search]; [limit] is a whole number, and the index refuses
    the request [limit(0)]. *)
Definition search (query : string) (limit : nat) (type : option string)
    (s : ContextStore) : res (list SearchResult) :=
  match table s with
  | None => Throw notInitialized
  | Some t =>
      let queryVector := embed query in
      match (limit * 2)%nat with
      | O => Throw (zeroLimit (lancedb s))
      | S _ =>
          let results := nearest queryVector (limit * 2)%nat t in
          let results :=
            match filtersType type with
            | Some ty =>
                filter (fun r => String.eqb (typeName (Store.type (fst r))) ty) results
            | None => results
            end in
          Ok (map toSearchResult (firstn limit results))
      end
  end.

(** [ContextStore.addEntry]: the vector of [entry] is replaced by the
    embedding of title and content; [table.add] throws for a row that does
    not fit the schema. *)
Definition addEntry (entry : ContextEntry) (s : ContextStore) : res unit * ContextStore :=
  match table s with
  | None => (Throw notInitialized, s)
  | Some t =>
      let vector := embed (title entry ++ String "010"%char (content entry)) in
      let row :=
        {| id := id entry; type := type entry; title := title entry;
           content := content entry; projectPath := projectPath entry;
           filePath := filePath entry; tags := tags entry;
           timestamp := timestamp entry; vector := vector;
           status := status entry; priority := priority entry |} in
      if fitsSchema s row
      then (Ok tt, withTable s (t ++ [row])%list)
      else (Throw (unknownColumn (lancedb s) row), s)
  end.

(** [ContextStore.storeDecision] *)
Definition storeDecision (title content : string) (tags : list string)
    (nowId nowStamp : Z) (s : ContextStore) : res unit * ContextStore :=
  addEntry {| id := "decision-" ++ numberToString nowId; type := decision;
              title := title; content := content; projectPath := None;
              filePath := None; tags := tags; timestamp := nowStamp;
              vector := []; status := None; priority := None |} s.

(** [ContextStore.storeConversation] *)
Definition storeConversation (id title content projectPath : string)
    (now : Z) (s : ContextStore) : res unit * ContextStore :=
  addEntry {| id := id; type := conversation; title := title;
              content := content; projectPath := Some projectPath;
              filePath := None; tags := []; timestamp := now;
              vector := []; status := None; priority := None |} s.

(** [e.projectPath === projectPath]: a row holds a string or null in the
    column, so an argument that is absent ([undefined]) equals none. *)
Definition ofProject (projectPath : option string) (e : ContextEntry) : bool :=
  match projectPath with
  | Some p => option_eqb (Store.projectPath e) (Some p)
  | None => false
  end.

(** [ContextStore.getProjectSummary] *)
Definition getProjectSummary (projectPath : option string) (s : ContextStore)
    : res ProjectSummary :=
  match table s with
  | None => Throw notInitialized
  | Some allEntries =>
      let projectEntries := filter (ofProject projectPath) allEntries in
      let conversations := filter (isType conversation) projectEntries in
      let decisions := filter (isType decision) projectEntries in
      let codeContexts := filter (isType code) projectEntries in
      Ok {| summary_projectPath := projectPath;
            totalConversations := List.length conversations;
            totalDecisions := List.length decisions;
            totalCodeContexts := List.length codeContexts;
            recentConversations :=
              map (fun c => (title c, timestamp c))
                  (firstn 5 (sortBy newestFirst conversations));
            recentDecisions :=
              map (fun d => (title d, substring0 200 (content d)))
                  (firstn 5 (sortBy newestFirst decisions)) |}
  end.

(** [ContextStore.getRelatedConversations] *)
Definition getRelatedConversations (topic : string) (limit : nat)
    (s : ContextStore) : res (list SearchResult) :=
  search topic limit (Some "conversation") s.

(** [ContextStore.getStats] *)
Definition getStats (s : ContextStore) : res Stats :=
  match table s with
  | None => Throw notInitialized
  | Some allEntries =>
      let projects :=
        distinct []
          (flat_map (fun e => match Store.projectPath e with
                              | Some (String a p) => [String a p]
                              | _ => []
                              end) allEntries) in
      Ok {| totalEntries := List.length allEntries;
            stat_conversations := List.length (filter (isType conversation) allEntries);
            stat_decisions := List.length (filter (isType decision) allEntries);
            stat_codeContexts := List.length (filter (isType code) allEntries);
            stat_tasks := List.length (filter (isType task) allEntries);
            stat_documents := List.length (filter (isType document) allEntries);
            indexedProjects := projects;
            databasePath := dbPath s |}
  end.

(** [createTask]: [nowId] and [nowStamp] are the two readings of
    [Date.now()], for the id and for the timestamp. *)
Definition createTask (title content : string) (priority : Priority)
    (tags : list string) (projectPath : option string) (nowId nowStamp : Z)
    (s : ContextStore) : res string * ContextStore :=
  let id := "task-" ++ numberToString nowId in
  match addEntry {| id := id; type := task; title := title; content := content;
                    projectPath := projectPath; filePath := None; tags := tags;
                    timestamp := nowStamp; vector := [];
                    status := Some pending; priority := Some priority |} s with
  | (Ok _, s') => (Ok id, s')
  | (Throw e, s') => (Throw e, s')
  end.

(** [task.status = status; task.timestamp = Date.now()] *)
Definition setStatus (e : ContextEntry) (status : option Status) (now : Z) : ContextEntry :=
  {| id := id e; type := type e; title := title e; content := content e;
     projectPath := projectPath e; filePath := filePath e; tags := tags e;
     timestamp := now; vector := vector e;
     status := status; priority := priority e |}.

(** [e.id === taskId && e.type === 'task'] *)
Definition isTaskWithId (taskId : string) (e : ContextEntry) : bool :=
  String.eqb (id e) taskId && isType task e.

(** [updateTaskStatus]; [status] is [None] when the caller passes
    [undefined] for it. The row object that is changed and handed to
    [table.add] is the one [toArray] returned, which the library does not
    take back: the call throws there, after the [delete]. *)
Definition updateTaskStatus (taskId : string) (status : option Status) (now : Z)
    (s : ContextStore) : res unit * ContextStore :=
  match table s with
  | None => (Throw notInitialized, s)
  | Some allEntries =>
      match find (isTaskWithId taskId) allEntries with
      | None => (Throw (ErrorObject ("Task not found: " ++ taskId)), s)
      | Some found =>
          let updated := setStatus found status now in
          match deleteWhere (lancedb s) taskId allEntries with
          | Throw e => (Throw e, s)
          | Ok rest => (Throw (fetchedRow (lancedb s) updated), withTable s rest)
          end
      end
  end.

(** [ContextStore.listTasks] *)
Definition listTasks (projectPath : option string) (status : option Status)
    (s : ContextStore) : res (list TaskEntry) :=
  match table s with
  | None => Throw notInitialized
  | Some allEntries =>
      let tasks := filter (isType task) allEntries in
      let tasks :=
        if truthy projectPath
        then filter (fun t => option_eqb (Store.projectPath t) projectPath) tasks
        else tasks in
      let tasks :=
        match status with
        | Some st =>
            filter (fun t => match Store.status t with
                             | Some st' => Status_eqb st' st
                             | None => false
                             end) tasks
        | None => tasks
        end in
      Ok (map toTaskEntry (sortBy newestFirst tasks))
  end.

(** [ContextStore.deleteTask] *)
Definition deleteTask (taskId : string) (s : ContextStore) : res unit * ContextStore :=
  match table s with
  | None => (Throw notInitialized, s)
  | Some t =>
      match deleteWhere (lancedb s) taskId t with
      | Ok rest => (Ok tt, withTable s rest)
      | Throw e => (Throw e, s)
      end
  end.

(** [ContextStore.storeDocument] *)
Definition storeDocument (title content : string) (tags : list string)
    (projectPath : option string) (nowId nowStamp : Z)
    (s : ContextStore) : res string * ContextStore :=
  let id := "doc-" ++ numberToString nowId in
  match addEntry {| id := id; type := document; title := title; content := content;
                    projectPath := projectPath; filePath := None; tags := tags;
                    timestamp := nowStamp; vector := [];
                    status := None; priority := None |} s with
  | (Ok _, s') => (Ok id, s')
  | (Throw e, s') => (Throw e, s')
  end.

(** [ContextStore.listDocuments] *)
Definition listDocuments (projectPath : option string) (tags : option (list string))
    (s : ContextStore) : res (list DocumentEntry) :=
  match table s with
  | None => Throw notInitialized
  | Some allEntries =>
      let documents := filter (isType document) allEntries in
      let documents :=
        if truthy projectPath
        then filter (fun d => option_eqb (Store.projectPath d) projectPath) documents
        else documents in
      let documents :=
        match tags with
        | Some (tag0 :: more) =>
            filter (fun d =>
                      existsb (fun tag => existsb (String.eqb tag) (Store.tags d))
                              (tag0 :: more)) documents
        | _ => documents
        end in
      Ok (map toDocumentEntry (sortBy newestFirst documents))
  end.

(** [ContextStore.getDocument] *)
Definition getDocument (docId : string) (s : ContextStore) : res (option DocumentEntry) :=
  match table s with
  | None => Throw notInitialized
  | Some allEntries =>
      match find (fun e => String.eqb (id e) docId && isType document e) allEntries with
      | None => Ok None
      | Some doc => Ok (Some (toDocumentEntry doc))
      end
  end.

(** [ContextStore.deleteDocument] *)
Definition deleteDocument (docId : string) (s : ContextStore) : res unit * ContextStore :=
  match table s with
  | None => (Throw notInitialized, s)
  | Some t =>
      match deleteWhere (lancedb s) docId t with
      | Ok rest => (Ok tt, withTable s rest)
      | Throw e => (Throw e, s)
      end
  end.

End WithEnvironment.

End Store.

(** ** index.ts: the tool-call handler *)

Module Server.
Import JS Embeddings Store.
Local Open Scope string_scope.

(** The argument object of a call. A field that every tool using it
    requires ([as string]) is a value; a field that some tool leaves optional
    is [None] when absent. *)
Record Args := {
  query : string;
  limit : option nat;
  arg_type : option string;
  arg_projectPath : option string;
  arg_title : string;
  arg_content : string;
  arg_tags : option (list string);
  topic : string;
  force : option bool;
  arg_status : option Status;
  arg_priority : option Priority;
  taskId : string;
  docId : string
}.

(** The [text] of a result: a message, or the JSON of a value. *)
Inductive Payload :=
| Text (text : string)
| JsonSearchResults (results : list SearchResult)
| JsonSummary (summary : ProjectSummary)
| JsonStatus (isWatching : bool) (watchingProject : string) (stats : Stats)
| JsonTasks (tasks : list TaskEntry)
| JsonDocuments (documents : list DocumentEntry)
| JsonDocument (doc : DocumentEntry).

(** [{ content: [{ type: 'text', text }], isError? }] *)
Record ToolResult := {
  resultContent : Payload;
  isError : bool
}.

Definition success (p : Payload) : ToolResult :=
  {| resultContent := p; isError := false |}.

Definition failure (text : string) : ToolResult :=
  {| resultContent := Text text; isError := true |}.

(** The module-level state: the store and the [isWatching] flag. *)
Record State := {
  store : ContextStore;
  isWatching : bool
}.

(** What the surroundings answer during one call: the readings of
    [Date.now()], the variable MILHOUSE_PROJECT_PATH, and the indexer, whose
    work is file-system and network traffic. *)
Record Effects := {
  now1 : Z;
  now2 : Z;
  PROJECT_PATH : option string;
  indexProject : option string -> bool -> ContextStore -> res unit * ContextStore;
  startWatching : option string -> res unit;
  stopWatching : res unit
}.

(** [x || d] on an optional number: absent or zero gives the default. *)
Definition limitOr (l : option nat) (d : nat) : nat :=
  match l with
  | Some (S n) => S n
  | _ => d
  end.

Definition orElse {A : Type} (o : option A) (d : A) : A :=
  match o with
  | Some a => a
  | None => d
  end.

Definition quoted (s : string) : string := String "034"%char (s ++ String "034"%char "").

Section Handler.

Variable toLowerCase : jsstr -> jsstr.
Variable world : World.
Variable distance : Vector -> Vector -> Q.
Variable fx : Effects.

Definition withStore (st : State) (s : ContextStore) : State :=
  {| store := s; isWatching := isWatching st |}.

(** The [switch] inside the [try] block. *)
Definition callToolBody (name : string) (args : Args) (st : State)
    : res ToolResult * State :=
  if name =? "search_context" then
    match search toLowerCase world distance (query args) (limitOr (limit args) 5)
                 (arg_type args) (store st) with
    | Ok results => (Ok (success (JsonSearchResults results)), st)
    | Throw e => (Throw e, st)
    end
  else if name =? "get_project_summary" then
    match getProjectSummary (arg_projectPath args) (store st) with
    | Ok summary => (Ok (success (JsonSummary summary)), st)
    | Throw e => (Throw e, st)
    end
  else if name =? "store_decision" then
    match storeDecision toLowerCase world (arg_title args) (arg_content args)
                        (orElse (arg_tags args) []) (now1 fx) (now2 fx) (store st) with
    | (Ok _, s') =>
        (Ok (success (Text ("Decision " ++ quoted (arg_title args)
                            ++ " stored successfully."))), withStore st s')
    | (Throw e, s') => (Throw e, withStore st s')
    end
  else if name =? "get_related_conversations" then
    match getRelatedConversations toLowerCase world distance (topic args)
                                  (limitOr (limit args) 5) (store st) with
    | Ok conversations => (Ok (success (JsonSearchResults conversations)), st)
    | Throw e => (Throw e, st)
    end
  else if name =? "index_project" then
    match indexProject fx (arg_projectPath args) (orElse (force args) false) (store st) with
    | (Ok _, s') =>
        (Ok (success (Text ("Project " ++ quoted (orElse (arg_projectPath args) "undefined")
                            ++ " indexed successfully."))), withStore st s')
    | (Throw e, s') => (Throw e, withStore st s')
    end
  else if name =? "start_watching" then
    match (if isWatching st then stopWatching fx else Ok tt) with
    | Throw e => (Throw e, st)
    | Ok _ =>
        match indexProject fx (arg_projectPath args) false (store st) with
        | (Throw e, s') => (Throw e, withStore st s')
        | (Ok _, s') =>
            match startWatching fx (arg_projectPath args) with
            | Throw e => (Throw e, withStore st s')
            | Ok _ =>
                (Ok (success (Text ("Now watching project "
                       ++ quoted (orElse (arg_projectPath args) "undefined")
                       ++ " for new conversations. Initial indexing complete."))),
                 {| store := s'; isWatching := true |})
            end
        end
    end
  else if name =? "get_memory_status" then
    match getStats (store st) with
    | Ok stats =>
        (Ok (success (JsonStatus (isWatching st)
                        (if truthy (PROJECT_PATH fx)
                         then orElse (PROJECT_PATH fx) "none" else "none")
                        stats)), st)
    | Throw e => (Throw e, st)
    end
  else if name =? "list_tasks" then
    match listTasks (arg_projectPath args) (arg_status args) (store st) with
    | Ok tasks => (Ok (success (JsonTasks tasks)), st)
    | Throw e => (Throw e, st)
    end
  else if name =? "create_task" then
    match createTask toLowerCase world (arg_title args) (arg_content args)
                     (orElse (arg_priority args) medium) (orElse (arg_tags args) [])
                     (arg_projectPath args) (now1 fx) (now2 fx) (store st) with
    | (Ok taskId, s') =>
        (Ok (success (Text ("Task created successfully with ID: " ++ taskId))),
         withStore st s')
    | (Throw e, s') => (Throw e, withStore st s')
    end
  else if name =? "update_task_status" then
    match updateTaskStatus (taskId args) (arg_status args) (now1 fx) (store st) with
    | (Ok _, s') =>
        (Ok (success (Text ("Task " ++ taskId args ++ " status updated to: "
                            ++ match arg_status args with
                               | Some pending => "pending"
                               | Some in_progress => "in_progress"
                               | Some completed => "completed"
                               | None => "undefined"
                               end))), withStore st s')
    | (Throw e, s') => (Throw e, withStore st s')
    end
  else if name =? "delete_task" then
    match deleteTask (taskId args) (store st) with
    | (Ok _, s') =>
        (Ok (success (Text ("Task " ++ taskId args ++ " deleted successfully."))),
         withStore st s')
    | (Throw e, s') => (Throw e, withStore st s')
    end
  else if name =? "list_documents" then
    match listDocuments (arg_projectPath args) (arg_tags args) (store st) with
    | Ok documents => (Ok (success (JsonDocuments documents)), st)
    | Throw e => (Throw e, st)
    end
  else if name =? "store_document" then
    match storeDocument toLowerCase world (arg_title args) (arg_content args)
                        (orElse (arg_tags args) []) (arg_projectPath args)
                        (now1 fx) (now2 fx) (store st) with
    | (Ok docId, s') =>
        (Ok (success (Text ("Document stored successfully with ID: " ++ docId))),
         withStore st s')
    | (Throw e, s') => (Throw e, withStore st s')
    end
  else if name =? "get_document" then
    match getDocument (docId args) (store st) with
    | Ok None => (Ok (failure ("Document not found: " ++ docId args)), st)
    | Ok (Some doc) => (Ok (success (JsonDocument doc)), st)
    | Throw e => (Throw e, st)
    end
  else if name =? "delete_document" then
    match deleteDocument (docId args) (store st) with
    | (Ok _, s') =>
        (Ok (success (Text ("Document " ++ docId args ++ " deleted successfully."))),
         withStore st s')
    | (Throw e, s') => (Throw e, withStore st s')
    end
  else (Throw (ErrorObject ("Unknown tool: " ++ name)), st).

(** [error instanceof Error ? error.message : 'Unknown error'] *)
Definition errorText (e : Thrown) : string :=
  "Error: " ++ match e with
               | ErrorObject message => message
               | OtherValue => "Unknown error"
               end.

(** The request handler: the [switch] under [try], and the [catch]. *)
Definition callTool (name : string) (args : Args) (st : State) : ToolResult * State :=
  match callToolBody name args st with
  | (Ok result, st') => (result, st')
  | (Throw e, st') => (failure (errorText e), st')
  end.

End Handler.

End Server.

(** ** Concrete runs, used to evaluate the model *)

Module Scenario.
Import JS Embeddings Store Server.
Local Open Scope string_scope.

(** No credential: every embedding is the fallback one. *)
Definition offline : World :=
  {| OPENAI_API_KEY := None; fetchEmbeddings := fun _ => FetchNotOk |}.

(** A distance: the number of components in which two vectors differ. *)
Definition differing (a b : Vector) : Q :=
  inject_Z (Z.of_nat (List.length
    (filter (fun p => negb (PrimFloat.eqb (fst p) (snd p))) (combine a b)))).

(** A library for the examples. Of the predicate texts with a quote
    character spliced in it reads one, [id = 'x' OR id != 'x'], which holds
    of every row; any other it takes not to parse. *)
Definition exampleLibrary : Lance :=
  {| unknownColumn := fun _ => ErrorObject "column not in schema";
     fetchedRow := fun _ => ErrorObject "row not accepted";
     zeroLimit := ErrorObject "limit must be positive";
     whereClause := fun text =>
       if String.eqb text "id = 'x' OR id != 'x'"
       then Ok (fun e => String.eqb (id e) "x" || negb (String.eqb (id e) "x"))
       else Throw (ErrorObject "predicate does not parse") |}.

Definition unopened : ContextStore :=
  {| table := None; dbPath := "/home/user/.milhouse/context.lance";
     taskColumns := false; lancedb := exampleLibrary |}.

(** A store opened on an empty database directory at clock reading 1000. *)
Definition fresh : ContextStore := initialize None 1000 unopened.

(** A store opened on a database whose table was made with the columns
    [status] and [priority] and holds the seed record. *)
Definition withTaskColumns : ContextStore :=
  initialize (Some [seedEntry 1000]) 1000
    {| table := None; dbPath := "/home/user/.milhouse/context.lance";
       taskColumns := true; lancedb := exampleLibrary |}.

(** Two tasks created there at the same clock reading 5. *)
Definition afterFirstTask : ContextStore :=
  snd (createTask latin1LowerCase offline "A" "first" medium [] None 5 5
                  withTaskColumns).

Definition afterSecondTask : ContextStore :=
  snd (createTask latin1LowerCase offline "B" "second" medium [] None 5 5
                  afterFirstTask).

(** A store opened on a table that holds, after the seed record, a task
    that was stored without a status. *)
Definition withStatuslessTask : ContextStore :=
  initialize
    (Some [seedEntry 1000;
           {| id := "task-5"; type := task; title := "A"; content := "first";
              projectPath := None; filePath := None; tags := []; timestamp := 9;
              vector := repeat 0%float (Z.to_nat 1536);
              status := None; priority := Some medium |}])
    1000
    {| table := None; dbPath := "/home/user/.milhouse/context.lance";
       taskColumns := true; lancedb := exampleLibrary |}.

Fixpoint repeatChar (n : nat) (c : ascii) : string :=
  match n with
  | O => EmptyString
  | S n' => String c (repeatChar n' c)
  end.

(** A document of 501 characters, stored at clock reading 7. *)
Definition afterLongDocument : ContextStore :=
  snd (storeDocument latin1LowerCase offline "notes" (repeatChar 501 "a") []
                     None 7 7 fresh).

Definition noArgs : Args :=
  {| query := ""; limit := None; arg_type := None; arg_projectPath := None;
     arg_title := ""; arg_content := ""; arg_tags := None; topic := "";
     force := None; arg_status := None; arg_priority := None;
     taskId := ""; docId := "" |}.

(** An indexer that finds nothing to index and watches without trouble. *)
Definition quiet : Effects :=
  {| now1 := 20; now2 := 20; PROJECT_PATH := None;
     indexProject := fun _ _ s => (Ok tt, s);
     startWatching := fun _ => Ok tt;
     stopWatching := Ok tt |}.

End Scenario.

(** ** Vocabulary of the statements *)

Module Notions.
Import JS Embeddings Store Server.
Local Open Scope string_scope.


(** The entry has another id than [x]. *)
Definition otherId (x : string) (e : ContextEntry) : bool :=
  negb (String.eqb (id e) x).

(** Orders: by growing distance, and by falling score. *)
Definition byDistance (a b : ContextEntry * Q) : Prop := (snd a <= snd b)%Q.

Definition byScoreDescending (a b : SearchResult) : Prop :=
  (result_score b <= result_score a)%Q.

Definition withDistances (distance : Vector -> Vector -> Q) (queryVector : Vector)
    (t : Table) : list (ContextEntry * Q) :=
  map (fun r => (r, distance queryVector (vector r))) t.

(** A type filter is given: a type that is not empty and not 'all'. *)
Definition givenType (ty : option string) (x : string) : Prop :=
  ty = Some x /\ x <> "" /\ x <> "all".

(** No type filter is given: no type, the empty type or 'all'. *)
Definition noType (ty : option string) : Prop :=
  ty = None \/ ty = Some "" \/ ty = Some "all".

(** The fetched rows whose type column reads [x]. *)
Definition ofTypeNamed (x : string) (l : list (ContextEntry * Q))
    : list (ContextEntry * Q) :=
  filter (fun r => String.eqb (typeName (type (fst r))) x) l.

(** The tools whose handler starts with a store operation. *)
Definition storeTools : list string :=
  ["search_context"; "get_project_summary"; "store_decision";
   "get_related_conversations"; "get_memory_status"; "list_tasks";
   "create_task"; "update_task_status"; "delete_task"; "list_documents";
   "store_document"; "get_document"; "delete_document"].

Definition knownTools : list string :=
  ("index_project" :: "start_watching" :: storeTools)%list.

(** A result is a success payload or an error-flagged text payload. *)
Definition wellFormed (r : ToolResult) : Prop :=
  isError r = false \/ (isError r = true /\ exists text, resultContent r = Text text).

End Notions.

(** ** store.ts: the remaining operations *)

Module StoreRest.
Import JS Embeddings Store.
Local Open Scope string_scope.

Section WithEnvironment.

Variable toLowerCase : jsstr -> jsstr.
Variable world : World.
(** [path.basename] of the [path] module. *)
Variable basename : string -> string.

(** [ContextStore.storeCodeContext] *)
Definition storeCodeContext (filePath content projectPath : string)
    (nowId nowStamp : Z) (s : ContextStore) : res unit * ContextStore :=
  addEntry toLowerCase world
    {| id := "code-" ++ filePath ++ "-" ++ numberToString nowId; type := code;
       title := basename filePath; content := content;
       projectPath := Some projectPath; filePath := Some filePath;
       tags := []; timestamp := nowStamp; vector := [];
       status := None; priority := None |} s.

End WithEnvironment.

(** [ContextStore.hasProject] *)
Definition hasProject (projectPath : string) (s : ContextStore) : res bool :=
  match table s with
  | None => Throw notInitialized
  | Some allEntries =>
      Ok (existsb (fun e => option_eqb (Store.projectPath e) (Some projectPath))
                  allEntries)
  end.

End StoreRest.

(** ** embeddings.ts: the summary *)

Module Summary.
Import Store.
Local Open Scope string_scope.

(** What [anthropic.messages.create] comes to: it throws (or the response has
    no first content block), the first block is not text, or it is a text
    block. *)
Inductive SummaryOutcome :=
| SummaryThrows
| SummaryNotText
| SummaryText (text : string).

Definition summaryPrompt : string :=
  "Summarize the following text in 2-3 sentences, focusing on the key topics, decisions, and technical details:"
  ++ String "010"%char (String "010"%char "").

(** [generateSummary]; [createMessage] answers for the remote service, given
    the content of the user message. *)
Definition generateSummary (createMessage : string -> SummaryOutcome)
    (text : string) : string :=
  match createMessage (summaryPrompt ++ substring0 4000 text) with
  | SummaryText t => t
  | SummaryThrows | SummaryNotText => substring0 500 text
  end.

End Summary.

(** ** indexer.ts: the conversation indexer *)

Module Indexer.
Import JS Hash Embeddings Store Summary.
Local Open Scope string_scope.

Inductive Role := user | assistant.

Definition roleName (r : Role) : string :=
  match r with
  | user => "user"
  | assistant => "assistant"
  end.

Record ClaudeMessage := {
  role : Role;
  message_content : string
}.

(** interface ClaudeConversation; [conversation_id] is [None] when the file
    has no id. *)
Record ClaudeConversation := {
  conversation_id : option string;
  messages : list ClaudeMessage
}.

(** What the file system answers: [readdir] and [access] on a path, the
    [projectPath] field of a settings file read and parsed, and a
    conversation file read and parsed; each read may throw. *)
Record FileSystem := {
  readdir : string -> res (list string);
  access : string -> bool;
  readSettings : string -> res (option string);
  readConversation : string -> res ClaudeConversation
}.

(** The indexer with the store it writes to; [ticks] counts the readings of
    [Date.now()] taken so far. *)
Record IndexerState := {
  store : ContextStore;
  indexedFiles : list string;
  ticks : nat
}.

(** [path.join(a, b)] for a normalized [a] and a plain name [b]. *)
Definition joinPath (a b : string) : string := a ++ "/" ++ b.

(** [s.endsWith(suffix)] *)
Definition endsWith (s suffix : string) : bool :=
  (String.length suffix <=? String.length s)%nat
  && String.eqb (String.substring (String.length s - String.length suffix)
                                 (String.length suffix) s) suffix.

(** [s.includes(part)] *)
Definition includes (s part : string) : bool :=
  match String.index 0 part s with
  | Some _ => true
  | None => false
  end.

Fixpoint hasSlash (s : string) : bool :=
  match s with
  | EmptyString => false
  | String c rest => Ascii.eqb c "/"%char || hasSlash rest
  end.

(** The part of a path after its last slash. *)
Fixpoint lastSegment (s : string) : string :=
  match s with
  | EmptyString => EmptyString
  | String c rest =>
      if hasSlash rest then lastSegment rest
      else if Ascii.eqb c "/"%char then rest else s
  end.

(** [path.basename(filePath, '.json')] for a path that ends with '.json':
    the last segment without the extension, unless the segment is the
    extension alone. *)
Definition basenameJson (filePath : string) : string :=
  if String.eqb filePath ".json" then ""
  else
    let segment := lastSegment filePath in
    if String.eqb segment ".json" then segment
    else substring0 (String.length segment - 5) segment.

(** [xs.join(sep)] *)
Fixpoint joinWith (sep : string) (xs : list string) : string :=
  match xs with
  | [] => ""
  | [x] => x
  | x :: rest => x ++ sep ++ joinWith sep rest
  end.

Definition newline2 : string := String "010"%char (String "010"%char "").

Definition isUser (m : ClaudeMessage) : bool :=
  match role m with
  | user => true
  | assistant => false
  end.

(** [indexedFiles.has(filePath)] *)
Definition indexed (filePath : string) (files : list string) : bool :=
  existsb (String.eqb filePath) files.

(** [indexedFiles.add(filePath)] *)
Definition addIndexed (filePath : string) (files : list string) : list string :=
  if indexed filePath files then files else (files ++ [filePath])%list.

Section WithEnvironment.

Variable toLowerCase : jsstr -> jsstr.
Variable world : World.
Variable createMessage : string -> SummaryOutcome.
Variable fs : FileSystem.
(** The successive readings of [Date.now()]. *)
Variable clock : nat -> Z.
(** [path.join(os.homedir(), '.claude', 'projects')] *)
Variable projectsDir : string.

Definition messageText (m : ClaudeMessage) : string :=
  "[" ++ roleName (role m) ++ "]: " ++ message_content m.

Definition titleOf (conversation : ClaudeConversation) : string :=
  match find isUser (messages conversation) with
  | Some firstUserMessage => substring0 100 (message_content firstUserMessage)
  | None => "Untitled conversation"
  end.

Definition idOf (conversation : ClaudeConversation) (filePath : string) : string :=
  match conversation_id conversation with
  | Some (String c rest) => String c rest
  | _ => basenameJson filePath
  end.

Definition contentOf (summary messageTexts : string) : string :=
  summary ++ newline2 ++ "---" ++ newline2 ++ substring0 5000 messageTexts.

(** [ConversationIndexer.indexConversationFile] *)
Definition indexConversationFile (filePath projectPath : string)
    (st : IndexerState) : res unit * IndexerState :=
  match readConversation fs filePath with
  | Throw e => (Throw e, st)
  | Ok parsed =>
      let messageTexts := joinWith newline2 (map messageText (messages parsed)) in
      let summary := generateSummary createMessage messageTexts in
      let title := titleOf parsed in
      let (r, s') :=
        storeConversation toLowerCase world (idOf parsed filePath) title
                          (contentOf summary messageTexts) projectPath
                          (clock (ticks st)) (store st) in
      (r, {| store := s'; indexedFiles := indexedFiles st; ticks := S (ticks st) |})
  end.

(** The body of the [for] loop over the '.json' files of a conversations
    directory. *)
Definition indexOneFile (conversationsDir projectPath : string) (force : bool)
    (st : IndexerState) (file : string) : IndexerState :=
  let filePath := joinPath conversationsDir file in
  if negb force && indexed filePath (indexedFiles st) then st
  else
    match indexConversationFile filePath projectPath st with
    | (Ok _, st') =>
        {| store := store st';
           indexedFiles := addIndexed filePath (indexedFiles st');
           ticks := ticks st' |}
    | (Throw _, st') => st'
    end.

Definition jsonFilesOf (files : list string) : list string :=
  filter (fun f => endsWith f ".json") files.

(** [ConversationIndexer.indexProjectConversations] *)
Definition indexProjectConversations (projectDir projectPath : string)
    (force : bool) (st : IndexerState) : res unit * IndexerState :=
  let conversationsDir := joinPath projectDir "conversations" in
  if negb (access fs conversationsDir) then (Ok tt, st)
  else
    match readdir fs conversationsDir with
    | Throw e => (Throw e, st)
    | Ok files =>
        (Ok tt,
         fold_left (indexOneFile conversationsDir projectPath force)
                   (jsonFilesOf files) st)
    end.

(** The [for] loop of [indexProject] over the project directories: [Some]
    when a directory matched and was indexed (the [return]), [None] when the
    loop ran to its end. *)
Fixpoint searchProjects (projects : list string) (projectPath : string)
    (force : bool) (st : IndexerState) : option IndexerState :=
  match projects with
  | [] => None
  | projectHash :: rest =>
      let projectDir := joinPath projectsDir projectHash in
      match readSettings fs (joinPath projectDir "settings.json") with
      | Throw _ => searchProjects rest projectPath force st
      | Ok settingsProjectPath =>
          if option_eqb settingsProjectPath (Some projectPath)
             || includes projectPath projectHash
          then
            match indexProjectConversations projectDir projectPath force st with
            | (Ok _, st') => Some st'
            | (Throw _, _) => searchProjects rest projectPath force st
            end
          else searchProjects rest projectPath force st
      end
  end.

(** [ConversationIndexer.indexProject] *)
Definition indexProject (projectPath : string) (force : bool)
    (st : IndexerState) : res unit * IndexerState :=
  match readdir fs projectsDir with
  | Throw e => (Throw e, st)
  | Ok projects =>
      match searchProjects projects projectPath force st with
      | Some st' => (Ok tt, st')
      | None =>
          let hashDir := joinPath projectsDir (hashProjectPath (codeUnits projectPath)) in
          if access fs hashDir
          then indexProjectConversations hashDir projectPath force st
          else (Ok tt, st)
      end
  end.

(** The watcher's callbacks for 'add' and 'change' events. *)
Definition watchedFile (filePath : string) : bool :=
  endsWith filePath ".json" && includes filePath "conversations".

Definition onAdd (projectPath filePath : string) (st : IndexerState) : IndexerState :=
  if watchedFile filePath then
    match indexConversationFile filePath projectPath st with
    | (Ok _, st') =>
        {| store := store st';
           indexedFiles := addIndexed filePath (indexedFiles st');
           ticks := ticks st' |}
    | (Throw _, st') => st'
    end
  else st.

Definition onChange (projectPath filePath : string) (st : IndexerState) : IndexerState :=
  if watchedFile filePath then snd (indexConversationFile filePath projectPath st)
  else st.

End WithEnvironment.

End Indexer.

(** ** Vocabulary of the further statements *)

Module MoreNotions.
Import JS Embeddings Store Server Summary Indexer.
Local Open Scope string_scope.

(** The rows of an initialized store ([[]] before [initialize]). *)
Definition rowsOf (s : ContextStore) : Table :=
  match table s with
  | Some t => t
  | None => []
  end.

(** The row passes the filters of [listTasks]. *)
Definition taskMatches (projectPath : option string) (status : option Status)
    (e : ContextEntry) : bool :=
  isType task e
  && (if truthy projectPath then option_eqb (Store.projectPath e) projectPath else true)
  && match status with
     | Some st => match Store.status e with
                  | Some st' => Status_eqb st' st
                  | None => false
                  end
     | None => true
     end.

Definition sharesTag (tags : list string) (e : ContextEntry) : bool :=
  existsb (fun tag => existsb (String.eqb tag) (Store.tags e)) tags.

(** The row passes the filters of [listDocuments]. *)
Definition documentMatches (projectPath : option string)
    (tags : option (list string)) (e : ContextEntry) : bool :=
  isType document e
  && (if truthy projectPath then option_eqb (Store.projectPath e) projectPath else true)
  && match tags with
     | Some (tag0 :: more) => sharesTag (tag0 :: more) e
     | _ => true
     end.

Definition newerTask (a b : TaskEntry) : Prop := task_timestamp b <= task_timestamp a.

Definition newerDocument (a b : DocumentEntry) : Prop :=
  doc_timestamp b <= doc_timestamp a.

(** Every stored vector has the dimension of the index. *)
Definition wellDimensioned (t : Table) : Prop :=
  Forall (fun e => List.length (vector e) = Z.to_nat EMBEDDING_DIM) t.

Definition offlineWorld (w : World) : Prop := truthy (OPENAI_API_KEY w) = false.

Definition countType (k : EntryType) (t : Table) : nat :=
  List.length (filter (isType k) t).

(** The store holds the rows [t] and one more row of type [kind] after
    them. *)
Definition appendsOne (kind : EntryType) (t : Table) (s' : ContextStore) : Prop :=
  exists e, rowsOf s' = (t ++ [e])%list /\ type e = kind
            /\ forall k, countType k (rowsOf s')
                         = (countType k t + if EntryType_eqb k kind then 1 else 0)%nat.

(** A task row that carries no status. *)
Definition statusless (e : ContextEntry) : bool :=
  isType task e && match status e with Some _ => false | None => true end.

Definition storedPending (e : ContextEntry) : bool :=
  isType task e && match status e with
                   | Some st => Status_eqb st pending
                   | None => false
                   end.

Definition listedPending (x : TaskEntry) : bool := Status_eqb (task_status x) pending.

(** The entry is of the kind [k] and its project path is the given one;
    no entry is of an absent project path. *)
Definition inProject (projectPath : option string) (k : EntryType)
    (e : ContextEntry) : bool :=
  match projectPath, Store.projectPath e with
  | Some p, Some q => String.eqb q p && isType k e
  | _, _ => false
  end.

(** [picked] are the [n] most recent of the rows [l] (all of them when
    there are fewer), newest first: no row left out is newer than a picked
    one. *)
Definition mostRecent (n : nat) (l picked : Table) : Prop :=
  List.length picked = Nat.min n (List.length l)
  /\ StronglySorted (fun a b => timestamp b <= timestamp a) picked
  /\ exists rest,
       Permutation l (picked ++ rest)
       /\ forall a b, In a picked -> In b rest -> timestamp b <= timestamp a.

(** The test of [getDocument]'s [find]. *)
Definition isDocumentWithId (docId : string) (e : ContextEntry) : bool :=
  String.eqb (id e) docId && isType document e.

(** The tools whose handler may change the state. *)
Definition writingTools : list string :=
  ["store_decision"; "index_project"; "start_watching"; "create_task";
   "update_task_status"; "delete_task"; "store_document"; "delete_document"].

(** The conversation file at the path can be read and parsed. *)
Definition readable (fs : FileSystem) (filePath : string) : bool :=
  match readConversation fs filePath with
  | Ok _ => true
  | Throw _ => false
  end.

Definition isConversationOf (projectPath : string) (e : ContextEntry) : Prop :=
  type e = conversation /\ Store.projectPath e = Some projectPath
  /\ (String.length (title e) <= 100)%nat.

(** The indexer [st'] holds the rows of [st] and, after them, only
    conversations of the project. *)
Definition appendsConversations (projectPath : string) (st st' : IndexerState)
    : Prop :=
  exists added,
    rowsOf (Indexer.store st') = (rowsOf (Indexer.store st) ++ added)%list
    /\ Forall (isConversationOf projectPath) added.

(** Two indexers with the same store and the same set of indexed files. *)
Definition sameIndex (st st' : IndexerState) : Prop :=
  Indexer.store st' = Indexer.store st /\ indexedFiles st' = indexedFiles st.

(** Nothing is left to do for the file without [force]: it is indexed, or it
    cannot be read, or the store is not open. *)
Definition settled (fs : FileSystem) (conversationsDir : string)
    (st : IndexerState) (file : string) : bool :=
  indexed (joinPath conversationsDir file) (indexedFiles st)
  || negb (readable fs (joinPath conversationsDir file))
  || match table (Indexer.store st) with Some _ => false | None => true end.

(** The file is one that a run over the directory stores: it can be read,
    and the run is forced or the file is not indexed yet. *)
Definition toIndex (fs : FileSystem) (conversationsDir : string) (force : bool)
    (files : list string) (file : string) : bool :=
  readable fs (joinPath conversationsDir file)
  && (force || negb (indexed (joinPath conversationsDir file) files)).

End MoreNotions.

(** ** A file system for the examples of the indexer *)

Module IndexerScenario.
Import JS Embeddings Store Summary Indexer Scenario.
Local Open Scope string_scope.

Definition claudeProjects : string := "/home/user/.claude/projects".

Definition shipping : ClaudeConversation :=
  {| conversation_id := None;
     messages := [ {| role := assistant; message_content := "Hello." |};
                   {| role := user; message_content := "How do I ship?" |} ] |}.

(** One project directory, 'abc', whose settings name the project
    '/work/app'; its conversations directory lists a conversation, a text
    file and a file that cannot be parsed. *)
Definition oneProject : FileSystem :=
  {| readdir := fun p =>
       if String.eqb p claudeProjects then Ok ["abc"]
       else if String.eqb p "/home/user/.claude/projects/abc/conversations"
       then Ok ["one.json"; "notes.txt"; "broken.json"]
       else Throw (ErrorObject "ENOENT");
     access := fun p =>
       String.eqb p "/home/user/.claude/projects/abc/conversations";
     readSettings := fun p =>
       if String.eqb p "/home/user/.claude/projects/abc/settings.json"
       then Ok (Some "/work/app")
       else Throw (ErrorObject "ENOENT");
     readConversation := fun p =>
       if String.eqb p "/home/user/.claude/projects/abc/conversations/one.json"
       then Ok shipping
       else Throw (ErrorObject "Unexpected end of JSON input") |}.

(** No '.claude' directory at all. *)
Definition noClaudeDirectory : FileSystem :=
  {| readdir := fun _ => Throw (ErrorObject "ENOENT");
     access := fun _ => false;
     readSettings := fun _ => Throw (ErrorObject "ENOENT");
     readConversation := fun _ => Throw (ErrorObject "ENOENT") |}.

(** The summary service cannot be reached. *)
Definition noSummary (prompt : string) : SummaryOutcome := SummaryThrows.

Definition tick (n : nat) : Z := 100 + Z.of_nat n.

(** An indexer that has indexed nothing yet. *)
Definition idle (s : ContextStore) : IndexerState :=
  {| Indexer.store := s; indexedFiles := []; ticks := 0 |}.

End IndexerScenario.

(** ** Properties of the integer primitives *)

Module JSFacts.
Import JS.

Lemma toInt32_range (x : Z) : - 2 ^ 31 <= toInt32 x < 2 ^ 31.
Proof.
  unfold toInt32.
  pose proof (Z.mod_pos_bound (x + 2 ^ 31) (2 ^ 32) ltac:(lia)). lia.
Qed.

Lemma toInt32_small (x : Z) : - 2 ^ 31 <= x < 2 ^ 31 -> toInt32 x = x.
Proof.
  intros Hx. unfold toInt32.
  rewrite Z.mod_small by lia. lia.
Qed.

Lemma toInt32_congr (x y : Z) :
  x mod 2 ^ 32 = y mod 2 ^ 32 -> toInt32 x = toInt32 y.
Proof.
  intros H. unfold toInt32.
  rewrite (Z.add_mod x), (Z.add_mod y), H by lia. reflexivity.
Qed.

Lemma toInt32_mod (x : Z) : toInt32 x mod 2 ^ 32 = x mod 2 ^ 32.
Proof.
  unfold toInt32.
  rewrite Zminus_mod, Z.mod_mod by lia.
  rewrite <- Zminus_mod. f_equal. lia.
Qed.

Lemma band_diag (x : Z) : band x x = toInt32 x.
Proof. unfold band. apply Z.land_diag. Qed.

Lemma shl_5 (x : Z) : shl x 5 = toInt32 (toInt32 x * 32).
Proof.
  unfold shl. change (Z.land 5 31) with 5.
  rewrite Z.shiftl_mul_pow2 by lia. reflexivity.
Qed.

Lemma wrapSigned32_toInt32 (z : Z) : Hash.wrapSigned32 z = toInt32 z.
Proof.
  unfold Hash.wrapSigned32, toInt32.
  change (2 ^ 32) with 4294967296. change (2 ^ 31) with 2147483648.
  destruct (Z.ltb_spec (z mod 4294967296) 2147483648);
    Z.div_mod_to_equations; lia.
Qed.

End JSFacts.

(** ** The rolling hash is the 31-multiplier hash *)

Module HashFacts.
Import JS Hash JSFacts.

Lemma hashStep_reference (hash char : Z) :
  hashStep hash char = wrapSigned32 (hash * 31 + char).
Proof.
  unfold hashStep. cbv zeta.
  rewrite band_diag, shl_5, wrapSigned32_toInt32.
  apply toInt32_congr.
  rewrite Z.add_mod, Zminus_mod, toInt32_mod by lia.
  rewrite Z.mul_mod, toInt32_mod by lia.
  rewrite <- Z.mul_mod, <- Zminus_mod, <- Z.add_mod by lia.
  f_equal. lia.
Qed.

Lemma hashLoop_reference (str : jsstr) (hash : Z) :
  hashLoop str hash =
  fold_left (fun h c => wrapSigned32 (h * 31 + c)) str hash.
Proof.
  revert hash. induction str as [|c rest IH]; intros hash; simpl.
  - reflexivity.
  - rewrite IH, hashStep_reference. reflexivity.
Qed.

Lemma hashString_reference (str : jsstr) : hashString str = referenceHash str.
Proof. apply hashLoop_reference. Qed.

(** Every value the loop variable takes is a signed 32-bit integer, so the
    double-precision arithmetic of the loop body is exact. *)
Lemma hashStep_int32 (hash char : Z) :
  - 2 ^ 31 <= hashStep hash char < 2 ^ 31.
Proof. unfold hashStep. cbv zeta. rewrite band_diag. apply toInt32_range. Qed.

Lemma hashLoop_int32 (str : jsstr) (hash : Z) :
  - 2 ^ 31 <= hash < 2 ^ 31 -> - 2 ^ 31 <= hashLoop str hash < 2 ^ 31.
Proof.
  revert hash. induction str as [|c rest IH]; intros hash Hh; simpl.
  - exact Hh.
  - apply IH, hashStep_int32.
Qed.

Lemma hashStep_exact (hash char : Z) :
  - 2 ^ 31 <= hash < 2 ^ 31 -> 0 <= char < 2 ^ 16 ->
  - 2 ^ 53 < (shl hash 5 - hash) + char < 2 ^ 53.
Proof.
  intros Hh Hc. unfold shl.
  pose proof (toInt32_range (Z.shiftl (toInt32 hash) (Z.land 5 31))). lia.
Qed.

(** [toString16] prints a numeral that reads back as the number. *)
Lemma hexValue_hexDigit (d : Z) : 0 <= d < 16 -> hexValue (hexDigit d) = d.
Proof.
  intros Hd.
  assert (H : d = 0 \/ d = 1 \/ d = 2 \/ d = 3 \/ d = 4 \/ d = 5 \/ d = 6
              \/ d = 7 \/ d = 8 \/ d = 9 \/ d = 10 \/ d = 11 \/ d = 12
              \/ d = 13 \/ d = 14 \/ d = 15) by lia.
  repeat (destruct H as [-> | H]; [reflexivity|]). subst d. reflexivity.
Qed.

Lemma parseHex_hexDigits (fuel : nat) (n : Z) (acc : string) :
  0 <= n < 16 ^ Z.of_nat fuel -> (0 < fuel)%nat ->
  parseHex (hexDigits fuel n acc) 0 = parseHex acc n.
Proof.
  revert n acc. induction fuel as [|fuel IH]; intros n acc Hn Hf; [lia|].
  simpl hexDigits.
  assert (Hd : 0 <= n mod 16 < 16) by (apply Z.mod_pos_bound; lia).
  assert (Hq : n = 16 * (n / 16) + n mod 16) by (apply Z.div_mod; lia).
  destruct (Z.eqb_spec (n / 16) 0) as [Hz | Hz].
  - cbn [parseHex]. rewrite hexValue_hexDigit by exact Hd. f_equal. lia.
  - assert (Hfuel : (0 < fuel)%nat).
    { destruct fuel; [|lia]. simpl in Hn.
      assert (n / 16 = 0) by (apply Z.div_small; lia). lia. }
    rewrite IH.
    + cbn [parseHex]. rewrite hexValue_hexDigit by exact Hd. f_equal. lia.
    + rewrite Nat2Z.inj_succ, Z.pow_succ_r in Hn by lia.
      split; [apply Z.div_pos; lia|].
      apply Z.div_lt_upper_bound; lia.
    + exact Hfuel.
Qed.

Lemma parseHex_toString16 (n : Z) : 0 <= n -> parseHex (toString16 n) 0 = n.
Proof.
  intros Hn. unfold toString16. rewrite parseHex_hexDigits; [reflexivity| |lia].
  split; [exact Hn|].
  destruct (Z.eq_dec n 0) as [-> | Hnz]; [reflexivity|].
  pose proof (Z.log2_nonneg n) as Hl.
  rewrite Nat2Z.inj_succ, Z2Nat.id by exact Hl.
  pose proof (Z.log2_spec n ltac:(lia)) as [_ Hlt].
  eapply Z.lt_le_trans; [exact Hlt|].
  change 16 with (2 ^ 4). rewrite <- Z.pow_mul_r by lia.
  apply Z.pow_le_mono_r; lia.
Qed.

Lemma hexDigit_lowercase (d : Z) :
  0 <= d < 16 ->
  In (hexDigit d) (list_ascii_of_string "0123456789abcdef").
Proof.
  intros Hd.
  assert (H : d = 0 \/ d = 1 \/ d = 2 \/ d = 3 \/ d = 4 \/ d = 5 \/ d = 6
              \/ d = 7 \/ d = 8 \/ d = 9 \/ d = 10 \/ d = 11 \/ d = 12
              \/ d = 13 \/ d = 14 \/ d = 15) by lia.
  repeat (destruct H as [-> | H]; [vm_compute; tauto|]). subst d. vm_compute. tauto.
Qed.

Lemma hexDigits_lowercase (fuel : nat) (n : Z) (acc : string) :
  Forall (fun c => In c (list_ascii_of_string "0123456789abcdef"))
         (list_ascii_of_string acc) ->
  Forall (fun c => In c (list_ascii_of_string "0123456789abcdef"))
         (list_ascii_of_string (hexDigits fuel n acc)).
Proof.
  revert n acc. induction fuel as [|fuel IH]; intros n acc Hacc; simpl hexDigits.
  - exact Hacc.
  - assert (Hs : Forall (fun c => In c (list_ascii_of_string "0123456789abcdef"))
                   (list_ascii_of_string (String (hexDigit (n mod 16)) acc))).
    { cbn [list_ascii_of_string]. constructor; [|exact Hacc].
      apply hexDigit_lowercase, Z.mod_pos_bound. lia. }
    destruct (n / 16 =? 0); [exact Hs | apply IH, Hs].
Qed.

Lemma toString16_lowercase (n : Z) :
  Forall (fun c => In c (list_ascii_of_string "0123456789abcdef"))
         (list_ascii_of_string (toString16 n)).
Proof. apply hexDigits_lowercase. constructor. Qed.

(** C8. For every project path (any sequence of code units), the indexer's
    fallback project-naming hash [hashProjectPath] equals the reference
    definition: from 0, [hash = hash*31 + charCode] wrapped to signed 32 bits
    for each character, then the absolute value in lowercase hexadecimal:
    the string is made of the digits 0-9 and a-f and reads back, in base 16,
    as that absolute value. *)
Theorem hashProjectPath_reference (projectPath : jsstr) :
  hashProjectPath projectPath = referenceProjectHash projectPath
  /\ parseHex (hashProjectPath projectPath) 0 = Z.abs (referenceHash projectPath)
  /\ Forall (fun c => In c (list_ascii_of_string "0123456789abcdef"))
            (list_ascii_of_string (hashProjectPath projectPath)).
Proof.
  assert (H : hashProjectPath projectPath = referenceProjectHash projectPath).
  { unfold hashProjectPath, referenceProjectHash, referenceHash.
    rewrite hashLoop_reference. reflexivity. }
  split; [exact H|]. split.
  - rewrite H. unfold referenceProjectHash.
    apply parseHex_toString16, Z.abs_nonneg.
  - apply toString16_lowercase.
Qed.

End HashFacts.

(** ** The definitions on small inputs *)

Module Examples.
Import JS Hash Embeddings.

Example toInt32_wraps : toInt32 (2 ^ 31) = - 2 ^ 31.
Proof. reflexivity. Qed.

Example shl_wraps : shl 1 31 = - 2 ^ 31.
Proof. reflexivity. Qed.

Example hashString_hello : hashString (codeUnits "hello") = 99162322.
Proof. reflexivity. Qed.

Example hashString_negative : hashString (codeUnits "embedding") = -1408481449.
Proof. reflexivity. Qed.

Example hashProjectPath_home :
  hashProjectPath (codeUnits "/home/user/project") = "5eb3a44a"%string.
Proof. reflexivity. Qed.

Example toString16_int32_min : toString16 (Z.abs (- 2 ^ 31)) = "80000000"%string.
Proof. reflexivity. Qed.

Example splitWhiteSpace_blank : splitWhiteSpace (codeUnits " ") = [[]; []].
Proof. reflexivity. Qed.

Example splitWhiteSpace_empty : splitWhiteSpace [] = [[]].
Proof. reflexivity. Qed.

Example words_sentence :
  words latin1LowerCase (codeUnits "  Fix the API, now!  ok ")
  = map codeUnits ["fix"; "the"; "api"; "now"]%string.
Proof. reflexivity. Qed.

Example referenceTokens_sentence :
  referenceTokens latin1LowerCase (codeUnits "  Fix the API, now!  ok ")
  = map codeUnits ["fix"; "the"; "api"; "now"]%string.
Proof. reflexivity. Qed.

Example embedding_two_buckets :
  List.length
    (filter (fun x => negb (x =? 0)%float)
            (generateSimpleEmbedding latin1LowerCase (codeUnits "hello world")))
  = 2%nat.
Proof. vm_compute. reflexivity. Qed.

End Examples.

(** ** Signs of binary64 results

    The operations of the embedding never leave the non-negative numbers:
    no NaN and no negative value arises, so that [magnitude > 0] fails only
    for a magnitude of zero. *)

Module FloatFacts.
Import Embeddings SpecFloat.

Lemma shr_1_nonneg mrs : (0 <= shr_m mrs)%Z -> (0 <= shr_m (shr_1 mrs))%Z.
Proof.
  destruct mrs as [m r s]. simpl. intros H.
  destruct m as [|p|p]; simpl; try lia; destruct p; simpl; lia.
Qed.
Lemma iter_nonneg p : forall mrs, (0 <= shr_m mrs)%Z -> (0 <= shr_m (iter_pos shr_1 p mrs))%Z.
Proof.
  induction p; intros mrs H; simpl; auto using shr_1_nonneg.
Qed.
Lemma shr_fexp_nonneg m e l : (0 <= m)%Z -> (0 <= shr_m (fst (shr_fexp prec emax m e l)))%Z.
Proof.
  intros H. unfold shr_fexp, shr.
  assert (H0 : (0 <= shr_m (shr_record_of_loc m l))%Z).
  { destruct l as [|[]]; simpl; exact H. }
  destruct (_ - e)%Z; simpl; auto using iter_nonneg.
Qed.
Lemma round_nearest_even_nonneg m l : (0 <= m)%Z -> (0 <= round_nearest_even m l)%Z.
Proof.
  intros H. unfold round_nearest_even.
  destruct l as [|[]]; try lia. destruct (Z.even m); lia.
Qed.
Lemma binary_round_aux_nonneg mx ex lx :
  (0 <= mx)%Z -> sfNonNegative (binary_round_aux prec emax false mx ex lx).
Proof.
  intros H. unfold binary_round_aux.
  pose proof (shr_fexp_nonneg mx ex lx H) as H1.
  destruct (shr_fexp prec emax mx ex lx) as [mrs' e']. simpl in H1.
  pose proof (shr_fexp_nonneg _ e' loc_Exact
                (round_nearest_even_nonneg _ (loc_of_shr_record mrs') H1)) as H2.
  destruct (shr_fexp prec emax _ e' loc_Exact) as [mrs'' e'']. simpl in H2.
  destruct (shr_m mrs'') as [|p|p]; simpl; try lia; auto.
  destruct (Z.leb _ _); simpl; auto.
Qed.
Lemma binary_round_nonneg m e : sfNonNegative (binary_round prec emax false m e).
Proof.
  unfold binary_round. destruct (shl_align _ _ _) as [mz ez].
  apply binary_round_aux_nonneg. lia.
Qed.
Lemma binary_normalize_nonneg m e : (0 <= m)%Z -> sfNonNegative (binary_normalize prec emax m e false).
Proof.
  intros H. destruct m as [|p|p]; simpl; auto; try lia. apply binary_round_nonneg.
Qed.
Lemma add_nonNegative x y : nonNegative x -> nonNegative y -> nonNegative (x + y).
Proof.
  unfold nonNegative. rewrite FloatAxioms.add_spec. unfold SF64add, SFadd.
  destruct (Prim2SF x) as [[]|[]| |[] mx ex]; simpl; try tauto;
  destruct (Prim2SF y) as [[]|[]| |[] my ey]; simpl; try tauto.
  intros _ _. apply binary_round_nonneg.
Qed.
Lemma square_nonNegative x : nonNegative x -> nonNegative (x * x).
Proof.
  unfold nonNegative. rewrite FloatAxioms.mul_spec. unfold SF64mul, SFmul.
  destruct (Prim2SF x) as [[]|[]| |[] mx ex]; simpl; try tauto.
  intros _. apply binary_round_aux_nonneg. lia.
Qed.
Lemma div_nonNegative x y : nonNegative y ->
  (exists m e, Prim2SF x = S754_finite false m e) -> nonNegative (x / y).
Proof.
  unfold nonNegative. rewrite FloatAxioms.div_spec. unfold SF64div, SFdiv.
  intros Hy (m & e & ->).
  destruct (Prim2SF y) as [[]|[]| |[] my ey]; try (simpl in *; tauto).
  unfold SFdiv_core_binary.
  match goal with |- context [Z.div_eucl ?a ?b] =>
    pose proof (Z_div_mod a b ltac:(lia)) as Hdm;
    assert (Ha : (0 <= a)%Z); [| destruct (Z.div_eucl a b) as [q r] ] end.
  { destruct (_ - _ - _)%Z; try lia. apply Z.shiftl_nonneg. lia. }
  apply binary_round_aux_nonneg. nia.
Qed.
Lemma sqrt_nonNegative x : nonNegative x -> nonNegative (PrimFloat.sqrt x).
Proof.
  unfold nonNegative. rewrite FloatAxioms.sqrt_spec. unfold SF64sqrt, SFsqrt.
  destruct (Prim2SF x) as [[]|[]| |[] mx ex]; try (simpl; tauto).
  intros _. unfold SFsqrt_core_binary.
  match goal with |- context [Z.sqrtrem ?a] =>
    pose proof (Z.sqrtrem_sqrt a) as Hs; pose proof (Z.sqrt_nonneg a) as Hq;
    destruct (Z.sqrtrem a) as [q r] end.
  apply binary_round_aux_nonneg. cbn [fst] in Hs. rewrite Hs. exact Hq.
Qed.
Lemma ofZ_nonNegative z : nonNegative (ofZ z).
Proof.
  unfold nonNegative, ofZ. rewrite FloatAxioms.of_uint63_spec.
  apply binary_normalize_nonneg. apply Uint63.to_Z_bounded.
Qed.
Lemma positive_or_zero m : nonNegative m -> (0 <? m)%float = negb (m =? 0)%float.
Proof.
  unfold nonNegative. rewrite FloatAxioms.ltb_spec, FloatAxioms.eqb_spec.
  change (Prim2SF 0) with (S754_zero false).
  destruct (Prim2SF m) as [[]|[]| |[] mx ex]; simpl; tauto.
Qed.
Lemma one_finite : exists m e, Prim2SF 1 = S754_finite false m e.
Proof. eexists. eexists. vm_compute. reflexivity. Qed.

Lemma zero_nonNegative : nonNegative 0%float.
Proof. exact I. Qed.

End FloatFacts.

(** ** The fallback embedding against its reference definition *)

Module EmbeddingFacts.
Import JS Hash Embeddings JSFacts HashFacts FloatFacts.

(** The two readings of the character classes agree: the ranges of the
    regular expression and the characters one by one. *)
Lemma isSpace_isWhiteSpace (c : Z) : isSpace c = isWhiteSpace c.
Proof.
  apply eq_true_iff_eq. unfold isSpace, isWhiteSpace, whiteSpaceCharacters.
  cbn [existsb].
  rewrite !orb_true_iff, !andb_true_iff, !Z.eqb_eq, !Z.leb_le. lia.
Qed.

Lemma kept_isWordChar (c : Z) :
  existsb (Z.eqb c) (codeUnits keptCharacters) = isWordChar c.
Proof.
  apply eq_true_iff_eq. unfold isWordChar.
  let l := eval vm_compute in (codeUnits keptCharacters) in
  change (codeUnits keptCharacters) with l.
  cbn [existsb].
  rewrite !orb_true_iff, !andb_true_iff, !Z.eqb_eq, !Z.leb_le. lia.
Qed.

Lemma replace_deletes (s : jsstr) :
  replaceNonWordNonSpace s = filter (fun c => negb (isDeleted c)) s.
Proof.
  unfold replaceNonWordNonSpace, isDeleted.
  apply filter_ext. intros c.
  rewrite kept_isWordChar, isSpace_isWhiteSpace, negb_involutive. reflexivity.
Qed.

(** The weight that the code computes is the binary64 quotient. *)
Lemma weight_reference (i : Z) :
  0 <= i -> i + 1 < 2 ^ 63 -> (1 / ofZ (i + 1))%float = referenceWeight i.
Proof.
  intros H0 H1. unfold referenceWeight, ofZ.
  rewrite <- (FloatAxioms.SF2Prim_Prim2SF (1 / _)%float).
  rewrite FloatAxioms.div_spec, FloatAxioms.of_uint63_spec.
  rewrite Uint63.of_Z_spec. rewrite Z.mod_small; [reflexivity|].
  change wB with (2 ^ 63). lia.
Qed.

Lemma splitLoop_length (s cur : jsstr) (inSeparator : bool) :
  (List.length (splitLoop s cur inSeparator) <= S (List.length s))%nat.
Proof.
  revert cur inSeparator. induction s as [|c rest IH]; intros cur inSep; simpl.
  - lia.
  - destruct (isWhiteSpace c).
    + destruct inSep; [specialize (IH cur true) | specialize (IH [] true)];
        simpl; lia.
    + specialize (IH (c :: cur) false). lia.
Qed.

(** The empty pieces that [split] leaves at the ends do not survive the
    length filter, so what remains are the runs between white space. *)
Lemma splitLoop_tokenRuns (keep : jsstr -> bool) (s : jsstr) :
  keep [] = false ->
  forall cur inSeparator,
    (inSeparator = true -> cur = []) ->
    filter keep (splitLoop s cur inSeparator) = filter keep (tokenRuns s cur).
Proof.
  intros Hk. induction s as [|c rest IH]; intros cur inSep Hsep.
  - destruct cur as [|x cur]; simpl; [rewrite Hk|]; reflexivity.
  - simpl. rewrite isSpace_isWhiteSpace. destruct (isWhiteSpace c).
    + destruct inSep.
      * rewrite (Hsep eq_refl). apply IH. reflexivity.
      * destruct cur as [|x cur].
        -- simpl. rewrite Hk. apply IH. reflexivity.
        -- cbn [filter]. rewrite (IH [] true (fun _ => eq_refl)). reflexivity.
    + apply IH. discriminate.
Qed.

Lemma addAt_length (p : nat) (w : float) (v : Vector) :
  List.length (addAt p w v) = List.length v.
Proof.
  revert p. induction v as [|x v IH]; intros [|p]; simpl; auto.
Qed.

Lemma addAt_nth (p : nat) (w : float) (v : Vector) (b : nat) :
  nth b (addAt p w v) 0%float =
  if Nat.eqb b p then
    if Nat.ltb b (List.length v) then (nth b v 0 + w)%float else 0%float
  else nth b v 0%float.
Proof.
  revert p b. induction v as [|x v IH]; intros p b.
  - destruct p, b; simpl; try reflexivity; destruct (Nat.eqb b p); reflexivity.
  - destruct p as [|p], b as [|b]; simpl; try reflexivity.
    rewrite IH. reflexivity.
Qed.

Lemma addAt_nonNegative (p : nat) (w : float) (v : Vector) :
  nonNegative w -> Forall nonNegative v -> Forall nonNegative (addAt p w v).
Proof.
  intros Hw Hv. revert p. induction Hv as [|x v Hx Hv IH]; intros p.
  - destruct p; constructor.
  - destruct p as [|p]; simpl; constructor; auto using add_nonNegative.
Qed.

Lemma weight_nonNegative (idx : Z) : nonNegative (1 / ofZ (idx + 1))%float.
Proof.
  apply div_nonNegative; [apply ofZ_nonNegative | apply one_finite].
Qed.

Lemma sumSquares_nonNegative (v : Vector) (acc : float) :
  nonNegative acc -> Forall nonNegative v ->
  nonNegative (fold_left (fun sum val => (sum + val * val)%float) v acc).
Proof.
  intros Hacc Hv. revert acc Hacc.
  induction Hv as [|x v Hx Hv IH]; intros acc Hacc; simpl.
  - exact Hacc.
  - apply IH, add_nonNegative; [exact Hacc | apply square_nonNegative, Hx].
Qed.

Lemma magnitudeOf_nonNegative (v : Vector) :
  Forall nonNegative v -> nonNegative (magnitudeOf v).
Proof.
  intros Hv. apply sqrt_nonNegative, sumSquares_nonNegative;
    [apply zero_nonNegative | exact Hv].
Qed.

Lemma magnitudeOf_l2norm (v : Vector) : magnitudeOf v = l2norm v.
Proof.
  unfold magnitudeOf, l2norm. f_equal.
  generalize 0%float. induction v as [|x v IH]; intros acc; simpl.
  - reflexivity.
  - apply IH.
Qed.

Lemma zeros_nonNegative (n : nat) : Forall nonNegative (repeat 0%float n).
Proof.
  induction n; simpl; constructor; [apply zero_nonNegative | assumption].
Qed.

Lemma bucket_position (word : jsstr) (b : nat) :
  Nat.eqb b (Z.to_nat (Z.abs (hashString word) mod EMBEDDING_DIM)) =
  (referenceBucket word =? Z.of_nat b).
Proof.
  unfold referenceBucket. change 1536 with EMBEDDING_DIM.
  rewrite hashString_reference.
  pose proof (Z.mod_pos_bound (Z.abs (referenceHash word)) EMBEDDING_DIM
                ltac:(reflexivity)) as [Hlo _].
  destruct (Nat.eqb_spec b (Z.to_nat (Z.abs (referenceHash word) mod EMBEDDING_DIM)));
    destruct (Z.eqb_spec (Z.abs (referenceHash word) mod EMBEDDING_DIM) (Z.of_nat b));
    try reflexivity; exfalso; lia.
Qed.

Section WithLowerCase.

Variable toLowerCase : jsstr -> jsstr.

Lemma words_amendedTokens (text : jsstr) :
  words toLowerCase text = amendedTokens toLowerCase text.
Proof.
  unfold words, amendedTokens, tokensWithout, splitWhiteSpace.
  rewrite replace_deletes.
  rewrite (splitLoop_tokenRuns (fun w => 2 <? Z.of_nat (List.length w)))
    by (reflexivity || discriminate).
  apply filter_ext. intros w. apply Z.ltb_antisym.
Qed.

(** There are no more words than code units in the lowered text, and one
    more at most. *)
Lemma words_count (text : jsstr) :
  (List.length (words toLowerCase text) <= S (List.length (toLowerCase text)))%nat.
Proof.
  unfold words, splitWhiteSpace, replaceNonWordNonSpace.
  eapply Nat.le_trans; [apply filter_length_le|].
  eapply Nat.le_trans; [apply splitLoop_length|].
  apply le_n_S, filter_length_le.
Qed.

Lemma forEachWord_length (ws : list jsstr) (idx : Z) (v : Vector) :
  List.length (forEachWord ws idx v) = List.length v.
Proof.
  revert idx v. induction ws as [|w ws IH]; intros idx v; simpl.
  - reflexivity.
  - rewrite IH. apply addAt_length.
Qed.

Lemma forEachWord_nonNegative (ws : list jsstr) (idx : Z) (v : Vector) :
  Forall nonNegative v -> Forall nonNegative (forEachWord ws idx v).
Proof.
  revert idx v. induction ws as [|w ws IH]; intros idx v Hv; simpl.
  - exact Hv.
  - apply IH, addAt_nonNegative; [apply weight_nonNegative | exact Hv].
Qed.

(** Each slot of the array ends up with the weights of its bucket, added in
    token order. *)
Lemma forEachWord_bucketSum (ws : list jsstr) (idx : Z) (v : Vector) (b : nat) :
  0 <= idx -> idx + Z.of_nat (List.length ws) < 2 ^ 63 ->
  (b < List.length v)%nat ->
  nth b (forEachWord ws idx v) 0%float =
  bucketSum (Z.of_nat b) (referenceWeights ws idx) (nth b v 0%float).
Proof.
  revert idx v. induction ws as [|w ws IH]; intros idx v H0 H1 Hb; simpl.
  - reflexivity.
  - cbn [List.length] in H1.
    rewrite IH by (rewrite ?addAt_length; first [exact Hb | lia]).
    unfold bucketSum. cbn [fold_left fst snd]. f_equal.
    rewrite addAt_nth, bucket_position.
    apply Nat.ltb_lt in Hb. rewrite Hb.
    rewrite weight_reference by lia. reflexivity.
Qed.

Lemma forEachWord_referenceRaw (ws : list jsstr) :
  Z.of_nat (List.length ws) < 2 ^ 63 ->
  forEachWord ws 0 (repeat 0%float (Z.to_nat EMBEDDING_DIM)) = referenceRaw ws.
Proof.
  intros Hws. unfold referenceRaw.
  apply nth_ext with (d := 0%float)
                     (d' := bucketSum 0 (referenceWeights ws 0) 0%float).
  - rewrite forEachWord_length, repeat_length, length_map, length_seq. reflexivity.
  - intros b Hb. rewrite forEachWord_length, repeat_length in Hb.
    rewrite forEachWord_bucketSum by (rewrite ?repeat_length; first [exact Hb | lia]).
    rewrite nth_repeat.
    change (bucketSum 0 (referenceWeights ws 0) 0%float)
      with ((fun b => bucketSum (Z.of_nat b) (referenceWeights ws 0) 0%float) 0%nat).
    rewrite map_nth, seq_nth by exact Hb. reflexivity.
Qed.

Lemma generateSimpleEmbedding_eq_amended (text : jsstr) :
  Z.of_nat (List.length (toLowerCase text)) < 2 ^ 53 ->
  generateSimpleEmbedding toLowerCase text = amendedEmbedding toLowerCase text.
Proof.
  intros Hlen.
  assert (Hws : Z.of_nat (List.length (words toLowerCase text)) < 2 ^ 63).
  { pose proof (words_count text). lia. }
  unfold generateSimpleEmbedding, amendedEmbedding, embeddingWithout. cbv zeta.
  fold (amendedTokens toLowerCase text).
  rewrite <- words_amendedTokens, <- (forEachWord_referenceRaw _ Hws).
  rewrite <- magnitudeOf_l2norm.
  rewrite positive_or_zero.
  - destruct (magnitudeOf _ =? 0)%float; reflexivity.
  - apply magnitudeOf_nonNegative.
    apply forEachWord_nonNegative, zeros_nonNegative.
Qed.

Lemma generateSimpleEmbedding_no_words (text : jsstr) :
  words toLowerCase text = [] ->
  generateSimpleEmbedding toLowerCase text = repeat 0%float (Z.to_nat EMBEDDING_DIM).
Proof.
  intros Hw. unfold generateSimpleEmbedding. rewrite Hw. cbv zeta.
  cbn [forEachWord].
  replace (0 <? magnitudeOf (repeat 0%float (Z.to_nat EMBEDDING_DIM)))%float
    with false by (vm_compute; reflexivity).
  reflexivity.
Qed.

Lemma generateSimpleEmbedding_length (text : jsstr) :
  List.length (generateSimpleEmbedding toLowerCase text) = Z.to_nat EMBEDDING_DIM.
Proof.
  unfold generateSimpleEmbedding. cbv zeta.
  destruct (0 <? _)%float; rewrite ?length_map, forEachWord_length, repeat_length;
    reflexivity.
Qed.

End WithLowerCase.

End EmbeddingFacts.

(** ** Claims on the embedding provider *)

Module EmbeddingClaims.
Import JS Hash Embeddings EmbeddingFacts.

(** C2, as the code has it. For every input text (a JavaScript string: its
    lowered form has fewer than 2^53 code units), the fallback embedding
    [generateSimpleEmbedding] equals the reference definition with one
    change: where the claim strips punctuation, the code deletes every
    character that is not a letter of ASCII, a digit, the underscore or
    white space. So: lowercase, delete these characters, split on white
    space, drop the tokens of length at most 2; the token at position i
    (from 0) adds the weight 1/(i+1) to the bucket abs(hash) mod 1536 of its
    31-multiplier hash wrapped to signed 32 bits; the vector is
    L2-normalized unless its magnitude is 0, when it is returned unmodified.
    The result has length 1536, and it is the all-zero vector for a text
    without a token longer than 2, the empty string included. *)
Theorem generateSimpleEmbedding_reference
    (toLowerCase : jsstr -> jsstr) (text : jsstr) :
  Z.of_nat (List.length (toLowerCase text)) < 2 ^ 53 ->
  generateSimpleEmbedding toLowerCase text = amendedEmbedding toLowerCase text
  /\ List.length (generateSimpleEmbedding toLowerCase text) = 1536%nat
  /\ (amendedTokens toLowerCase text = [] ->
      generateSimpleEmbedding toLowerCase text = repeat 0%float 1536)
  /\ (toLowerCase [] = [] ->
      generateSimpleEmbedding toLowerCase [] = repeat 0%float 1536)
  /\ ((l2norm (referenceRaw (amendedTokens toLowerCase text)) =? 0)%float = true ->
      generateSimpleEmbedding toLowerCase text
      = referenceRaw (amendedTokens toLowerCase text)).
Proof.
  intros Hlen. split; [|split; [|split; [|split]]].
  - apply generateSimpleEmbedding_eq_amended, Hlen.
  - apply generateSimpleEmbedding_length.
  - intros Ht. apply generateSimpleEmbedding_no_words.
    rewrite words_amendedTokens. exact Ht.
  - intros He. apply generateSimpleEmbedding_no_words.
    unfold words. rewrite He. reflexivity.
  - intros Hm. rewrite generateSimpleEmbedding_eq_amended by exact Hlen.
    unfold amendedEmbedding, embeddingWithout. cbv zeta.
    fold (amendedTokens toLowerCase text). rewrite Hm. reflexivity.
Qed.

(** The theorem at the text "a to": no token is longer than 2. *)
Lemma generateSimpleEmbedding_reference_witness :
  generateSimpleEmbedding latin1LowerCase (codeUnits "a to") = repeat 0%float 1536.
Proof.
  destruct (generateSimpleEmbedding_reference latin1LowerCase (codeUnits "a to"))
    as (_ & _ & Hnone & _).
  - vm_compute. reflexivity.
  - apply Hnone. reflexivity.
Defined.

(** C2 as stated fails: the underscore is a punctuation mark, and the code
    keeps it; the letter e with an acute accent is no punctuation mark, and
    the code deletes it. With punctuation stripped, "a_b" leaves the token
    "ab", which is dropped, and the embedding is the zero vector; the code
    hashes the token "a_b". With punctuation stripped, the word of code
    units 233, 116, 233 is a token; the code is left with "t", which it
    drops, and returns the zero vector. *)
Lemma generateSimpleEmbedding_keeps_underscore :
  isPunctuation 95 = true /\ isPunctuation 233 = false
  /\ referenceTokens latin1LowerCase (codeUnits "a_b") = []
  /\ words latin1LowerCase (codeUnits "a_b") = [codeUnits "a_b"]
  /\ referenceEmbedding latin1LowerCase (codeUnits "a_b") = repeat 0%float 1536
  /\ generateSimpleEmbedding latin1LowerCase (codeUnits "a_b")
     <> referenceEmbedding latin1LowerCase (codeUnits "a_b")
  /\ referenceTokens latin1LowerCase [233; 116; 233] = [[233; 116; 233]]
  /\ words latin1LowerCase [233; 116; 233] = []
  /\ generateSimpleEmbedding latin1LowerCase [233; 116; 233]
     <> referenceEmbedding latin1LowerCase [233; 116; 233].
Proof.
  assert (Hcount : forall a b : Vector,
            List.length (filter (fun x => negb (x =? 0)%float) a)
            <> List.length (filter (fun x => negb (x =? 0)%float) b) ->
            a <> b) by (intros a b H ->; apply H; reflexivity).
  split; [reflexivity|]. split; [reflexivity|]. split; [reflexivity|].
  split; [reflexivity|]. split; [vm_compute; reflexivity|].
  split; [apply Hcount; vm_compute; discriminate|].
  split; [reflexivity|]. split; [reflexivity|].
  apply Hcount. vm_compute. discriminate.
Qed.

(** C9. The fallback path is deterministic: whatever the surroundings of two
    calls are, when neither has a remote credential configured the two
    vectors returned for the same text are equal component by component
    (equal binary64 values), both being the fallback embedding of the
    text. *)
Theorem generateEmbedding_fallback_deterministic
    (toLowerCase : jsstr -> jsstr) (w1 w2 : World) (text : jsstr) :
  truthy (OPENAI_API_KEY w1) = false ->
  truthy (OPENAI_API_KEY w2) = false ->
  generateEmbedding toLowerCase w1 text = generateEmbedding toLowerCase w2 text
  /\ Forall2 eq (generateEmbedding toLowerCase w1 text)
                (generateEmbedding toLowerCase w2 text)
  /\ generateEmbedding toLowerCase w1 text = generateSimpleEmbedding toLowerCase text.
Proof.
  intros H1 H2. unfold generateEmbedding. rewrite H1, H2.
  repeat split.
  induction (generateSimpleEmbedding toLowerCase text); constructor; auto.
Qed.

Lemma generateEmbedding_fallback_deterministic_witness :
  generateEmbedding latin1LowerCase
    {| OPENAI_API_KEY := None; fetchEmbeddings := fun _ => FetchNotOk |}
    (codeUnits "hello world")
  = generateEmbedding latin1LowerCase
      {| OPENAI_API_KEY := Some EmptyString;
         fetchEmbeddings := fun _ => FetchOk [] |}
      (codeUnits "hello world").
Proof.
  apply (generateEmbedding_fallback_deterministic latin1LowerCase
           {| OPENAI_API_KEY := None; fetchEmbeddings := fun _ => FetchNotOk |}
           {| OPENAI_API_KEY := Some EmptyString;
              fetchEmbeddings := fun _ => FetchOk [] |}
           (codeUnits "hello world")); reflexivity.
Defined.

End EmbeddingClaims.

(** ** Lists: the stable sort and the row filters *)

Module ListFacts.
Import Store.

Section Sorting.

Context {A : Type}.
Variable before : A -> A -> bool.

Lemma insertBy_In (x y : A) (l : list A) :
  In y (insertBy before x l) <-> y = x \/ In y l.
Proof.
  induction l as [|z l IH]; simpl.
  - intuition.
  - destruct (before x z); simpl; rewrite ?IH; intuition.
Qed.

Lemma sortBy_In (y : A) (l : list A) : In y (sortBy before l) <-> In y l.
Proof.
  induction l as [|x l IH]; simpl.
  - reflexivity.
  - rewrite insertBy_In, IH. intuition.
Qed.

Lemma insertBy_Permutation (x : A) (l : list A) :
  Permutation (x :: l) (insertBy before x l).
Proof.
  induction l as [|z l IH]; simpl.
  - reflexivity.
  - destruct (before x z).
    + reflexivity.
    + rewrite perm_swap. constructor. exact IH.
Qed.

Lemma sortBy_Permutation (l : list A) : Permutation l (sortBy before l).
Proof.
  induction l as [|x l IH]; simpl.
  - constructor.
  - rewrite <- insertBy_Permutation. constructor. exact IH.
Qed.

Lemma sortBy_length (l : list A) : List.length (sortBy before l) = List.length l.
Proof. symmetry. apply Permutation_length, sortBy_Permutation. Qed.

(** The number of elements that satisfy [p] survives the sort. *)
Lemma insertBy_count (p : A -> bool) (x : A) (l : list A) :
  List.length (filter p (insertBy before x l)) = List.length (filter p (x :: l)).
Proof.
  induction l as [|z l IH]; simpl.
  - reflexivity.
  - destruct (before x z); simpl.
    + reflexivity.
    + simpl in IH. destruct (p z), (p x); simpl in *; rewrite IH; reflexivity.
Qed.

Lemma sortBy_count (p : A -> bool) (l : list A) :
  List.length (filter p (sortBy before l)) = List.length (filter p l).
Proof.
  induction l as [|x l IH]; simpl.
  - reflexivity.
  - rewrite insertBy_count. simpl. destruct (p x); simpl; rewrite IH; reflexivity.
Qed.

Hypothesis before_total : forall a b, before a b = true \/ before b a = true.
Hypothesis before_trans :
  forall a b c, before a b = true -> before b c = true -> before a c = true.

Lemma insertBy_sorted (x : A) (l : list A) :
  StronglySorted (fun a b => before a b = true) l ->
  StronglySorted (fun a b => before a b = true) (insertBy before x l).
Proof.
  induction 1 as [|z l Hs IH Hz]; simpl.
  - repeat constructor.
  - destruct (before x z) eqn:Hxz.
    + constructor; [constructor; assumption|].
      constructor; [exact Hxz|].
      rewrite Forall_forall in *. intros y Hy. eauto.
    + constructor; [exact IH|].
      rewrite Forall_forall in *. intros y Hy.
      apply insertBy_In in Hy. destruct Hy as [-> | Hy]; [|auto].
      destruct (before_total x z) as [H | H]; congruence.
Qed.

Lemma sortBy_sorted (l : list A) :
  StronglySorted (fun a b => before a b = true) (sortBy before l).
Proof.
  induction l as [|x l IH]; simpl.
  - constructor.
  - apply insertBy_sorted, IH.
Qed.

End Sorting.

Lemma firstn_In {A : Type} (x : A) (n : nat) (l : list A) :
  In x (firstn n l) -> In x l.
Proof.
  revert n. induction l as [|y l IH]; intros [|n]; simpl; try tauto.
  intros [H | H]; eauto.
Qed.

Lemma StronglySorted_firstn {A : Type} (R : A -> A -> Prop) (n : nat) (l : list A) :
  StronglySorted R l -> StronglySorted R (firstn n l).
Proof.
  intros Hs. revert n. induction Hs as [|x l Hs IH Hx]; intros [|n]; simpl;
    try constructor; auto.
  rewrite Forall_forall in *. intros y Hy. apply Hx.
  eapply firstn_In; eauto.
Qed.

Lemma StronglySorted_filter {A : Type} (R : A -> A -> Prop) (p : A -> bool) (l : list A) :
  StronglySorted R l -> StronglySorted R (filter p l).
Proof.
  induction 1 as [|x l Hs IH Hx]; simpl.
  - constructor.
  - destruct (p x); [|exact IH].
    constructor; [exact IH|].
    rewrite Forall_forall in *. intros y Hy. apply filter_In in Hy. apply Hx, Hy.
Qed.

Lemma StronglySorted_map {A B : Type} (R : A -> A -> Prop) (S : B -> B -> Prop)
    (f : A -> B) (l : list A) :
  (forall a b, R a b -> S (f a) (f b)) ->
  StronglySorted R l -> StronglySorted S (map f l).
Proof.
  intros HRS. induction 1 as [|x l Hs IH Hx]; simpl; constructor.
  - exact IH.
  - rewrite Forall_forall in *. intros y Hy.
    apply in_map_iff in Hy. destruct Hy as (a & <- & Ha). auto.
Qed.

(** Rows that a deletion by id leaves, and rows that it takes. *)
Lemma deleteById_In (x : string) (t : Table) (e : ContextEntry) :
  In e (deleteById x t) <-> In e t /\ id e <> x.
Proof.
  unfold deleteById. rewrite filter_In.
  destruct (String.eqb_spec (id e) x); simpl; intuition congruence.
Qed.

Lemma deleteById_absent (x : string) (t : Table) :
  (forall e, In e t -> id e <> x) -> deleteById x t = t.
Proof.
  intros H. unfold deleteById. induction t as [|e t IH]; simpl.
  - reflexivity.
  - destruct (String.eqb_spec (id e) x) as [Heq | Hne]; simpl.
    + exfalso. apply (H e); simpl; auto.
    + rewrite IH; [reflexivity|]. intros e' He'. apply H. simpl. auto.
Qed.

(** The rows with another id are the same before and after, in order. *)
Lemma deleteById_others (x : string) (t : Table) :
  filter (fun e => negb (String.eqb (id e) x)) (deleteById x t)
  = filter (fun e => negb (String.eqb (id e) x)) t.
Proof.
  unfold deleteById. induction t as [|e t IH]; simpl.
  - reflexivity.
  - destruct (negb (String.eqb (id e) x)) eqn:He; simpl; rewrite ?He, IH; reflexivity.
Qed.

(** A deletion by an id without a quote character takes the rows of the
    id. *)
Lemma deleteWhere_plain (engine : Lance) (x : string) (t : Table) :
  hasQuote x = false -> deleteWhere engine x t = Ok (deleteById x t).
Proof. intros H. unfold deleteWhere. rewrite H. reflexivity. Qed.

(** Whatever the predicate, a deletion leaves rows that were there. *)
Lemma deleteWhere_keeps (engine : Lance) (x : string) (t rest : Table) :
  deleteWhere engine x t = Ok rest -> exists p, rest = filter p t.
Proof.
  unfold deleteWhere. destruct (hasQuote x).
  - destruct (whereClause engine (deletePredicate x)) as [selects|]; [|discriminate].
    intros H. injection H as <-. eexists. reflexivity.
  - intros H. injection H as <-. eexists. reflexivity.
Qed.

Lemma withTable_same (s : ContextStore) (t : Table) :
  table s = Some t -> withTable s t = s.
Proof. destruct s as [tb p c l]. simpl. intros ->. reflexivity. Qed.

End ListFacts.

(** ** Facts about the store operations *)

Module StoreFacts.
Import JS Embeddings Store ListFacts.
Local Open Scope string_scope.

Lemma EntryType_eqb_eq (a b : EntryType) : EntryType_eqb a b = true <-> a = b.
Proof. destruct a, b; simpl; split; congruence. Qed.

Lemma isType_true (t : EntryType) (e : ContextEntry) :
  isType t e = true <-> type e = t.
Proof. apply EntryType_eqb_eq. Qed.

Lemma isTaskWithId_true (taskId : string) (e : ContextEntry) :
  isTaskWithId taskId e = true <-> id e = taskId /\ type e = task.
Proof.
  unfold isTaskWithId. rewrite andb_true_iff, String.eqb_eq, isType_true.
  reflexivity.
Qed.

Lemma find_isTaskWithId_None (taskId : string) (t : Table) :
  find (isTaskWithId taskId) t = None <->
  ~ exists e, In e t /\ id e = taskId /\ type e = task.
Proof.
  split.
  - intros Hf (e & He & Hid & Hty).
    pose proof (find_none _ _ Hf e He) as H.
    assert (isTaskWithId taskId e = true) by (apply isTaskWithId_true; auto).
    congruence.
  - intros Hn. destruct (find (isTaskWithId taskId) t) as [e|] eqn:Hf; [|reflexivity].
    exfalso. apply Hn. apply find_some in Hf. destruct Hf as [He Hp].
    apply isTaskWithId_true in Hp. exists e. tauto.
Qed.

Lemma filter_nothing {A : Type} (p : A -> bool) (l : list A) :
  (forall x, In x l -> p x = false) -> filter p l = [].
Proof.
  induction l as [|x l IH]; simpl; intros H.
  - reflexivity.
  - rewrite (H x) by auto. apply IH. auto.
Qed.

Lemma filter_map_length {A B : Type} (f : A -> B) (p : B -> bool) (l : list A) :
  List.length (filter p (map f l)) = List.length (filter (fun a => p (f a)) l).
Proof.
  induction l as [|x l IH]; simpl.
  - reflexivity.
  - destruct (p (f x)); simpl; rewrite IH; reflexivity.
Qed.

Lemma deleteTask_plain (s : ContextStore) (t : Table) (x : string) :
  table s = Some t -> hasQuote x = false ->
  deleteTask x s = (Ok tt, withTable s (deleteById x t)).
Proof.
  intros Ht Hq. unfold deleteTask. rewrite Ht, (deleteWhere_plain _ _ _ Hq).
  reflexivity.
Qed.

Lemma deleteDocument_plain (s : ContextStore) (t : Table) (x : string) :
  table s = Some t -> hasQuote x = false ->
  deleteDocument x s = (Ok tt, withTable s (deleteById x t)).
Proof.
  intros Ht Hq. unfold deleteDocument. rewrite Ht, (deleteWhere_plain _ _ _ Hq).
  reflexivity.
Qed.

(** What a search that returns has computed. *)
Lemma search_run (toLowerCase : jsstr -> jsstr) (world : World)
    (distance : Vector -> Vector -> Q) (query : string) (limit : nat)
    (ty : option string) (s : ContextStore) (t : Table) :
  table s = Some t -> (0 < limit)%nat ->
  search toLowerCase world distance query limit ty s
  = Ok (map toSearchResult
          (firstn limit
             match filtersType ty with
             | Some x =>
                 filter (fun r => String.eqb (typeName (type (fst r))) x)
                        (nearest distance (embed toLowerCase world query)
                                 (limit * 2) t)
             | None => nearest distance (embed toLowerCase world query) (limit * 2) t
             end)).
Proof.
  intros Ht Hl. unfold search. rewrite Ht.
  destruct limit as [|n]; [lia|]. reflexivity.
Qed.

Lemma search_Ok (toLowerCase : jsstr -> jsstr) (world : World)
    (distance : Vector -> Vector -> Q) (query : string) (limit : nat)
    (ty : option string) (s : ContextStore) (results : list SearchResult) :
  search toLowerCase world distance query limit ty s = Ok results ->
  exists t, table s = Some t /\ (0 < limit)%nat.
Proof.
  unfold search. destruct (table s) as [t|]; [|discriminate].
  destruct limit as [|n]; [discriminate|]. intros _. exists t. split; [reflexivity | lia].
Qed.

End StoreFacts.

(** ** Claims on task updates *)

Module TaskClaims.
Import JS Embeddings Store ListFacts StoreFacts Scenario Notions.
Local Open Scope string_scope.







End TaskClaims.

(** ** Claims on task creation and on the seed record *)

Module CreationClaims.
Import JS Embeddings Store ListFacts StoreFacts Scenario TaskClaims Notions.
Local Open Scope string_scope.

(** What [createTask] does with the table it is given. *)
Lemma createTask_outcome (toLowerCase : jsstr -> jsstr) (world : World)
    (s : ContextStore) (t : Table) (title content : string)
    (priority : Priority) (tags : list string) (projectPath : option string)
    (nowId nowStamp : Z) :
  table s = Some t ->
  exists row,
    id row = "task-" ++ numberToString nowId /\ type row = task
    /\ Store.title row = title /\ Store.content row = content
    /\ status row = Some pending /\ Store.priority row = Some priority
    /\ createTask toLowerCase world title content priority tags projectPath
                  nowId nowStamp s
       = if taskColumns s
         then (Ok ("task-" ++ numberToString nowId), withTable s (t ++ [row])%list)
         else (Throw (unknownColumn (lancedb s) row), s).
Proof.
  intros Ht.
  exists {| id := "task-" ++ numberToString nowId; type := task; title := title;
            content := content; projectPath := projectPath; filePath := None;
            tags := tags; timestamp := nowStamp;
            vector := embed toLowerCase world (title ++ String "010"%char content);
            status := Some pending; priority := Some priority |}.
  repeat (split; [reflexivity|]).
  unfold createTask, addEntry. rewrite Ht. cbv zeta. unfold fitsSchema.
  cbn [Store.id Store.type Store.title Store.content Store.projectPath
       Store.filePath Store.tags Store.timestamp Store.status Store.priority].
  destruct (taskColumns s); reflexivity.
Qed.

(** C5. On the table that [initialize] creates, whose schema is that of
    the seed record, [createTask] throws: the row it adds has the columns
    [status] and [priority], which the table lacks. The store is as it was,
    and the listing of pending tasks of a store just initialized stays
    empty. The same holds on every table without the two columns. Where a
    table has them, the call returns the id "task-" followed by the clock
    reading, whatever was created before: two calls at the same clock
    reading return the same id. *)
Theorem createTask_refused_by_seed_schema (toLowerCase : jsstr -> jsstr)
    (world : World) (s0 : ContextStore) (now : Z) (title content : string)
    (priority : Priority) (tags : list string) (projectPath : option string)
    (nowId nowStamp : Z) :
  (exists row,
     createTask toLowerCase world title content priority tags projectPath
                nowId nowStamp (initialize None now s0)
     = (Throw (unknownColumn (lancedb s0) row), initialize None now s0)
     /\ status row = Some pending /\ Store.priority row = Some priority)
  /\ listTasks None (Some pending) (initialize None now s0) = Ok []
  /\ (forall s t,
        table s = Some t -> taskColumns s = false ->
        snd (createTask toLowerCase world title content priority tags projectPath
                        nowId nowStamp s) = s
        /\ exists e, fst (createTask toLowerCase world title content priority tags
                                     projectPath nowId nowStamp s) = Throw e)
  /\ (forall s t title' content' priority' tags' projectPath' nowStamp',
        table s = Some t -> taskColumns s = true ->
        fst (createTask toLowerCase world title content priority tags projectPath
                        nowId nowStamp s)
        = Ok ("task-" ++ numberToString nowId)
        /\ fst (createTask toLowerCase world title' content' priority' tags'
                  projectPath' nowId nowStamp'
                  (snd (createTask toLowerCase world title content priority tags
                                   projectPath nowId nowStamp s)))
           = Ok ("task-" ++ numberToString nowId)).
Proof.
  split; [|split; [|split]].
  - destruct (createTask_outcome toLowerCase world (initialize None now s0)
                [seedEntry now] title content priority tags projectPath
                nowId nowStamp eq_refl)
      as (row & _ & _ & _ & _ & Hst & Hpr & Hrun).
    exists row. cbn [initialize taskColumns lancedb] in Hrun.
    split; [exact Hrun|]. split; assumption.
  - reflexivity.
  - intros s t Ht Hc.
    destruct (createTask_outcome toLowerCase world s t title content priority tags
                projectPath nowId nowStamp Ht) as (row & _ & _ & _ & _ & _ & _ & Hrun).
    rewrite Hrun, Hc. split; [reflexivity | eexists; reflexivity].
  - intros s t title' content' priority' tags' projectPath' nowStamp' Ht Hc.
    destruct (createTask_outcome toLowerCase world s t title content priority tags
                projectPath nowId nowStamp Ht) as (row & _ & _ & _ & _ & _ & _ & Hrun).
    rewrite Hrun, Hc. cbn [fst snd]. split; [reflexivity|].
    destruct (createTask_outcome toLowerCase world (withTable s (t ++ [row])%list)
                (t ++ [row])%list title' content' priority' tags' projectPath'
                nowId nowStamp' eq_refl) as (row' & _ & _ & _ & _ & _ & _ & Hrun').
    rewrite Hrun'. cbn [taskColumns withTable]. rewrite Hc. reflexivity.
Qed.

(** The theorem at a store just initialized on an empty database
    directory. *)
Lemma createTask_refused_by_seed_schema_witness :
  fst (createTask latin1LowerCase offline "A" "first" medium [] None 5 5 fresh)
  = Throw (ErrorObject "column not in schema")
  /\ snd (createTask latin1LowerCase offline "A" "first" medium [] None 5 5 fresh)
     = fresh
  /\ listTasks None (Some pending) fresh = Ok [].
Proof.
  destruct (createTask_refused_by_seed_schema latin1LowerCase offline unopened 1000
              "A" "first" medium [] None 5 5)
    as ((row & Hrun & _) & Hlist & _).
  fold fresh in Hrun, Hlist. rewrite Hrun. split; [reflexivity|].
  split; [reflexivity | exact Hlist].
Defined.

End CreationClaims.

(** ** Claims on the seed record *)

Module SeedClaims.
Import JS Embeddings Store ListFacts StoreFacts Scenario Notions.

Lemma filter_skips (p : ContextEntry -> bool) (t1 t2 : Table) (e : ContextEntry) :
  p e = false -> filter p (t1 ++ e :: t2) = filter p (t1 ++ t2).
Proof.
  intros He. rewrite !filter_app. cbn [filter]. rewrite He. reflexivity.
Qed.

Lemma filter_counts (p : ContextEntry -> bool) (t1 t2 : Table) (e : ContextEntry) :
  p e = true ->
  List.length (filter p (t1 ++ e :: t2))
  = S (List.length (filter p (t1 ++ t2))).
Proof.
  intros He. rewrite !filter_app, !length_app. cbn [filter]. rewrite He.
  cbn [List.length]. lia.
Qed.

(** Every result of a search with an effective type filter has that type. *)
Lemma search_filtered_type (toLowerCase : jsstr -> jsstr) (world : World)
    (distance : Vector -> Vector -> Q) (query : string) (limit : nat)
    (ty : string) (s : ContextStore) (results : list SearchResult) :
  filtersType (Some ty) = Some ty ->
  search toLowerCase world distance query limit (Some ty) s = Ok results ->
  forall r, In r results -> result_type r = ty.
Proof.
  intros Hty Hres.
  destruct (search_Ok _ _ _ _ _ _ _ _ Hres) as (t & Ht & Hl).
  rewrite (search_run _ _ _ _ _ _ _ t Ht Hl), Hty in Hres. injection Hres as <-.
  intros r Hr. apply in_map_iff in Hr. destruct Hr as ([e d] & <- & Hin).
  apply firstn_In, filter_In in Hin. destruct Hin as [_ Heq].
  apply String.eqb_eq in Heq. exact Heq.
Qed.

(** C6, as the code has it. The seed record never shows in the output of
    [listTasks] or [listDocuments]: both answer as if the record were not in
    the table. It is a decision like any other for the rest: [getStats]
    counts it in [totalEntries] and in [decisions], [getProjectSummary]
    counts it for the project path [""] (and for no other), and [search]
    leaves it out only under a type filter other than 'decision'. *)
Theorem seed_hidden_from_listings_only (toLowerCase : jsstr -> jsstr)
    (world : World) (distance : Vector -> Vector -> Q)
    (s : ContextStore) (now : Z) (t1 t2 : Table) :
  (forall projectPath status,
     listTasks projectPath status (withTable s (t1 ++ seedEntry now :: t2))
     = listTasks projectPath status (withTable s (t1 ++ t2)))
  /\ (forall projectPath tags,
        listDocuments projectPath tags (withTable s (t1 ++ seedEntry now :: t2))
        = listDocuments projectPath tags (withTable s (t1 ++ t2)))
  /\ (exists a b,
        getStats (withTable s (t1 ++ seedEntry now :: t2)) = Ok a
        /\ getStats (withTable s (t1 ++ t2)) = Ok b
        /\ totalEntries a = S (totalEntries b)
        /\ stat_decisions a = S (stat_decisions b)
        /\ stat_conversations a = stat_conversations b
        /\ stat_codeContexts a = stat_codeContexts b
        /\ stat_tasks a = stat_tasks b
        /\ stat_documents a = stat_documents b
        /\ indexedProjects a = indexedProjects b)
  /\ (exists a b,
        getProjectSummary (Some ""%string) (withTable s (t1 ++ seedEntry now :: t2)) = Ok a
        /\ getProjectSummary (Some ""%string) (withTable s (t1 ++ t2)) = Ok b
        /\ totalDecisions a = S (totalDecisions b))
  /\ (forall projectPath,
        projectPath <> Some ""%string ->
        getProjectSummary projectPath (withTable s (t1 ++ seedEntry now :: t2))
        = getProjectSummary projectPath (withTable s (t1 ++ t2)))
  /\ (forall query limit ty results,
        filtersType (Some ty) = Some ty -> ty <> "decision"%string ->
        search toLowerCase world distance query limit (Some ty)
               (withTable s (t1 ++ seedEntry now :: t2)) = Ok results ->
        forall r, In r results -> result_type r <> typeName (type (seedEntry now))).
Proof.
  split; [|split; [|split; [|split; [|split]]]].
  - intros projectPath status. unfold listTasks. cbn [table withTable].
    rewrite (filter_skips (isType task)) by reflexivity. reflexivity.
  - intros projectPath tags. unfold listDocuments. cbn [table withTable].
    rewrite (filter_skips (isType document)) by reflexivity. reflexivity.
  - unfold getStats. cbn [table withTable].
    eexists. eexists. split; [reflexivity|]. split; [reflexivity|].
    cbn [totalEntries stat_decisions stat_conversations stat_codeContexts
         stat_tasks stat_documents indexedProjects].
    rewrite (filter_counts (isType decision)) by reflexivity.
    rewrite !(filter_skips (isType conversation)),
            !(filter_skips (isType code)), !(filter_skips (isType task)),
            !(filter_skips (isType document)) by reflexivity.
    rewrite !length_app, !flat_map_app. cbn [List.length flat_map seedEntry Store.projectPath].
    repeat split; try reflexivity. lia.
  - unfold getProjectSummary. cbn [table withTable].
    eexists. eexists. split; [reflexivity|]. split; [reflexivity|].
    cbn [totalDecisions].
    rewrite !filter_app.
    cbn [filter ofProject seedEntry Store.projectPath option_eqb String.eqb].
    change (isType decision (seedEntry now)) with true. cbv iota.
    rewrite !length_app. cbn [List.length]. lia.
  - intros projectPath Hp. unfold getProjectSummary. cbn [table withTable].
    rewrite filter_skips; [reflexivity|].
    cbn [ofProject seedEntry Store.projectPath].
    destruct projectPath as [[|c p]|]; try reflexivity.
    congruence.
  - intros query limit ty results Hty Hne Hres r Hr.
    rewrite (search_filtered_type _ _ _ _ _ _ _ _ Hty Hres r Hr). exact Hne.
Qed.

(** C6 as stated fails: on a store just initialized on an empty database,
    [getStats] counts the seed record, [getProjectSummary] counts it for the
    project path [""], and [search] returns it. *)
Lemma seed_counted_and_found :
  (exists st, getStats fresh = Ok st
              /\ totalEntries st = 1%nat /\ stat_decisions st = 1%nat)
  /\ (exists sm, getProjectSummary (Some ""%string) fresh = Ok sm
                 /\ totalDecisions sm = 1%nat)
  /\ (exists r, search latin1LowerCase offline differing "database"%string 5 None fresh
                = Ok [r]
                /\ result_id r = id (seedEntry 1000)).
Proof.
  split; [|split].
  - eexists. split; [reflexivity|]. split; reflexivity.
  - eexists. split; [reflexivity|]. reflexivity.
  - eexists. split; [vm_compute; reflexivity|]. reflexivity.
Qed.

End SeedClaims.

(** ** Claims on search *)

Module SearchClaims.
Import JS Embeddings Store ListFacts StoreFacts Scenario Notions.

Lemma string_length_append (a b : string) :
  String.length (a ++ b) = (String.length a + String.length b)%nat.
Proof. induction a as [|c a IH]; simpl; [reflexivity | rewrite IH; reflexivity]. Qed.

Lemma substring0_length (n : nat) (s : string) :
  String.length (substring0 n s) = Nat.min n (String.length s).
Proof.
  unfold substring0. revert s. induction n as [|n IH]; intros s.
  - destruct s; reflexivity.
  - destruct s as [|c s]; simpl; [reflexivity | rewrite IH; reflexivity].
Qed.

Lemma substring0_short (n : nat) (s : string) :
  (String.length s <= n)%nat -> substring0 n s = s.
Proof.
  unfold substring0. revert s. induction n as [|n IH]; intros s Hs.
  - destruct s; simpl in *; [reflexivity | lia].
  - destruct s as [|c s]; simpl in *; [reflexivity|]. rewrite IH by lia. reflexivity.
Qed.

Lemma append_empty (s : string) : (s ++ "")%string = s.
Proof. induction s as [|c s IH]; simpl; [reflexivity | rewrite IH; reflexivity]. Qed.

Lemma preview_short (c : string) :
  (String.length c <= 500)%nat -> preview c = c.
Proof.
  intros Hc. unfold preview.
  replace (500 <? String.length c)%nat with false
    by (symmetry; apply Nat.ltb_ge; exact Hc).
  rewrite append_empty. apply substring0_short, Hc.
Qed.

Lemma preview_long (c : string) :
  (500 < String.length c)%nat ->
  preview c = (substring0 500 c ++ "...")%string /\ String.length (preview c) = 503%nat.
Proof.
  intros Hc. unfold preview.
  replace (500 <? String.length c)%nat with true
    by (symmetry; apply Nat.ltb_lt; exact Hc).
  split; [reflexivity|].
  rewrite string_length_append, substring0_length.
  rewrite Nat.min_l by lia. reflexivity.
Qed.

Lemma preview_length (c : string) : (String.length (preview c) <= 503)%nat.
Proof.
  destruct (Nat.le_gt_cases (String.length c) 500) as [H | H].
  - rewrite preview_short by exact H. lia.
  - destruct (preview_long c H) as [_ ->]. lia.
Qed.

Lemma Qle_bool_total (a b : Q) : Qle_bool a b = true \/ Qle_bool b a = true.
Proof.
  rewrite !Qle_bool_iff. destruct (Qlt_le_dec a b) as [H | H];
    [left; apply Qlt_le_weak, H | right; exact H].
Qed.

Lemma Qle_bool_trans (a b c : Q) :
  Qle_bool a b = true -> Qle_bool b c = true -> Qle_bool a c = true.
Proof. rewrite !Qle_bool_iff. apply Qle_trans. Qed.

Lemma score_is_one_minus (e : ContextEntry) (d : Q) :
  (result_score (toSearchResult (e, d)) == 1 - d)%Q.
Proof.
  cbn [toSearchResult result_score].
  destruct (Qeq_bool d 0) eqn:Hd.
  - apply Qeq_bool_iff in Hd. rewrite Hd. reflexivity.
  - reflexivity.
Qed.

Lemma score_antitone (a b : ContextEntry * Q) :
  byDistance a b -> byScoreDescending (toSearchResult a) (toSearchResult b).
Proof.
  destruct a as [ea da], b as [eb db]. unfold byDistance, byScoreDescending.
  cbn [snd]. intros H. rewrite !score_is_one_minus. lra.
Qed.

Lemma StronglySorted_app_cross {A : Type} (R : A -> A -> Prop) (l1 l2 : list A) :
  StronglySorted R (l1 ++ l2) -> forall a b, In a l1 -> In b l2 -> R a b.
Proof.
  induction l1 as [|x l1 IH]; simpl; intros Hs a b Ha Hb; [contradiction|].
  inversion Hs as [|? ? Hs' Hx]; subst.
  destruct Ha as [<- | Ha].
  - rewrite Forall_forall in Hx. apply Hx, in_or_app. right. exact Hb.
  - eapply IH; eauto.
Qed.

Section WithEnvironment.

Variable toLowerCase : jsstr -> jsstr.
Variable world : World.
Variable distance : Vector -> Vector -> Q.

(** What the index returns: the nearest rows first, none farther than a row
    left out. *)
Lemma nearest_spec (queryVector : Vector) (k : nat) (t : Table) :
  exists rest,
    Permutation (withDistances distance queryVector t)
                (nearest distance queryVector k t ++ rest)
    /\ List.length (nearest distance queryVector k t) = Nat.min k (List.length t)
    /\ StronglySorted byDistance (nearest distance queryVector k t)
    /\ (forall a b, In a (nearest distance queryVector k t) -> In b rest ->
                    byDistance a b).
Proof.
  unfold nearest. fold (withDistances distance queryVector t).
  set (before := fun a b : ContextEntry * Q => Qle_bool (snd a) (snd b)).
  set (sorted := sortBy before (withDistances distance queryVector t)).
  assert (Hs : StronglySorted byDistance sorted).
  { pose proof (sortBy_sorted before
                  (fun a b => Qle_bool_total (snd a) (snd b))
                  (fun a b c => Qle_bool_trans (snd a) (snd b) (snd c))
                  (withDistances distance queryVector t)) as H.
    apply (StronglySorted_map _ byDistance (fun x => x)) in H.
    - rewrite map_id in H. exact H.
    - intros a b Hab. apply Qle_bool_iff. exact Hab. }
  exists (skipn k sorted). split; [|split; [|split]].
  - rewrite firstn_skipn. apply sortBy_Permutation.
  - rewrite length_firstn. unfold sorted, withDistances.
    rewrite sortBy_length, length_map. reflexivity.
  - apply StronglySorted_firstn, Hs.
  - apply StronglySorted_app_cross. rewrite firstn_skipn. exact Hs.
Qed.

End WithEnvironment.

Lemma filtersType_given (ty : option string) (x : string) :
  givenType ty x -> filtersType ty = Some x.
Proof.
  intros (-> & Hne & Hall). unfold filtersType.
  destruct x as [|c x]; [congruence|]. cbn [truthy andb].
  apply String.eqb_neq in Hall. rewrite Hall. reflexivity.
Qed.

Lemma filtersType_noType (ty : option string) :
  noType ty -> filtersType ty = None.
Proof. intros [-> | [-> | ->]]; reflexivity. Qed.

Lemma givenType_or_noType (ty : option string) :
  noType ty \/ exists x, givenType ty x.
Proof.
  destruct ty as [x|]; [|left; left; reflexivity].
  destruct (String.eqb_spec x ""%string) as [-> | Hne];
    [left; right; left; reflexivity|].
  destruct (String.eqb_spec x "all"%string) as [-> | Hall];
    [left; right; right; reflexivity|].
  right. exists x. repeat split; assumption.
Qed.

(** C1, as the code has it. On an initialized store and for a limit of at
    least 1, [search] fetches the [2 * limit] rows nearest to the query
    vector (nearest first, no row left out being nearer than a fetched one),
    keeps those of the given type when a type is given that is not empty
    and not 'all', truncates to [limit], and returns for each the id, type,
    title, timestamp, the score 1 - distance and a content preview: the
    content itself when it has at most 500 characters, and otherwise its
    first 500 characters followed by "...", 503 characters in all. The
    results are ordered by descending score. *)
Theorem search_ranked (toLowerCase : jsstr -> jsstr) (world : World)
    (distance : Vector -> Vector -> Q) (s : ContextStore) (t : Table)
    (query : string) (limit : nat) (ty : option string) :
  table s = Some t ->
  (0 < limit)%nat ->
  exists fetched rest results,
    fetched = nearest distance (embed toLowerCase world query) (limit * 2) t
    /\ Permutation (withDistances distance (embed toLowerCase world query) t)
                   (fetched ++ rest)
    /\ List.length fetched = Nat.min (limit * 2) (List.length t)
    /\ StronglySorted byDistance fetched
    /\ (forall a b, In a fetched -> In b rest -> byDistance a b)
    /\ search toLowerCase world distance query limit ty s = Ok results
    /\ (forall x, givenType ty x ->
          results = map toSearchResult (firstn limit (ofTypeNamed x fetched)))
    /\ (noType ty -> results = map toSearchResult (firstn limit fetched))
    /\ (List.length results <= limit)%nat
    /\ StronglySorted byScoreDescending results
    /\ (forall r, In r results ->
        exists e d,
          In (e, d) fetched /\ In e t
          /\ d = distance (embed toLowerCase world query) (vector e)
          /\ (forall x, givenType ty x -> typeName (type e) = x)
          /\ result_id r = id e
          /\ result_type r = typeName (type e)
          /\ result_title r = title e
          /\ result_timestamp r = timestamp e
          /\ (result_score r == 1 - d)%Q
          /\ ((String.length (content e) <= 500)%nat -> result_content r = content e)
          /\ ((500 < String.length (content e))%nat ->
              result_content r = (substring0 500 (content e) ++ "...")%string
              /\ String.length (result_content r) = 503%nat)
          /\ (String.length (result_content r) <= 503)%nat).
Proof.
  intros Ht Hlimit.
  destruct (nearest_spec distance (embed toLowerCase world query) (limit * 2) t)
    as (rest & Hperm & Hlen & Hsorted & Hcross).
  set (fetched := nearest distance (embed toLowerCase world query) (limit * 2) t) in *.
  set (kept := match filtersType ty with
               | Some x => ofTypeNamed x fetched
               | None => fetched
               end).
  exists fetched, rest, (map toSearchResult (firstn limit kept)).
  assert (Hks : StronglySorted byDistance kept).
  { unfold kept, ofTypeNamed. destruct (filtersType ty);
      [apply StronglySorted_filter|]; exact Hsorted. }
  repeat (split; [first [reflexivity | assumption]|]).
  split; [|split; [|split; [|split; [|split]]]].
  - rewrite (search_run _ _ _ _ _ _ _ t Ht Hlimit). reflexivity.
  - intros x Hx. unfold kept. rewrite (filtersType_given ty x Hx). reflexivity.
  - intros Hno. unfold kept. rewrite (filtersType_noType ty Hno). reflexivity.
  - rewrite length_map. apply firstn_le_length.
  - apply (StronglySorted_map byDistance); [exact score_antitone|].
    apply StronglySorted_firstn, Hks.
  - intros r Hr. apply in_map_iff in Hr. destruct Hr as ([e d] & <- & Hin).
    apply firstn_In in Hin.
    assert (Hf : In (e, d) fetched /\
                 forall x, givenType ty x -> typeName (type e) = x).
    { unfold kept in Hin.
      destruct (givenType_or_noType ty) as [Hno | (x & Hx)].
      - rewrite (filtersType_noType ty Hno) in Hin. split; [exact Hin|].
        intros x (Hty & Hne & Hall).
        destruct Hno as [Hno | [Hno | Hno]]; rewrite Hno in Hty; congruence.
      - rewrite (filtersType_given ty x Hx) in Hin.
        apply filter_In in Hin. destruct Hin as [Hin Heq].
        split; [exact Hin|]. intros x' (Hty' & _).
        destruct Hx as (Hty & _). rewrite Hty in Hty'. injection Hty' as <-.
        apply String.eqb_eq, Heq. }
    destruct Hf as [Hf Hty].
    assert (Hw : In (e, d) (withDistances distance (embed toLowerCase world query) t)).
    { eapply Permutation_in; [symmetry; exact Hperm|].
      apply in_or_app. left. exact Hf. }
    apply in_map_iff in Hw. destruct Hw as (e' & Heq & He').
    injection Heq as -> <-.
    exists e, (distance (embed toLowerCase world query) (vector e)).
    repeat (split; [first [reflexivity | assumption]|]).
    split; [apply score_is_one_minus|].
    cbn [toSearchResult result_content].
    split; [apply preview_short|]. split; [apply preview_long | apply preview_length].
Qed.

Lemma search_ranked_witness :
  exists results,
    search latin1LowerCase offline differing "notes" 1 (Some "document"%string)
           afterLongDocument = Ok results
    /\ (List.length results <= 1)%nat
    /\ StronglySorted byScoreDescending results.
Proof.
  destruct (search_ranked latin1LowerCase offline differing afterLongDocument
              (match table afterLongDocument with Some t => t | None => [] end)
              "notes" 1 (Some "document"%string))
    as (fetched & rest & results & _ & _ & _ & _ & _ & Hrun & _ & _ & Hlen
        & Hsorted & _).
  - reflexivity.
  - lia.
  - exists results. auto.
Defined.

(** C1 as stated fails: a document of 501 characters comes back with a
    preview of 503 characters, more than 500; and for the limit 0 the index
    refuses the request, so that the search throws where the claim has it
    return a list. *)
Lemma search_preview_503_and_limit_0_throws :
  (exists r,
     search latin1LowerCase offline differing "notes" 1 (Some "document"%string)
            afterLongDocument = Ok [r]
     /\ result_id r = "doc-7"%string
     /\ String.length (result_content r) = 503%nat
     /\ ~ (String.length (result_content r) <= 500)%nat)
  /\ search latin1LowerCase offline differing "notes" 0 None afterLongDocument
     = Throw (zeroLimit (lancedb afterLongDocument))
  /\ ~ exists results,
         search latin1LowerCase offline differing "notes" 0 None afterLongDocument
         = Ok results.
Proof.
  split; [|split].
  - eexists. split; [vm_compute; reflexivity|].
    split; [reflexivity|]. split; [reflexivity|].
    cbn [result_content]. intros H. vm_compute in H.
    repeat (apply le_S_n in H). inversion H.
  - reflexivity.
  - intros (results & H). discriminate.
Qed.

End SearchClaims.

(** ** Claims on the tool-call handler *)

Module ServerClaims.
Import JS Embeddings Store Server ListFacts StoreFacts Scenario Notions.
Local Open Scope string_scope.

Lemma withStore_same (st : State) : withStore st (store st) = st.
Proof. destruct st. reflexivity. Qed.

Section Handler.

Variable toLowerCase : jsstr -> jsstr.
Variable world : World.
Variable distance : Vector -> Vector -> Q.
Variable fx : Effects.

Local Abbreviation body := (callToolBody toLowerCase world distance fx).
Local Abbreviation handler := (callTool toLowerCase world distance fx).

Lemma body_result_wellFormed (name : string) (args : Args) (st st' : State)
    (r : ToolResult) :
  body name args st = (Ok r, st') -> wellFormed r.
Proof.
  unfold callToolBody.
  repeat match goal with
         | |- context [if String.eqb name ?x then _ else _] =>
             destruct (String.eqb name x)
         end;
  repeat match goal with
         | |- context [match ?x with _ => _ end] => destruct x
         end;
  intros H; inversion H; subst;
  first [ left; reflexivity | right; split; [reflexivity | eexists; reflexivity] ].
Qed.

Lemma handler_catches (name : string) (args : Args) (st st' : State) (e : Thrown) :
  body name args st = (Throw e, st') ->
  handler name args st = (failure (errorText e), st').
Proof. unfold callTool. intros ->. reflexivity. Qed.

Lemma handler_unknown_tool (name : string) (args : Args) (st : State) :
  ~ In name knownTools ->
  handler name args st = (failure ("Error: Unknown tool: " ++ name), st).
Proof.
  intros Hn. unfold callTool, callToolBody.
  repeat match goal with
         | |- context [String.eqb name ?x] =>
             destruct (String.eqb_spec name x) as [-> | ?];
             [exfalso; apply Hn; simpl; tauto|]
         end.
  reflexivity.
Qed.

Lemma handler_not_initialized (name : string) (args : Args) (st : State) :
  In name storeTools -> table (store st) = None ->
  handler name args st = (failure "Error: Store not initialized", st).
Proof.
  intros Hin Hnone. unfold storeTools in Hin. simpl in Hin.
  unfold callTool, callToolBody.
  repeat (destruct Hin as [<- | Hin];
          [ cbn [String.eqb Ascii.eqb Bool.eqb andb];
            unfold search, getProjectSummary, storeDecision, getRelatedConversations,
                   search, getStats, listTasks, createTask, updateTaskStatus,
                   deleteTask, listDocuments, storeDocument, getDocument,
                   deleteDocument, addEntry;
            rewrite Hnone; rewrite ?withStore_same; reflexivity |]).
  contradiction.
Qed.

Lemma handler_task_not_found (args : Args) (st : State) (t : Table) :
  table (store st) = Some t ->
  (forall e, In e t -> ~ (id e = taskId args /\ type e = task)) ->
  handler "update_task_status" args st
  = (failure ("Error: Task not found: " ++ taskId args), st).
Proof.
  intros Ht Hno. unfold callTool, callToolBody.
  cbn [String.eqb Ascii.eqb Bool.eqb andb]. unfold updateTaskStatus. rewrite Ht.
  replace (find (isTaskWithId (taskId args)) t) with (@None ContextEntry).
  - rewrite withStore_same. reflexivity.
  - symmetry. apply find_isTaskWithId_None. intros (e & He & Hid & Hty).
    exact (Hno e He (conj Hid Hty)).
Qed.

End Handler.

(** C7. For every tool name and argument object, in every state and
    whatever the indexer and the clock answer, the handler returns a result
    that is a success payload or an error-flagged text payload: whatever the
    [switch] throws is turned by the [catch] into the text "Error: ..."
    with [isError] set. In particular a store that is not initialized, a
    task that is not found and an unknown tool name each give such a
    result, with the state left as it was. *)
Theorem callTool_never_throws (toLowerCase : jsstr -> jsstr) (world : World)
    (distance : Vector -> Vector -> Q) (fx : Effects)
    (name : string) (args : Args) (st : State) :
  (exists result st',
     callTool toLowerCase world distance fx name args st = (result, st')
     /\ wellFormed result
     /\ (isError result = false ->
         callToolBody toLowerCase world distance fx name args st = (Ok result, st')))
  /\ (forall e st',
        callToolBody toLowerCase world distance fx name args st = (Throw e, st') ->
        callTool toLowerCase world distance fx name args st
        = (failure (errorText e), st'))
  /\ (In name storeTools -> table (store st) = None ->
      callTool toLowerCase world distance fx name args st
      = (failure "Error: Store not initialized", st))
  /\ (forall t, name = "update_task_status" -> table (store st) = Some t ->
      (forall e, In e t -> ~ (id e = taskId args /\ type e = task)) ->
      callTool toLowerCase world distance fx name args st
      = (failure ("Error: Task not found: " ++ taskId args), st))
  /\ (~ In name knownTools ->
      callTool toLowerCase world distance fx name args st
      = (failure ("Error: Unknown tool: " ++ name), st)).
Proof.
  split; [|split; [|split; [|split]]].
  - unfold callTool.
    destruct (callToolBody toLowerCase world distance fx name args st)
      as [[r | e] st'] eqn:Hbody.
    + exists r, st'. split; [reflexivity|]. split; [|reflexivity].
      eapply body_result_wellFormed, Hbody.
    + exists (failure (errorText e)), st'. split; [reflexivity|]. split.
      * right. split; [reflexivity|]. eexists. reflexivity.
      * discriminate.
  - intros e st'. apply handler_catches.
  - apply handler_not_initialized.
  - intros t ->. apply handler_task_not_found.
  - apply handler_unknown_tool.
Qed.

(** C10, as the code has it. Deleting an id without a quote character that
    no entry of an initialized store has is a silent no-op: [deleteTask] and
    [deleteDocument] return without error and leave the store as it was,
    and the handler reports the deletion as successful. *)
Theorem delete_absent_id_is_noop (toLowerCase : jsstr -> jsstr) (world : World)
    (distance : Vector -> Vector -> Q) (fx : Effects)
    (args : Args) (st : State) (t : Table) (x : string) :
  table (store st) = Some t ->
  (forall e, In e t -> id e <> x) ->
  hasQuote x = false ->
  deleteTask x (store st) = (Ok tt, store st)
  /\ deleteDocument x (store st) = (Ok tt, store st)
  /\ (taskId args = x ->
      callTool toLowerCase world distance fx "delete_task" args st
      = (success (Text ("Task " ++ x ++ " deleted successfully.")), st))
  /\ (docId args = x ->
      callTool toLowerCase world distance fx "delete_document" args st
      = (success (Text ("Document " ++ x ++ " deleted successfully.")), st)).
Proof.
  intros Ht Habsent Hq.
  assert (Hdt : deleteTask x (store st) = (Ok tt, store st)).
  { unfold deleteTask. rewrite Ht, (deleteWhere_plain _ _ _ Hq).
    rewrite deleteById_absent by exact Habsent.
    rewrite withTable_same by exact Ht. reflexivity. }
  assert (Hdd : deleteDocument x (store st) = (Ok tt, store st)).
  { unfold deleteDocument. rewrite Ht, (deleteWhere_plain _ _ _ Hq).
    rewrite deleteById_absent by exact Habsent.
    rewrite withTable_same by exact Ht. reflexivity. }
  split; [exact Hdt|]. split; [exact Hdd|]. split.
  - intros Hx. unfold callTool, callToolBody.
    cbn [String.eqb Ascii.eqb Bool.eqb andb]. rewrite Hx, Hdt, withStore_same.
    reflexivity.
  - intros Hx. unfold callTool, callToolBody.
    cbn [String.eqb Ascii.eqb Bool.eqb andb]. rewrite Hx, Hdd, withStore_same.
    reflexivity.
Qed.

Lemma delete_absent_id_is_noop_witness :
  deleteTask "task-404" fresh = (Ok tt, fresh)
  /\ callTool latin1LowerCase offline differing quiet "delete_task"
       {| query := ""; limit := None; arg_type := None; arg_projectPath := None;
          arg_title := ""; arg_content := ""; arg_tags := None; topic := "";
          force := None; arg_status := None; arg_priority := None;
          taskId := "task-404"; docId := "" |}
       {| store := fresh; isWatching := false |}
     = (success (Text "Task task-404 deleted successfully."),
        {| store := fresh; isWatching := false |}).
Proof.
  destruct (delete_absent_id_is_noop latin1LowerCase offline differing quiet
              {| query := ""; limit := None; arg_type := None;
                 arg_projectPath := None; arg_title := ""; arg_content := "";
                 arg_tags := None; topic := ""; force := None;
                 arg_status := None; arg_priority := None;
                 taskId := "task-404"; docId := "" |}
              {| store := fresh; isWatching := false |}
              (match table fresh with Some t => t | None => [] end)
              "task-404")
    as (Hdt & _ & Hcall & _).
  - reflexivity.
  - intros e [<- | []]. discriminate.
  - reflexivity.
  - split; [exact Hdt | exact (Hcall eq_refl)].
Defined.

(** C10 as stated fails for an id with a quote character. No entry of a
    store just initialized has the id [x' OR id != 'x]; the predicate made
    from it reads [id = 'x' OR id != 'x'], which holds of every row, and
    deleting the id empties the table. Nor has any entry the id [it's]; its
    predicate does not parse, the call throws and the handler reports an
    error. *)
Lemma delete_absent_id_with_quote :
  table fresh = Some [seedEntry 1000]
  /\ id (seedEntry 1000) <> "x' OR id != 'x"
  /\ id (seedEntry 1000) <> "it's"
  /\ deletePredicate "x' OR id != 'x" = "id = 'x' OR id != 'x'"
  /\ deleteTask "x' OR id != 'x" fresh = (Ok tt, withTable fresh [])
  /\ deleteDocument "x' OR id != 'x" fresh = (Ok tt, withTable fresh [])
  /\ deleteTask "x' OR id != 'x" fresh <> (Ok tt, fresh)
  /\ (exists e, deleteTask "it's" fresh = (Throw e, fresh))
  /\ isError (fst (callTool latin1LowerCase offline differing quiet "delete_document"
                     {| query := ""; limit := None; arg_type := None;
                        arg_projectPath := None; arg_title := ""; arg_content := "";
                        arg_tags := None; topic := ""; force := None;
                        arg_status := None; arg_priority := None;
                        taskId := ""; docId := "it's" |}
                     {| store := fresh; isWatching := false |}))
     = true.
Proof.
  split; [reflexivity|]. split; [discriminate|]. split; [discriminate|].
  split; [reflexivity|]. split; [reflexivity|]. split; [reflexivity|].
  split; [intros H; apply (f_equal (fun r => table (snd r))) in H; discriminate|].
  split; [eexists; reflexivity | reflexivity].
Qed.

End ServerClaims.

(** ** Further properties of the store *)

Module StoreProperties.
Import JS Embeddings Store StoreRest ListFacts StoreFacts Scenario Notions MoreNotions.

Lemma find_app_none {A : Type} (p : A -> bool) (l1 l2 : list A) :
  find p l1 = None -> find p (l1 ++ l2) = find p l2.
Proof.
  induction l1 as [|x l1 IH]; simpl; [reflexivity|].
  destruct (p x); [discriminate | exact IH].
Qed.

Lemma find_app_some {A : Type} (p : A -> bool) (l1 l2 : list A) (x : A) :
  find p l1 = Some x -> find p (l1 ++ l2) = Some x.
Proof.
  induction l1 as [|y l1 IH]; simpl; [discriminate|].
  destruct (p y); [tauto | exact IH].
Qed.

Lemma find_deleted (p : ContextEntry -> bool) (x : string) (t : Table) :
  (forall e, p e = true -> id e = x) -> find p (deleteById x t) = None.
Proof.
  intros Hp. destruct (find p (deleteById x t)) as [e|] eqn:Hf; [|reflexivity].
  apply find_some in Hf. destruct Hf as [Hin He].
  apply deleteById_In in Hin. destruct Hin as [_ Hne].
  exfalso. apply Hne, Hp, He.
Qed.

Lemma filter_twice {A : Type} (p q : A -> bool) (l : list A) :
  filter p (filter q l) = filter (fun x => q x && p x) l.
Proof.
  induction l as [|x l IH]; simpl; [reflexivity|].
  destruct (q x); simpl; [destruct (p x)|]; rewrite IH; reflexivity.
Qed.

(** [listTasks] and [listDocuments] as one filter, one sort and one map. *)
Lemma listTasks_as_filter (projectPath : option string) (status : option Status)
    (s : ContextStore) (t : Table) :
  table s = Some t ->
  listTasks projectPath status s
  = Ok (map toTaskEntry (sortBy newestFirst (filter (taskMatches projectPath status) t))).
Proof.
  intros Ht. unfold listTasks. rewrite Ht. do 3 f_equal.
  unfold taskMatches.
  destruct status as [st|]; destruct (truthy projectPath);
    rewrite ?filter_twice; apply filter_ext; intros e;
    destruct (isType task e); simpl; rewrite ?andb_true_r; reflexivity.
Qed.

Lemma listDocuments_as_filter (projectPath : option string)
    (tags : option (list string)) (s : ContextStore) (t : Table) :
  table s = Some t ->
  listDocuments projectPath tags s
  = Ok (map toDocumentEntry
            (sortBy newestFirst (filter (documentMatches projectPath tags) t))).
Proof.
  intros Ht. unfold listDocuments. rewrite Ht. do 3 f_equal.
  unfold documentMatches, sharesTag.
  destruct tags as [[|tag0 more]|]; destruct (truthy projectPath);
    rewrite ?filter_twice; apply filter_ext; intros e;
    destruct (isType document e); simpl; rewrite ?andb_true_r; reflexivity.
Qed.

Lemma getDocument_after_storeDocument (toLowerCase : jsstr -> jsstr)
    (world : World) (s : ContextStore) (t : Table) (title content : string)
    (tags : list string) (projectPath : option string) (nowId nowStamp : Z) :
  table s = Some t ->
  (forall e, In e t -> type e = document ->
             id e <> ("doc-" ++ numberToString nowId)%string) ->
  fst (storeDocument toLowerCase world title content tags projectPath nowId nowStamp s)
  = Ok ("doc-" ++ numberToString nowId)%string
  /\ getDocument ("doc-" ++ numberToString nowId)%string
       (snd (storeDocument toLowerCase world title content tags projectPath
                           nowId nowStamp s))
     = Ok (Some {| doc_id := ("doc-" ++ numberToString nowId)%string;
                   doc_title := title; doc_content := content;
                   doc_tags := tags; doc_timestamp := nowStamp;
                   doc_projectPath := projectPath |}).
Proof.
  intros Ht Hfresh. unfold storeDocument, addEntry. rewrite Ht.
  cbv zeta. cbn [fitsSchema Store.status Store.priority].
  cbn [Store.id Store.type Store.title Store.content Store.projectPath
       Store.filePath Store.tags Store.timestamp Store.status Store.priority fst snd].
  split; [reflexivity|].
  unfold getDocument. cbn [table withTable].
  set (docId := ("doc-" ++ numberToString nowId)%string).
  rewrite find_app_none.
  - cbn [find id type isType EntryType_eqb]. rewrite String.eqb_refl. reflexivity.
  - destruct (find (fun e => String.eqb (id e) docId && isType document e) t)
      as [e|] eqn:Hf; [|reflexivity].
    apply find_some in Hf. destruct Hf as [Hin He].
    apply andb_true_iff in He. destruct He as [Hid Hty].
    apply String.eqb_eq in Hid. apply isType_true in Hty.
    exfalso. exact (Hfresh e Hin Hty Hid).
Qed.

(** X1. A document stored on an initialized store is found again under the
    id that [storeDocument] returns: [getDocument] never answers null for
    it, and when no document had that id before it returns exactly the
    stored title, content, tags, timestamp and project path. *)
Theorem storeDocument_then_getDocument (toLowerCase : jsstr -> jsstr)
    (world : World) (s : ContextStore) (t : Table) (title content : string)
    (tags : list string) (projectPath : option string) (nowId nowStamp : Z) :
  table s = Some t ->
  exists s',
    storeDocument toLowerCase world title content tags projectPath nowId nowStamp s
      = (Ok ("doc-" ++ numberToString nowId)%string, s')
    /\ (exists d, getDocument ("doc-" ++ numberToString nowId)%string s' = Ok (Some d)
                  /\ doc_id d = ("doc-" ++ numberToString nowId)%string)
    /\ ((forall e, In e t -> type e = document ->
                   id e <> ("doc-" ++ numberToString nowId)%string) ->
        getDocument ("doc-" ++ numberToString nowId)%string s'
        = Ok (Some {| doc_id := ("doc-" ++ numberToString nowId)%string;
                      doc_title := title; doc_content := content;
                      doc_tags := tags; doc_timestamp := nowStamp;
                      doc_projectPath := projectPath |})).
Proof.
  intros Ht. unfold storeDocument, addEntry. rewrite Ht.
  cbv zeta. cbn [fitsSchema Store.status Store.priority].
  cbn [Store.id Store.type Store.title Store.content Store.projectPath
       Store.filePath Store.tags Store.timestamp Store.status Store.priority].
  eexists. split; [reflexivity|].
  unfold getDocument. cbn [table withTable].
  set (docId := ("doc-" ++ numberToString nowId)%string).
  fold (isDocumentWithId docId).
  set (new := {| id := docId; type := document; title := title; content := content;
                 projectPath := projectPath; filePath := None; tags := tags;
                 timestamp := nowStamp;
                 vector := embed toLowerCase world
                             (title ++ String "010"%char content)%string;
                 status := None; priority := None |}).
  assert (Hnew : isDocumentWithId docId new = true).
  { unfold isDocumentWithId. cbn [id new isType type EntryType_eqb].
    rewrite String.eqb_refl. reflexivity. }
  split.
  - destruct (find (isDocumentWithId docId) t) as [e|] eqn:Hf.
    + rewrite (find_app_some _ _ _ _ Hf). eexists. split; [reflexivity|].
      apply find_some in Hf. destruct Hf as [_ He].
      unfold isDocumentWithId in He. apply andb_true_iff in He.
      destruct He as [He _]. apply String.eqb_eq in He. exact He.
    + rewrite (find_app_none _ _ _ Hf). cbn [find]. rewrite Hnew.
      eexists. split; reflexivity.
  - intros Hfresh.
    assert (Hf : find (isDocumentWithId docId) t = None).
    { destruct (find (isDocumentWithId docId) t) as [e|] eqn:Hf; [|reflexivity].
      apply find_some in Hf. destruct Hf as [Hin He].
      unfold isDocumentWithId in He. apply andb_true_iff in He.
      destruct He as [Hid Hty]. apply String.eqb_eq in Hid.
      apply isType_true in Hty. exfalso. exact (Hfresh e Hin Hty Hid). }
    rewrite (find_app_none _ _ _ Hf). cbn [find]. rewrite Hnew. reflexivity.
Qed.

Lemma storeDocument_then_getDocument_witness :
  exists s',
    storeDocument latin1LowerCase offline "API notes" "Use POST /v1/x" ["api"%string]
                  None 7 8 fresh = (Ok "doc-7"%string, s')
    /\ getDocument "doc-7" s'
       = Ok (Some {| doc_id := "doc-7"; doc_title := "API notes";
                     doc_content := "Use POST /v1/x"; doc_tags := ["api"%string];
                     doc_timestamp := 8; doc_projectPath := None |}).
Proof.
  destruct (storeDocument_then_getDocument latin1LowerCase offline fresh
              (rowsOf fresh) "API notes" "Use POST /v1/x" ["api"%string] None 7 8)
    as (s' & Hrun & _ & Hget).
  - reflexivity.
  - exists s'. split; [exact Hrun|]. apply Hget.
    intros e [<- | []]. discriminate.
Defined.

(** X2. After [deleteDocument] or [deleteTask] of an id without a quote
    character on an initialized store no entry of any type is left under
    that id: [getDocument] answers null for it and neither [listTasks] nor
    [listDocuments] shows it. Both operations delete by id alone, so
    [deleteTask] with the id of a document removes the document. *)
Theorem delete_then_absent (s : ContextStore) (t : Table) (x : string) :
  table s = Some t ->
  hasQuote x = false ->
  deleteTask x s = deleteDocument x s
  /\ fst (deleteDocument x s) = Ok tt
  /\ getDocument x (snd (deleteDocument x s)) = Ok None
  /\ (forall projectPath status l,
        listTasks projectPath status (snd (deleteDocument x s)) = Ok l ->
        forall e, In e l -> task_id e <> x)
  /\ (forall projectPath tags l,
        listDocuments projectPath tags (snd (deleteDocument x s)) = Ok l ->
        forall e, In e l -> doc_id e <> x).
Proof.
  intros Ht Hq.
  rewrite (deleteTask_plain s t x Ht Hq), (deleteDocument_plain s t x Ht Hq).
  cbn [fst snd].
  split; [reflexivity|]. split; [reflexivity|]. split; [|split].
  - unfold getDocument. cbn [table withTable].
    rewrite find_deleted; [reflexivity|].
    intros e He. apply andb_true_iff in He. destruct He as [He _].
    apply String.eqb_eq, He.
  - intros projectPath status l.
    rewrite (listTasks_as_filter _ _ _ (deleteById x t)) by reflexivity.
    intros Hl. injection Hl as <-. intros e He.
    apply in_map_iff in He. destruct He as (r & <- & Hr).
    apply sortBy_In in Hr. apply filter_In in Hr. destruct Hr as [Hin _].
    apply deleteById_In in Hin. exact (proj2 Hin).
  - intros projectPath tags l.
    rewrite (listDocuments_as_filter _ _ _ (deleteById x t)) by reflexivity.
    intros Hl. injection Hl as <-. intros e He.
    apply in_map_iff in He. destruct He as (r & <- & Hr).
    apply sortBy_In in Hr. apply filter_In in Hr. destruct Hr as [Hin _].
    apply deleteById_In in Hin. exact (proj2 Hin).
Qed.

Lemma delete_then_absent_witness :
  getDocument "doc-7" (snd (deleteDocument "doc-7" afterLongDocument)) = Ok None
  /\ deleteTask "doc-7" afterLongDocument = deleteDocument "doc-7" afterLongDocument.
Proof.
  destruct (delete_then_absent afterLongDocument (rowsOf afterLongDocument) "doc-7")
    as (Hsame & _ & Hget & _).
  - reflexivity.
  - reflexivity.
  - split; [exact Hget | exact Hsame].
Defined.

Lemma find_deleteById_other (p : ContextEntry -> bool) (x : string) (t : Table) :
  (forall e, p e = true -> id e <> x) ->
  find p (deleteById x t) = find p t.
Proof.
  intros Hp. unfold deleteById. induction t as [|e t IH]; simpl; [reflexivity|].
  destruct (p e) eqn:He.
  - pose proof (Hp e He) as Hne. apply String.eqb_neq in Hne. rewrite Hne.
    simpl. rewrite He. reflexivity.
  - destruct (negb (String.eqb (id e) x)); simpl; rewrite ?He; exact IH.
Qed.

(** X3. Deleting an id without a quote character touches nothing else: the
    entries with another id stay, in their order, a document with another
    id is found as before, and deleting the same id once more changes
    nothing further. *)
Theorem delete_frame (s : ContextStore) (t : Table) (x : string) :
  table s = Some t ->
  hasQuote x = false ->
  exists t',
    snd (deleteTask x s) = withTable s t'
    /\ (forall e, In e t' <-> In e t /\ id e <> x)
    /\ filter (otherId x) t' = filter (otherId x) t
    /\ (List.length t' <= List.length t)%nat
    /\ (forall y, y <> x ->
          getDocument y (snd (deleteTask x s)) = getDocument y s)
    /\ snd (deleteTask x (snd (deleteTask x s))) = snd (deleteTask x s).
Proof.
  intros Ht Hq. exists (deleteById x t).
  rewrite (deleteTask_plain s t x Ht Hq). cbn [snd].
  rewrite (deleteTask_plain (withTable s (deleteById x t)) (deleteById x t) x
             eq_refl Hq). cbn [snd].
  split; [reflexivity|]. split; [apply deleteById_In|].
  split; [apply deleteById_others|]. split; [apply filter_length_le|]. split.
  - intros y Hy. unfold getDocument. cbn [table withTable]. rewrite Ht.
    rewrite find_deleteById_other; [reflexivity|].
    intros e He. apply andb_true_iff in He. destruct He as [He _].
    apply String.eqb_eq in He. congruence.
  - unfold withTable. cbn [dbPath taskColumns lancedb]. f_equal. f_equal.
    apply deleteById_absent. intros e He. apply deleteById_In in He. tauto.
Qed.

Lemma delete_frame_witness :
  exists t',
    snd (deleteTask "task-5" afterSecondTask) = withTable afterSecondTask t'
    /\ List.length t' = 1%nat.
Proof.
  destruct (delete_frame afterSecondTask (rowsOf afterSecondTask) "task-5")
    as (t' & Hrun & _).
  - reflexivity.
  - reflexivity.
  - exists t'. split; [exact Hrun|].
    assert (H : Some t' = table (snd (deleteTask "task-5" afterSecondTask)))
      by (rewrite Hrun; reflexivity).
    vm_compute in H. injection H as ->. reflexivity.
Defined.

Lemma newestFirst_total (a b : ContextEntry) :
  newestFirst a b = true \/ newestFirst b a = true.
Proof. unfold newestFirst. rewrite !Z.leb_le. lia. Qed.

Lemma newestFirst_trans (a b c : ContextEntry) :
  newestFirst a b = true -> newestFirst b c = true -> newestFirst a c = true.
Proof. unfold newestFirst. rewrite !Z.leb_le. lia. Qed.

Lemma sorted_newestFirst (l : Table) :
  StronglySorted (fun a b => timestamp b <= timestamp a) (sortBy newestFirst l).
Proof.
  pose proof (sortBy_sorted newestFirst newestFirst_total newestFirst_trans l) as H.
  apply (StronglySorted_map _ (fun a b => timestamp b <= timestamp a) (fun x => x)) in H.
  - rewrite map_id in H. exact H.
  - intros a b Hab. apply Z.leb_le. exact Hab.
Qed.

(** X4. On an initialized store [listTasks] returns exactly the task entries
    that pass its filters, each once per stored row, newest first. An empty
    project path filters nothing. *)
Theorem listTasks_sorted_complete (s : ContextStore) (t : Table)
    (projectPath : option string) (status : option Status) :
  table s = Some t ->
  exists l,
    listTasks projectPath status s = Ok l
    /\ StronglySorted newerTask l
    /\ Permutation l (map toTaskEntry (filter (taskMatches projectPath status) t))
    /\ (forall x, In x l ->
          exists e, In e t /\ x = toTaskEntry e /\ type e = task)
    /\ listTasks (Some ""%string) status s = listTasks None status s.
Proof.
  intros Ht. eexists. split; [apply listTasks_as_filter, Ht|].
  split; [|split; [|split]].
  - apply (StronglySorted_map (fun a b => timestamp b <= timestamp a));
      [intros a b H; exact H | apply sorted_newestFirst].
  - apply Permutation_map. symmetry. apply sortBy_Permutation.
  - intros x Hx. apply in_map_iff in Hx. destruct Hx as (e & <- & He).
    apply sortBy_In, filter_In in He. destruct He as [He Hm].
    exists e. split; [exact He|]. split; [reflexivity|].
    unfold taskMatches in Hm. apply andb_true_iff in Hm. destruct Hm as [Hm _].
    apply andb_true_iff in Hm. destruct Hm as [Hm _]. apply isType_true, Hm.
  - rewrite !(listTasks_as_filter _ _ s t Ht). reflexivity.
Qed.

Lemma listTasks_sorted_complete_witness :
  exists l, listTasks None (Some pending) afterSecondTask = Ok l
            /\ StronglySorted newerTask l /\ List.length l = 2%nat.
Proof.
  destruct (listTasks_sorted_complete afterSecondTask (rowsOf afterSecondTask)
              None (Some pending)) as (l & Hrun & Hsorted & Hperm & _).
  - reflexivity.
  - exists l. split; [exact Hrun|]. split; [exact Hsorted|].
    rewrite (Permutation_length Hperm). reflexivity.
Defined.

(** X5. On an initialized store [listDocuments] returns exactly the document
    entries that pass its filters (a document passes the tag filter when it
    carries at least one of the given tags), newest first. An empty tag list
    and an empty project path filter nothing. *)
Theorem listDocuments_sorted_complete (s : ContextStore) (t : Table)
    (projectPath : option string) (tags : option (list string)) :
  table s = Some t ->
  exists l,
    listDocuments projectPath tags s = Ok l
    /\ StronglySorted newerDocument l
    /\ Permutation l
         (map toDocumentEntry (filter (documentMatches projectPath tags) t))
    /\ (forall x, In x l ->
          exists e, In e t /\ x = toDocumentEntry e /\ type e = document
                    /\ (forall tag0 more, tags = Some (tag0 :: more) ->
                          exists tag, In tag (tag0 :: more) /\ In tag (Store.tags e)))
    /\ listDocuments projectPath (Some []) s = listDocuments projectPath None s
    /\ listDocuments (Some ""%string) tags s = listDocuments None tags s.
Proof.
  intros Ht. eexists. split; [apply listDocuments_as_filter, Ht|].
  split; [|split; [|split; [|split]]].
  - apply (StronglySorted_map (fun a b => timestamp b <= timestamp a));
      [intros a b H; exact H | apply sorted_newestFirst].
  - apply Permutation_map. symmetry. apply sortBy_Permutation.
  - intros x Hx. apply in_map_iff in Hx. destruct Hx as (e & <- & He).
    apply sortBy_In, filter_In in He. destruct He as [He Hm].
    exists e. split; [exact He|]. split; [reflexivity|].
    unfold documentMatches in Hm. apply andb_true_iff in Hm. destruct Hm as [Hm Htags].
    apply andb_true_iff in Hm. destruct Hm as [Hm _].
    split; [apply isType_true, Hm|].
    intros tag0 more ->. unfold sharesTag in Htags.
    apply existsb_exists in Htags. destruct Htags as (tag & Htag & Hex).
    apply existsb_exists in Hex. destruct Hex as (tag' & Htag' & Heq).
    apply String.eqb_eq in Heq. subst tag'. exists tag. tauto.
  - rewrite !(listDocuments_as_filter _ _ s t Ht). reflexivity.
  - rewrite !(listDocuments_as_filter _ _ s t Ht). reflexivity.
Qed.

Lemma listDocuments_sorted_complete_witness :
  exists l, listDocuments None (Some ["api"%string]) afterLongDocument = Ok l
            /\ StronglySorted newerDocument l /\ List.length l = 0%nat.
Proof.
  destruct (listDocuments_sorted_complete afterLongDocument (rowsOf afterLongDocument)
              None (Some ["api"%string])) as (l & Hrun & Hsorted & Hperm & _).
  - reflexivity.
  - exists l. split; [exact Hrun|]. split; [exact Hsorted|].
    rewrite (Permutation_length Hperm). reflexivity.
Defined.

Lemma count_by_type (t : Table) :
  List.length t
  = (countType conversation t + countType decision t + countType code t
     + countType task t + countType document t)%nat.
Proof.
  unfold countType, isType. induction t as [|e t IH]; simpl; [reflexivity|].
  destruct (type e); simpl; lia.
Qed.

Lemma existsb_eqb_In (x : string) (l : list string) :
  existsb (String.eqb x) l = true <-> In x l.
Proof.
  rewrite existsb_exists. split.
  - intros (y & Hy & Heq). apply String.eqb_eq in Heq. subst. exact Hy.
  - intros H. exists x. split; [exact H | apply String.eqb_refl].
Qed.

Lemma distinct_In (xs seen : list string) (x : string) :
  In x (distinct seen xs) <-> In x xs /\ ~ In x seen.
Proof.
  revert seen. induction xs as [|y xs IH]; intros seen; simpl; [tauto|].
  destruct (existsb (String.eqb y) seen) eqn:Hy.
  - apply existsb_eqb_In in Hy. rewrite IH. split.
    + tauto.
    + intros [[-> | H] Hn]; [contradiction | tauto].
  - assert (Hn : ~ In y seen).
    { intros H. apply existsb_eqb_In in H. congruence. }
    simpl. rewrite IH. simpl. split.
    + intros [<- | [H1 H2]]; [tauto|]. split; [tauto|]. intros H; apply H2; tauto.
    + intros [[<- | H] Hs]; [tauto|].
      destruct (string_dec y x) as [-> | Hne]; [tauto|].
      right. split; [exact H|]. intros [Heq | Hin]; [congruence | tauto].
Qed.

Lemma distinct_NoDup (xs seen : list string) : NoDup (distinct seen xs).
Proof.
  revert seen. induction xs as [|y xs IH]; intros seen; simpl; [constructor|].
  destruct (existsb (String.eqb y) seen); [apply IH|].
  constructor; [|apply IH].
  rewrite distinct_In. simpl. tauto.
Qed.

Lemma distinctProjects_In (t : Table) (p : string) :
  In p (distinct []
          (flat_map (fun e => match projectPath e with
                              | Some (String a q) => [String a q]
                              | _ => []
                              end) t))
  <-> p <> ""%string /\ exists e, In e t /\ projectPath e = Some p.
Proof.
  rewrite distinct_In, in_flat_map. split.
  - intros [(e & He & Hp) _]. destruct (projectPath e) as [[|a q]|] eqn:Hpp;
      simpl in Hp; try contradiction.
    destruct Hp as [<- | []]. split; [discriminate|]. exists e. tauto.
  - intros [Hne (e & He & Hp)]. split; [|tauto].
    exists e. split; [exact He|]. rewrite Hp.
    destruct p as [|a q]; [congruence | left; reflexivity].
Qed.

(** X6. [getStats] on an initialized store accounts for every entry under
    exactly one type: the five counts add up to [totalEntries]. The indexed
    projects are the non-empty project paths that occur in the store, each
    listed once, and the database path is the store's. *)
Theorem getStats_accounts (s : ContextStore) (t : Table) :
  table s = Some t ->
  exists st,
    getStats s = Ok st
    /\ totalEntries st = List.length t
    /\ totalEntries st
       = (stat_conversations st + stat_decisions st + stat_codeContexts st
          + stat_tasks st + stat_documents st)%nat
    /\ NoDup (indexedProjects st)
    /\ (forall p, In p (indexedProjects st) <->
                  p <> ""%string /\ exists e, In e t /\ projectPath e = Some p)
    /\ databasePath st = dbPath s.
Proof.
  intros Ht. unfold getStats. rewrite Ht. eexists. split; [reflexivity|].
  cbn [totalEntries stat_conversations stat_decisions stat_codeContexts stat_tasks
       stat_documents indexedProjects databasePath].
  split; [reflexivity|]. split; [apply count_by_type|].
  split; [apply distinct_NoDup|]. split; [|reflexivity].
  intros p. apply distinctProjects_In.
Qed.

Lemma getStats_accounts_witness :
  exists st, getStats afterSecondTask = Ok st
             /\ totalEntries st = 3%nat /\ stat_tasks st = 2%nat
             /\ indexedProjects st = [].
Proof.
  destruct (getStats_accounts afterSecondTask (rowsOf afterSecondTask))
    as (st & Hrun & _).
  - reflexivity.
  - exists st. split; [exact Hrun|].
    assert (H : Ok st = getStats afterSecondTask) by (rewrite Hrun; reflexivity).
    vm_compute in H. injection H as ->. repeat split.
Defined.

Lemma option_eqb_eq (a b : option string) : option_eqb a b = true <-> a = b.
Proof.
  destruct a as [x|], b as [y|]; simpl; try (split; congruence).
  rewrite String.eqb_eq. split; congruence.
Qed.

Lemma substring0_at_most (n : nat) (c : string) :
  (String.length (substring0 n c) <= n)%nat.
Proof.
  unfold substring0. revert c. induction n as [|n IH]; intros c.
  - destruct c; simpl; lia.
  - destruct c as [|a c]; simpl; [lia|]. specialize (IH c). lia.
Qed.

Lemma sorted_append_cross {A : Type} (R : A -> A -> Prop) (l1 l2 : list A) :
  StronglySorted R (l1 ++ l2) -> forall a b, In a l1 -> In b l2 -> R a b.
Proof.
  induction l1 as [|x l1 IH]; simpl; intros Hs a b Ha Hb; [contradiction|].
  inversion Hs as [|? ? Hs' Hx]; subst.
  destruct Ha as [<- | Ha].
  - rewrite Forall_forall in Hx. apply Hx, in_or_app. right. exact Hb.
  - eapply IH; eauto.
Qed.

Lemma mostRecent_firstn (n : nat) (l : Table) :
  mostRecent n l (firstn n (sortBy newestFirst l)).
Proof.
  split; [|split].
  - rewrite length_firstn, sortBy_length. reflexivity.
  - apply StronglySorted_firstn, sorted_newestFirst.
  - exists (skipn n (sortBy newestFirst l)). split.
    + rewrite firstn_skipn. apply sortBy_Permutation.
    + intros a b Ha Hb.
      apply (sorted_append_cross (fun a b => timestamp b <= timestamp a)
               (firstn n (sortBy newestFirst l)) (skipn n (sortBy newestFirst l)));
        try assumption.
      rewrite firstn_skipn. apply sorted_newestFirst.
Qed.

Lemma filter_inProject (projectPath : option string) (k : EntryType) (t : Table) :
  filter (isType k) (filter (ofProject projectPath) t)
  = filter (inProject projectPath k) t.
Proof.
  rewrite filter_twice. apply filter_ext. intros e.
  unfold ofProject, inProject, option_eqb.
  destruct projectPath as [p|]; [|reflexivity].
  destruct (Store.projectPath e) as [q|]; reflexivity.
Qed.

(** X7. [getProjectSummary] on an initialized store counts the
    conversations, the decisions and the code contexts whose project path
    is the given one, and lists the five most recent conversations and the
    five most recent decisions among them (all of them when there are
    fewer), newest first: no entry left out is newer than a listed one.
    Each listed decision carries at most 200 characters of content. For an
    absent project path nothing is counted or listed. *)
Theorem getProjectSummary_recent (s : ContextStore) (t : Table)
    (projectPath : option string) :
  table s = Some t ->
  exists sm cs ds,
    getProjectSummary projectPath s = Ok sm
    /\ mostRecent 5 (filter (inProject projectPath conversation) t) cs
    /\ mostRecent 5 (filter (inProject projectPath decision) t) ds
    /\ recentConversations sm = map (fun c => (title c, timestamp c)) cs
    /\ recentDecisions sm = map (fun d => (title d, substring0 200 (content d))) ds
    /\ Forall (fun d => (String.length (snd d) <= 200)%nat) (recentDecisions sm)
    /\ totalConversations sm
       = List.length (filter (inProject projectPath conversation) t)
    /\ totalDecisions sm = List.length (filter (inProject projectPath decision) t)
    /\ totalCodeContexts sm = List.length (filter (inProject projectPath code) t)
    /\ (totalConversations sm + totalDecisions sm + totalCodeContexts sm
        <= List.length t)%nat
    /\ (projectPath = None ->
        totalConversations sm = 0%nat /\ totalDecisions sm = 0%nat
        /\ totalCodeContexts sm = 0%nat
        /\ recentConversations sm = [] /\ recentDecisions sm = []).
Proof.
  intros Ht. unfold getProjectSummary. rewrite Ht.
  rewrite !filter_inProject.
  eexists. exists (firstn 5 (sortBy newestFirst
                               (filter (inProject projectPath conversation) t))),
                  (firstn 5 (sortBy newestFirst
                               (filter (inProject projectPath decision) t))).
  split; [reflexivity|].
  cbn [recentConversations recentDecisions totalConversations totalDecisions
       totalCodeContexts].
  split; [apply mostRecent_firstn|]. split; [apply mostRecent_firstn|].
  split; [reflexivity|]. split; [reflexivity|]. split.
  { apply Forall_forall. intros d Hd. apply in_map_iff in Hd.
    destruct Hd as (e & <- & _). cbn [snd]. apply substring0_at_most. }
  split; [reflexivity|]. split; [reflexivity|]. split; [reflexivity|]. split.
  - rewrite <- !filter_inProject.
    pose proof (count_by_type (filter (ofProject projectPath) t)) as Hcount.
    unfold countType in Hcount.
    pose proof (filter_length_le (ofProject projectPath) t) as Hle. lia.
  - intros ->.
    assert (Hnone : forall k, filter (inProject None k) t = [])
      by (intros k; apply filter_nothing; intros e _; reflexivity).
    rewrite !Hnone. repeat split.
Qed.

Lemma getProjectSummary_recent_witness :
  exists sm,
    getProjectSummary (Some ""%string) fresh = Ok sm
    /\ totalDecisions sm = 1%nat
    /\ recentDecisions sm = [("Initial entry"%string, "Database initialized"%string)].
Proof.
  destruct (getProjectSummary_recent fresh (rowsOf fresh) (Some ""%string))
    as (sm & cs & ds & Hrun & _ & _ & _ & _ & _ & _ & Htotal & _).
  - reflexivity.
  - exists sm. split; [exact Hrun|]. split; [rewrite Htotal; reflexivity|].
    assert (H : Ok sm = getProjectSummary (Some ""%string) fresh)
      by (rewrite Hrun; reflexivity).
    vm_compute in H. injection H as ->. reflexivity.
Defined.

(** The entries that the unfiltered listing shows as pending are the tasks
    stored as pending and the tasks stored without a status. *)
Lemma pending_or_statusless (t : Table) :
  List.length (filter (fun e => isType task e && listedPending (toTaskEntry e)) t)
  = (List.length (filter storedPending t) + List.length (filter statusless t))%nat.
Proof.
  induction t as [|e t IH]; simpl; [reflexivity|].
  unfold storedPending at 1, statusless at 1, listedPending at 1.
  cbn [toTaskEntry task_status].
  destruct (isType task e); simpl; [|exact IH].
  destruct (status e) as [[]|]; simpl; lia.
Qed.

(** X8. The status filter of [listTasks] compares the stored status, while
    the listing itself shows a task without a stored status as pending: the
    unfiltered listing shows as pending the tasks that the listing filtered
    by pending returns and, besides, every task stored without a status. *)
Theorem listTasks_statusless_tasks (s : ContextStore) (t : Table) :
  table s = Some t ->
  exists all pendingOnly,
    listTasks None None s = Ok all
    /\ listTasks None (Some pending) s = Ok pendingOnly
    /\ List.length (filter listedPending all)
       = (List.length pendingOnly + List.length (filter statusless t))%nat
    /\ Forall (fun x => task_status x = pending) pendingOnly.
Proof.
  intros Ht. eexists. eexists.
  split; [apply listTasks_as_filter, Ht|]. split; [apply listTasks_as_filter, Ht|].
  split.
  - rewrite filter_map_length, sortBy_count, filter_twice.
    rewrite length_map, sortBy_length.
    rewrite (filter_ext _ (fun e => isType task e && listedPending (toTaskEntry e))).
    + rewrite pending_or_statusless. f_equal. f_equal.
      apply filter_ext. intros e. unfold taskMatches, storedPending.
      cbn [truthy]. rewrite andb_true_r. reflexivity.
    + intros e. unfold taskMatches. cbn [truthy]. rewrite !andb_true_r. reflexivity.
  - apply Forall_forall. intros x Hx. apply in_map_iff in Hx.
    destruct Hx as (e & <- & He). apply sortBy_In, filter_In in He.
    destruct He as [_ Hm]. unfold taskMatches in Hm. cbn [truthy] in Hm.
    apply andb_true_iff in Hm. destruct Hm as [_ Hm].
    cbn [toTaskEntry task_status].
    destruct (status e) as [[]|]; simpl in Hm; congruence.
Qed.

Lemma listTasks_statusless_tasks_witness :
  exists all pendingOnly,
    listTasks None None
      withStatuslessTask = Ok all
    /\ listTasks None (Some pending)
         withStatuslessTask = Ok pendingOnly
    /\ List.length (filter listedPending all) = 1%nat
    /\ List.length pendingOnly = 0%nat.
Proof.
  destruct (listTasks_statusless_tasks
              withStatuslessTask
              (rowsOf withStatuslessTask))
    as (all & pendingOnly & Hall & Hpending & Hcount & _).
  - reflexivity.
  - exists all, pendingOnly. split; [exact Hall|]. split; [exact Hpending|].
    assert (H : Ok pendingOnly
                = listTasks None (Some pending)
                    withStatuslessTask)
      by (rewrite Hpending; reflexivity).
    vm_compute in H. injection H as ->.
    split; [|reflexivity]. rewrite Hcount. reflexivity.
Defined.

Section WithEnvironment.

Variable toLowerCase : jsstr -> jsstr.
Variable world : World.
Variable basename : string -> string.

Lemma addEntry_rows (entry : ContextEntry) (s : ContextStore) (t : Table) :
  table s = Some t ->
  fitsSchema s entry = true ->
  exists e,
    addEntry toLowerCase world entry s = (Ok tt, withTable s (t ++ [e]))
    /\ type e = type entry /\ id e = id entry /\ title e = title entry
    /\ content e = content entry /\ projectPath e = projectPath entry
    /\ vector e = embed toLowerCase world
                    (title entry ++ String "010"%char (content entry))%string.
Proof.
  intros Ht Hfits. unfold addEntry. rewrite Ht. cbv zeta.
  change (fitsSchema s _) with (fitsSchema s entry). rewrite Hfits.
  eexists. split; [reflexivity|]. repeat split.
Qed.

Lemma addEntry_refused (entry : ContextEntry) (s : ContextStore) (t : Table) :
  table s = Some t ->
  fitsSchema s entry = false ->
  exists e, addEntry toLowerCase world entry s = (Throw e, s).
Proof.
  intros Ht Hfits. unfold addEntry. rewrite Ht. cbv zeta.
  change (fitsSchema s _) with (fitsSchema s entry). rewrite Hfits.
  eexists. reflexivity.
Qed.

Lemma countType_app_one (k : EntryType) (t : Table) (e : ContextEntry) :
  countType k (t ++ [e])
  = (countType k t + if EntryType_eqb k (type e) then 1 else 0)%nat.
Proof.
  unfold countType. rewrite filter_app, length_app. cbn [filter].
  unfold isType at 2.
  replace (EntryType_eqb (type e) k) with (EntryType_eqb k (type e))
    by (destruct k, (type e); reflexivity).
  destruct (EntryType_eqb k (type e)); reflexivity.
Qed.

Lemma addEntry_appendsOne (entry : ContextEntry) (s : ContextStore) (t : Table) :
  table s = Some t ->
  fitsSchema s entry = true ->
  fst (addEntry toLowerCase world entry s) = Ok tt
  /\ appendsOne (type entry) t (snd (addEntry toLowerCase world entry s)).
Proof.
  intros Ht Hfits.
  destruct (addEntry_rows entry s t Ht Hfits) as (e & Hrun & Hty & _).
  rewrite Hrun. split; [reflexivity|]. exists e. cbn [snd rowsOf table withTable].
  split; [reflexivity|]. split; [exact Hty|].
  intros k. rewrite countType_app_one, Hty. reflexivity.
Qed.

(** X9. Entries are only ever added at the end: on an initialized store each
    of [storeDecision], [storeConversation], [storeCodeContext] and
    [storeDocument] succeeds, keeps the rows that were there and appends
    exactly one row of its own type, so the count of that type grows by one
    and the other counts stay. [createTask] does the same where the table
    has the columns [status] and [priority]; where it has not, as on a
    table that [initialize] created, the call throws and the store is as it
    was. *)
Theorem add_operations_append (s : ContextStore) (t : Table) :
  table s = Some t ->
  (forall title content tags nowId nowStamp,
     fst (storeDecision toLowerCase world title content tags nowId nowStamp s)
     = Ok tt
     /\ appendsOne decision t
          (snd (storeDecision toLowerCase world title content tags nowId nowStamp s)))
  /\ (forall id title content projectPath now,
        fst (storeConversation toLowerCase world id title content projectPath now s)
        = Ok tt
        /\ appendsOne conversation t
             (snd (storeConversation toLowerCase world id title content projectPath
                                     now s)))
  /\ (forall filePath content projectPath nowId nowStamp,
        fst (storeCodeContext toLowerCase world basename filePath content
                              projectPath nowId nowStamp s) = Ok tt
        /\ appendsOne code t
             (snd (storeCodeContext toLowerCase world basename filePath content
                                    projectPath nowId nowStamp s)))
  /\ (forall title content tags projectPath nowId nowStamp,
        fst (storeDocument toLowerCase world title content tags projectPath
                           nowId nowStamp s)
        = Ok ("doc-" ++ numberToString nowId)%string
        /\ appendsOne document t
             (snd (storeDocument toLowerCase world title content tags projectPath
                                 nowId nowStamp s)))
  /\ (forall title content priority tags projectPath nowId nowStamp,
        (taskColumns s = true ->
         fst (createTask toLowerCase world title content priority tags projectPath
                         nowId nowStamp s)
         = Ok ("task-" ++ numberToString nowId)%string
         /\ appendsOne task t
              (snd (createTask toLowerCase world title content priority tags
                               projectPath nowId nowStamp s)))
        /\ (taskColumns s = false ->
            snd (createTask toLowerCase world title content priority tags
                            projectPath nowId nowStamp s) = s
            /\ exists e,
                 fst (createTask toLowerCase world title content priority tags
                                 projectPath nowId nowStamp s) = Throw e)).
Proof.
  intros Ht. split; [|split; [|split; [|split]]]; intros.
  - unfold storeDecision.
    match goal with |- context [addEntry _ _ ?e s] =>
      exact (addEntry_appendsOne e s t Ht eq_refl) end.
  - unfold storeConversation.
    match goal with |- context [addEntry _ _ ?e s] =>
      exact (addEntry_appendsOne e s t Ht eq_refl) end.
  - unfold storeCodeContext.
    match goal with |- context [addEntry _ _ ?e s] =>
      exact (addEntry_appendsOne e s t Ht eq_refl) end.
  - unfold storeDocument.
    match goal with |- context [addEntry _ _ ?e s] =>
      pose proof (addEntry_appendsOne e s t Ht eq_refl) as [H1 H2];
      destruct (addEntry toLowerCase world e s) as [[[]|err] s'] end;
      [split; [reflexivity | exact H2] | discriminate].
  - split; intros Hc; unfold createTask.
    + match goal with |- context [addEntry _ _ ?e s] =>
        pose proof (addEntry_appendsOne e s t Ht Hc) as [H1 H2];
        destruct (addEntry toLowerCase world e s) as [[[]|err] s'] end;
        [split; [reflexivity | exact H2] | discriminate].
    + match goal with |- context [addEntry _ _ ?e s] =>
        destruct (addEntry_refused e s t Ht Hc) as (err & ->) end.
      split; [reflexivity | eexists; reflexivity].
Qed.

Lemma embed_offline_length (text : string) :
  offlineWorld world ->
  List.length (embed toLowerCase world text) = Z.to_nat EMBEDDING_DIM.
Proof.
  intros Hoff. unfold embed, generateEmbedding. rewrite Hoff.
  apply EmbeddingFacts.generateSimpleEmbedding_length.
Qed.

Lemma addEntry_wellDimensioned (entry : ContextEntry) (s : ContextStore) (t : Table) :
  offlineWorld world -> table s = Some t -> wellDimensioned t ->
  wellDimensioned (rowsOf (snd (addEntry toLowerCase world entry s))).
Proof.
  intros Hoff Ht Hd. destruct (fitsSchema s entry) eqn:Hfits.
  - destruct (addEntry_rows entry s t Ht Hfits) as (e & Hrun & Hrest).
    rewrite Hrun. cbn [snd rowsOf table withTable]. unfold wellDimensioned.
    apply Forall_app. split; [exact Hd|]. constructor; [|constructor].
    destruct Hrest as (_ & _ & _ & _ & _ & ->). apply embed_offline_length, Hoff.
  - destruct (addEntry_refused entry s t Ht Hfits) as (err & ->).
    cbn [snd]. unfold rowsOf. rewrite Ht. exact Hd.
Qed.

(** X10. Without a remote credential every stored vector has the dimension
    1536 of the index: the seed record of a new table has it, and every
    operation of the store keeps it: the five add operations,
    [updateTaskStatus], [deleteTask] and [deleteDocument]. *)
Theorem vectors_keep_dimension (s : ContextStore) (t : Table) :
  offlineWorld world -> table s = Some t -> wellDimensioned t ->
  (forall now s0, wellDimensioned (rowsOf (initialize None now s0)))
  /\ (forall title content tags nowId nowStamp,
        wellDimensioned (rowsOf (snd (storeDecision toLowerCase world title content
                                        tags nowId nowStamp s))))
  /\ (forall id title content projectPath now,
        wellDimensioned (rowsOf (snd (storeConversation toLowerCase world id title
                                        content projectPath now s))))
  /\ (forall filePath content projectPath nowId nowStamp,
        wellDimensioned (rowsOf (snd (storeCodeContext toLowerCase world basename
                                        filePath content projectPath nowId nowStamp s))))
  /\ (forall title content priority tags projectPath nowId nowStamp,
        wellDimensioned (rowsOf (snd (createTask toLowerCase world title content
                                        priority tags projectPath nowId nowStamp s))))
  /\ (forall title content tags projectPath nowId nowStamp,
        wellDimensioned (rowsOf (snd (storeDocument toLowerCase world title content
                                        tags projectPath nowId nowStamp s))))
  /\ (forall taskId status now,
        wellDimensioned (rowsOf (snd (updateTaskStatus taskId status now s))))
  /\ (forall x, wellDimensioned (rowsOf (snd (deleteTask x s))))
  /\ (forall x, wellDimensioned (rowsOf (snd (deleteDocument x s)))).
Proof.
  intros Hoff Ht Hd.
  assert (Hdel : forall x rest,
            deleteWhere (lancedb s) x t = Ok rest -> wellDimensioned rest).
  { intros x rest Hrest. destruct (deleteWhere_keeps _ _ _ _ Hrest) as (p & ->).
    unfold wellDimensioned in *. rewrite Forall_forall in *.
    intros e He. apply filter_In in He. apply Hd, He. }
  assert (Hsame : wellDimensioned (rowsOf s)) by (unfold rowsOf; rewrite Ht; exact Hd).
  split; [|split; [|split; [|split; [|split; [|split; [|split; [|split]]]]]]]; intros.
  - cbn. constructor; [|constructor]. cbn [vector seedEntry].
    apply repeat_length.
  - unfold storeDecision.
    match goal with |- context [addEntry _ _ ?e s] =>
      exact (addEntry_wellDimensioned e s t Hoff Ht Hd) end.
  - unfold storeConversation.
    match goal with |- context [addEntry _ _ ?e s] =>
      exact (addEntry_wellDimensioned e s t Hoff Ht Hd) end.
  - unfold storeCodeContext.
    match goal with |- context [addEntry _ _ ?e s] =>
      exact (addEntry_wellDimensioned e s t Hoff Ht Hd) end.
  - unfold createTask.
    match goal with |- context [addEntry _ _ ?e s] =>
      pose proof (addEntry_wellDimensioned e s t Hoff Ht Hd) as H;
      destruct (addEntry toLowerCase world e s) as [[[]|err] s'] end; exact H.
  - unfold storeDocument.
    match goal with |- context [addEntry _ _ ?e s] =>
      pose proof (addEntry_wellDimensioned e s t Hoff Ht Hd) as H;
      destruct (addEntry toLowerCase world e s) as [[[]|err] s'] end; exact H.
  - unfold updateTaskStatus. rewrite Ht.
    destruct (find (isTaskWithId taskId) t) as [found|]; [|exact Hsame].
    destruct (deleteWhere (lancedb s) taskId t) as [rest|] eqn:Hrest;
      [|exact Hsame].
    cbn [snd rowsOf table withTable]. exact (Hdel _ _ Hrest).
  - unfold deleteTask. rewrite Ht.
    destruct (deleteWhere (lancedb s) x t) as [rest|] eqn:Hrest; [|exact Hsame].
    cbn [snd rowsOf table withTable]. exact (Hdel _ _ Hrest).
  - unfold deleteDocument. rewrite Ht.
    destruct (deleteWhere (lancedb s) x t) as [rest|] eqn:Hrest; [|exact Hsame].
    cbn [snd rowsOf table withTable]. exact (Hdel _ _ Hrest).
Qed.

End WithEnvironment.

Lemma add_operations_append_witness :
  appendsOne document (rowsOf fresh)
    (snd (storeDocument latin1LowerCase offline "notes" "text" [] None 7 7 fresh))
  /\ snd (createTask latin1LowerCase offline "A" "first" medium [] None 5 5 fresh)
     = fresh
  /\ appendsOne task (rowsOf withTaskColumns)
       (snd (createTask latin1LowerCase offline "A" "first" medium [] None 5 5
                        withTaskColumns)).
Proof.
  destruct (add_operations_append latin1LowerCase offline (fun p => p) fresh
              (rowsOf fresh) eq_refl) as (_ & _ & _ & Hdoc & Htask).
  destruct (add_operations_append latin1LowerCase offline (fun p => p)
              withTaskColumns (rowsOf withTaskColumns) eq_refl)
    as (_ & _ & _ & _ & Htask').
  split; [apply Hdoc|]. split.
  - apply (Htask "A"%string "first"%string medium [] None 5 5). reflexivity.
  - apply (Htask' "A"%string "first"%string medium [] None 5 5). reflexivity.
Defined.

Lemma vectors_keep_dimension_witness :
  wellDimensioned
    (rowsOf (snd (createTask latin1LowerCase offline "A" "first" medium [] None 5 5
                             withTaskColumns))).
Proof.
  apply (vectors_keep_dimension latin1LowerCase offline (fun p => p) withTaskColumns
           (rowsOf withTaskColumns)).
  - reflexivity.
  - reflexivity.
  - constructor; [reflexivity | constructor].
Defined.

(** X11. Before [initialize] every operation of the store throws 'Store not
    initialized', and the operations that write leave the store as it was. *)
Theorem uninitialized_store_throws (toLowerCase : jsstr -> jsstr) (world : World)
    (distance : Vector -> Vector -> Q) (basename : string -> string)
    (s : ContextStore) :
  table s = None ->
  (forall query limit ty,
     search toLowerCase world distance query limit ty s = Throw notInitialized)
  /\ (forall topic limit,
        getRelatedConversations toLowerCase world distance topic limit s
        = Throw notInitialized)
  /\ (forall p, getProjectSummary p s = Throw notInitialized)
  /\ (forall p, hasProject p s = Throw notInitialized)
  /\ getStats s = Throw notInitialized
  /\ (forall p st, listTasks p st s = Throw notInitialized)
  /\ (forall p tags, listDocuments p tags s = Throw notInitialized)
  /\ (forall x, getDocument x s = Throw notInitialized)
  /\ (forall title content tags nowId nowStamp,
        storeDecision toLowerCase world title content tags nowId nowStamp s
        = (Throw notInitialized, s))
  /\ (forall id title content p now,
        storeConversation toLowerCase world id title content p now s
        = (Throw notInitialized, s))
  /\ (forall filePath content p nowId nowStamp,
        storeCodeContext toLowerCase world basename filePath content p nowId nowStamp s
        = (Throw notInitialized, s))
  /\ (forall title content priority tags p nowId nowStamp,
        createTask toLowerCase world title content priority tags p nowId nowStamp s
        = (Throw notInitialized, s))
  /\ (forall title content tags p nowId nowStamp,
        storeDocument toLowerCase world title content tags p nowId nowStamp s
        = (Throw notInitialized, s))
  /\ (forall x st now, updateTaskStatus x st now s = (Throw notInitialized, s))
  /\ (forall x, deleteTask x s = (Throw notInitialized, s))
  /\ (forall x, deleteDocument x s = (Throw notInitialized, s)).
Proof.
  intros Hnone.
  unfold getRelatedConversations, search, getProjectSummary, hasProject, getStats,
    listTasks, listDocuments, getDocument, storeDecision, storeConversation,
    storeCodeContext, createTask, storeDocument, updateTaskStatus, deleteTask,
    deleteDocument, addEntry.
  rewrite Hnone. repeat split.
Qed.

Lemma uninitialized_store_throws_witness :
  getStats unopened = Throw notInitialized
  /\ deleteTask "task-5" unopened = (Throw notInitialized, unopened).
Proof.
  destruct (uninitialized_store_throws latin1LowerCase offline differing
              (fun p => p) unopened)
    as (_ & _ & _ & _ & Hstats & _ & _ & _ & _ & _ & _ & _ & _ & _ & Hdel & _).
  - reflexivity.
  - split; [exact Hstats | apply Hdel].
Defined.



(** X14. The type filter of [search] is off for no type, for the empty type
    and for 'all': on an initialized store and for a limit of at least 1,
    each of the three returns the first [limit] of the [2 * limit] nearest
    rows, whatever their types. A search never returns more results than
    its limit or than there are rows. For the limit 0 the search throws the
    error of the index. *)
Theorem search_filter_off_and_bounds (toLowerCase : jsstr -> jsstr) (world : World)
    (distance : Vector -> Vector -> Q) (query : string) (limit : nat)
    (s : ContextStore) (t : Table) :
  table s = Some t ->
  ((0 < limit)%nat ->
   forall ty, noType ty ->
     search toLowerCase world distance query limit ty s
     = Ok (map toSearchResult
             (firstn limit (nearest distance (embed toLowerCase world query)
                                    (limit * 2) t))))
  /\ (forall ty results,
        search toLowerCase world distance query limit ty s = Ok results ->
        (List.length results <= limit)%nat
        /\ (List.length results <= List.length t)%nat)
  /\ (forall ty,
        search toLowerCase world distance query 0 ty s
        = Throw (zeroLimit (lancedb s))).
Proof.
  intros Ht. split; [|split].
  - intros Hl ty Hno. rewrite (search_run _ _ _ _ _ _ _ t Ht Hl).
    destruct Hno as [-> | [-> | ->]]; reflexivity.
  - intros ty results Hres.
    destruct (search_Ok _ _ _ _ _ _ _ _ Hres) as (t' & Ht' & Hl).
    rewrite (search_run _ _ _ _ _ _ _ t Ht Hl) in Hres. injection Hres as <-.
    rewrite length_map. split; [apply firstn_le_length|].
    rewrite length_firstn.
    assert (Hn : (List.length (nearest distance (embed toLowerCase world query)
                                       (limit * 2) t) <= List.length t)%nat).
    { unfold nearest. rewrite length_firstn, sortBy_length, length_map. lia. }
    destruct (filtersType ty).
    + pose proof (filter_length_le
                    (fun r : ContextEntry * Q =>
                       String.eqb (typeName (type (fst r))) s0)
                    (nearest distance (embed toLowerCase world query) (limit * 2) t)).
      lia.
    + lia.
  - intros ty. unfold search. rewrite Ht. reflexivity.
Qed.

Lemma search_filter_off_and_bounds_witness :
  search latin1LowerCase offline differing "notes" 1 (Some "all"%string)
         afterLongDocument
  = search latin1LowerCase offline differing "notes" 1 None afterLongDocument
  /\ search latin1LowerCase offline differing "notes" 0 None afterLongDocument
     = Throw (ErrorObject "limit must be positive").
Proof.
  destruct (search_filter_off_and_bounds latin1LowerCase offline differing "notes" 1
              afterLongDocument (rowsOf afterLongDocument) eq_refl)
    as (Hoff & _ & Hzero).
  split; [|exact (Hzero None)].
  rewrite (Hoff (Nat.lt_0_succ 0) (Some "all"%string)) by (right; right; reflexivity).
  rewrite (Hoff (Nat.lt_0_succ 0) None) by (left; reflexivity).
  reflexivity.
Defined.

(** X15. [getRelatedConversations] only ever returns conversations, at most
    [limit] of them. *)
Theorem getRelatedConversations_only_conversations (toLowerCase : jsstr -> jsstr)
    (world : World) (distance : Vector -> Vector -> Q) (topic : string)
    (limit : nat) (s : ContextStore) (results : list SearchResult) :
  getRelatedConversations toLowerCase world distance topic limit s = Ok results ->
  (List.length results <= limit)%nat
  /\ forall r, In r results -> result_type r = "conversation"%string.
Proof.
  unfold getRelatedConversations. intros Hres. split.
  - destruct (search_Ok _ _ _ _ _ _ _ _ Hres) as (t & Ht & Hl).
    rewrite (search_run _ _ _ _ _ _ _ t Ht Hl) in Hres.
    injection Hres as <-. rewrite length_map. apply firstn_le_length.
  - exact (SeedClaims.search_filtered_type toLowerCase world distance topic limit
             "conversation"%string s results eq_refl Hres).
Qed.

Lemma getRelatedConversations_only_conversations_witness :
  exists results,
    getRelatedConversations latin1LowerCase offline differing "hello" 3
      (snd (storeConversation latin1LowerCase offline "c1" "hello" "text"
                              "/work/app" 30 fresh))
    = Ok results
    /\ (List.length results <= 3)%nat
    /\ Forall (fun r => result_type r = "conversation"%string) results.
Proof.
  destruct (getRelatedConversations latin1LowerCase offline differing "hello" 3
              (snd (storeConversation latin1LowerCase offline "c1" "hello" "text"
                                      "/work/app" 30 fresh)))
    as [results | err] eqn:Hrun.
  - exists results. split; [reflexivity|].
    destruct (getRelatedConversations_only_conversations _ _ _ _ _ _ _ Hrun)
      as [Hlen Hall].
    split; [exact Hlen | apply Forall_forall, Hall].
  - vm_compute in Hrun. discriminate.
Defined.

(** X16. On an initialized store [hasProject] answers true exactly when some
    entry carries the project path; for a non-empty path that is exactly
    when [getStats] lists the path among the indexed projects, and it holds
    after a conversation has been stored for the path. *)
Theorem hasProject_iff (toLowerCase : jsstr -> jsstr) (world : World)
    (s : ContextStore) (t : Table) (projectPath : string) :
  table s = Some t ->
  exists b,
    hasProject projectPath s = Ok b
    /\ (b = true <-> exists e, In e t /\ Store.projectPath e = Some projectPath)
    /\ (projectPath <> ""%string ->
        exists st, getStats s = Ok st
                   /\ (b = true <-> In projectPath (indexedProjects st)))
    /\ (forall id title content now,
          hasProject projectPath
            (snd (storeConversation toLowerCase world id title content projectPath
                                    now s))
          = Ok true).
Proof.
  intros Ht. unfold hasProject. rewrite Ht. eexists. split; [reflexivity|].
  assert (Hiff : existsb (fun e => option_eqb (Store.projectPath e) (Some projectPath)) t
                 = true
                 <-> exists e, In e t /\ Store.projectPath e = Some projectPath).
  { rewrite existsb_exists. split; intros (e & He & Hp); exists e;
      (split; [exact He | apply option_eqb_eq, Hp]). }
  split; [exact Hiff|]. split.
  - intros Hne. unfold getStats. rewrite Ht. eexists. split; [reflexivity|].
    cbn [indexedProjects]. rewrite Hiff, distinctProjects_In. tauto.
  - intros id title content now. unfold storeConversation, addEntry. rewrite Ht.
    cbv zeta. cbn [fitsSchema Store.status Store.priority].
    cbn [snd table withTable]. f_equal. rewrite existsb_app. cbn [existsb].
    cbn [Store.projectPath option_eqb]. rewrite String.eqb_refl.
    rewrite orb_true_r. reflexivity.
Qed.

Lemma hasProject_iff_witness :
  hasProject "/work/app"
    (snd (storeConversation latin1LowerCase offline "c1" "hello" "text" "/work/app"
                            30 fresh))
  = Ok true.
Proof.
  destruct (hasProject_iff latin1LowerCase offline fresh (rowsOf fresh) "/work/app")
    as (b & _ & _ & _ & Hafter).
  - reflexivity.
  - apply Hafter.
Defined.

End StoreProperties.

(** ** Further properties of the embedding provider *)

Module EmbeddingProperties.
Import JS Hash Embeddings Summary Store JSFacts HashFacts MoreNotions.

(** X17. With a credential configured, [generateEmbedding] returns what the
    remote service returns when the request succeeds and the fallback
    embedding when it throws or is not ok. The service is given the first
    8000 code units only, so two texts that agree on them get the same
    embedding whenever the request succeeds. *)
Theorem generateEmbedding_remote (toLowerCase : jsstr -> jsstr) (w : World)
    (text : jsstr) :
  truthy (OPENAI_API_KEY w) = true ->
  (forall e, fetchEmbeddings w (firstn (Z.to_nat 8000) text) = FetchOk e ->
             generateEmbedding toLowerCase w text = e)
  /\ (fetchEmbeddings w (firstn (Z.to_nat 8000) text) = FetchThrows
      \/ fetchEmbeddings w (firstn (Z.to_nat 8000) text) = FetchNotOk ->
      generateEmbedding toLowerCase w text = generateSimpleEmbedding toLowerCase text)
  /\ (forall text' e,
        firstn (Z.to_nat 8000) text' = firstn (Z.to_nat 8000) text ->
        fetchEmbeddings w (firstn (Z.to_nat 8000) text) = FetchOk e ->
        generateEmbedding toLowerCase w text' = generateEmbedding toLowerCase w text)
  /\ ((List.length text <= Z.to_nat 8000)%nat ->
      firstn (Z.to_nat 8000) text = text).
Proof.
  intros Hkey. unfold generateEmbedding. rewrite Hkey.
  split; [|split; [|split]].
  - intros e ->. reflexivity.
  - intros [-> | ->]; reflexivity.
  - intros text' e Hsame Hok. rewrite Hsame, Hok. reflexivity.
  - apply firstn_all2.
Qed.

Lemma generateEmbedding_remote_witness :
  generateEmbedding latin1LowerCase
    {| OPENAI_API_KEY := Some "sk-test"%string;
       fetchEmbeddings := fun _ => FetchThrows |}
    (codeUnits "hello world")
  = generateSimpleEmbedding latin1LowerCase (codeUnits "hello world").
Proof.
  apply (generateEmbedding_remote latin1LowerCase
           {| OPENAI_API_KEY := Some "sk-test"%string;
              fetchEmbeddings := fun _ => FetchThrows |}
           (codeUnits "hello world")).
  - reflexivity.
  - left. reflexivity.
Defined.

Lemma substring0_nested (n m : nat) (c : string) :
  (n <= m)%nat -> substring0 n (substring0 m c) = substring0 n c.
Proof.
  unfold substring0. revert m c. induction n as [|n IH]; intros m c Hnm.
  - destruct (String.substring 0 m c), c; reflexivity.
  - destruct m as [|m]; [lia|]. destruct c as [|a c]; simpl; [reflexivity|].
    rewrite IH by lia. reflexivity.
Qed.

Lemma substring0_length_min (n : nat) (c : string) :
  String.length (substring0 n c) = Nat.min n (String.length c).
Proof.
  unfold substring0. revert c. induction n as [|n IH]; intros c.
  - destruct c; reflexivity.
  - destruct c as [|a c]; simpl; [reflexivity | rewrite IH; reflexivity].
Qed.

Lemma substring0_whole (n : nat) (c : string) :
  (String.length c <= n)%nat -> substring0 n c = c.
Proof.
  unfold substring0. revert c. induction n as [|n IH]; intros c Hc.
  - destruct c; simpl in *; [reflexivity | lia].
  - destruct c as [|a c]; simpl in *; [reflexivity|]. rewrite IH by lia. reflexivity.
Qed.

(** X18. [generateSummary] depends on the first 4000 characters of its
    input only: two texts that agree on them get the same summary. When the
    remote call fails or answers without a text block the summary is the
    first 500 characters of the input: at most 500 characters, and the
    whole input when it is that short. *)
Theorem generateSummary_prefix (createMessage : string -> SummaryOutcome)
    (text text' : string) :
  substring0 4000 text' = substring0 4000 text ->
  generateSummary createMessage text' = generateSummary createMessage text
  /\ (forall t, createMessage (summaryPrompt ++ substring0 4000 text)%string
                = SummaryText t ->
                generateSummary createMessage text = t)
  /\ (createMessage (summaryPrompt ++ substring0 4000 text)%string = SummaryThrows
      \/ createMessage (summaryPrompt ++ substring0 4000 text)%string = SummaryNotText ->
      generateSummary createMessage text = substring0 500 text
      /\ (String.length (generateSummary createMessage text) <= 500)%nat
      /\ ((String.length text <= 500)%nat ->
          generateSummary createMessage text = text)).
Proof.
  intros Hsame. unfold generateSummary. rewrite Hsame.
  split; [|split].
  - rewrite <- (substring0_nested 500 4000 text'), <- (substring0_nested 500 4000 text),
      Hsame by lia. reflexivity.
  - intros t ->. reflexivity.
  - intros Hfail.
    assert (Hs : match createMessage (summaryPrompt ++ substring0 4000 text)%string with
                 | SummaryText t => t
                 | _ => substring0 500 text
                 end = substring0 500 text)
      by (destruct Hfail as [-> | ->]; reflexivity).
    rewrite Hs. split; [reflexivity|]. split.
    + rewrite substring0_length_min. lia.
    + apply substring0_whole.
Qed.

Lemma generateSummary_prefix_witness :
  generateSummary (fun _ => SummaryThrows) "short transcript" = "short transcript"%string.
Proof.
  refine (proj2 (proj2 (proj2 (proj2 (generateSummary_prefix (fun _ => SummaryThrows)
            "short transcript" "short transcript" _)) _)) _).
  - reflexivity.
  - left. reflexivity.
  - vm_compute. repeat constructor.
Defined.

Lemma splitLoop_pieces (Q : Z -> Prop) (s cur : jsstr) (inSeparator : bool) :
  Forall Q cur ->
  Forall (fun c => isWhiteSpace c = false -> Q c) s ->
  Forall (Forall Q) (splitLoop s cur inSeparator).
Proof.
  revert cur inSeparator. induction s as [|c rest IH]; intros cur inSep Hcur Hs.
  - constructor; [|constructor]. apply Forall_rev, Hcur.
  - inversion Hs as [|? ? Hc Hrest]; subst. simpl.
    destruct (isWhiteSpace c) eqn:Hw.
    + destruct inSep.
      * apply IH; assumption.
      * constructor; [apply Forall_rev, Hcur|]. apply IH; [constructor | assumption].
    + apply IH; [constructor; auto | assumption].
Qed.

Lemma isWordChar_ascii (c : Z) : isWordChar c = true -> 48 <= c <= 122.
Proof. unfold isWordChar. lia. Qed.

(** X19. Every word that the fallback embedding hashes is longer than two
    characters and consists of word characters only (letters, digits and the
    underscore, all of them ASCII), whatever the text and the lower-casing
    are: no white space and no punctuation reaches the hash. *)
Theorem words_are_word_characters (toLowerCase : jsstr -> jsstr) (text : jsstr) :
  Forall (fun w => (2 < List.length w)%nat
                   /\ Forall (fun c => isWordChar c = true) w
                   /\ Forall (fun c => isWhiteSpace c = false) w
                   /\ Forall (fun c => 48 <= c <= 122) w)
         (words toLowerCase text).
Proof.
  apply Forall_forall. intros w Hw. unfold words in Hw.
  apply filter_In in Hw. destruct Hw as [Hw Hlen].
  assert (Hchars : Forall (fun c => isWordChar c = true) w).
  { assert (H : Forall (Forall (fun c => isWordChar c = true))
                   (splitLoop (replaceNonWordNonSpace (toLowerCase text)) [] false)).
    { apply splitLoop_pieces; [constructor|].
      apply Forall_forall. intros c Hc Hws.
      apply filter_In in Hc. destruct Hc as [_ Hc]. rewrite Hws, orb_false_r in Hc.
      exact Hc. }
    rewrite Forall_forall in H. apply H, Hw. }
  split; [apply Z.ltb_lt in Hlen; lia|]. split; [exact Hchars|]. split.
  - eapply Forall_impl; [|exact Hchars]. intros c Hc.
    unfold isWordChar in Hc. unfold isWhiteSpace. lia.
  - eapply Forall_impl; [|exact Hchars]. exact isWordChar_ascii.
Qed.

Lemma hexDigits_grows (fuel : nat) (n : Z) (acc : string) :
  (String.length acc <= String.length (hexDigits fuel n acc))%nat.
Proof.
  revert n acc. induction fuel as [|fuel IH]; intros n acc; simpl; [lia|].
  destruct (n / 16 =? 0); [simpl; lia|].
  specialize (IH (n / 16) (String (hexDigit (n mod 16)) acc)). simpl in IH. lia.
Qed.

Lemma hexDigits_length (fuel : nat) (n : Z) (acc : string) (k : nat) :
  0 <= n < 16 ^ Z.of_nat k -> (1 <= k)%nat ->
  (String.length (hexDigits fuel n acc) <= String.length acc + k)%nat.
Proof.
  revert n acc k. induction fuel as [|fuel IH]; intros n acc k Hn Hk; simpl; [lia|].
  destruct (Z.eqb_spec (n / 16) 0) as [Hz | Hz]; [simpl; lia|].
  destruct k as [|k]; [lia|].
  assert (Hq : 0 <= n / 16 < 16 ^ Z.of_nat k).
  { rewrite Nat2Z.inj_succ, Z.pow_succ_r in Hn by lia.
    split; [apply Z.div_pos; lia | apply Z.div_lt_upper_bound; lia]. }
  assert (Hk1 : (1 <= k)%nat).
  { destruct k; [|lia]. simpl in Hq. lia. }
  specialize (IH (n / 16) (String (hexDigit (n mod 16)) acc) k Hq Hk1).
  simpl in IH. lia.
Qed.

(** X20. The directory name that [hashProjectPath] computes has between one
    and eight hexadecimal digits, whatever the path is; the empty path is
    named "0". *)
Theorem hashProjectPath_length (projectPath : jsstr) :
  (1 <= String.length (hashProjectPath projectPath) <= 8)%nat
  /\ hashProjectPath [] = "0"%string.
Proof.
  split; [|reflexivity]. unfold hashProjectPath, toString16.
  pose proof (hashLoop_int32 projectPath 0 ltac:(lia)) as Hr.
  split.
  - cbn [hexDigits]. destruct (_ / 16 =? 0); [simpl; lia|].
    match goal with |- (_ <= String.length (hexDigits ?f ?n ?a))%nat =>
      pose proof (hexDigits_grows f n a) as H end.
    simpl in H. lia.
  - match goal with |- (String.length (hexDigits ?f ?n ?a) <= _)%nat =>
      pose proof (hexDigits_length f n a 8) as H end.
    simpl String.length in H. apply H; [|lia].
    change (16 ^ Z.of_nat 8) with 4294967296. lia.
Qed.

End EmbeddingProperties.

(** ** Further properties of the tool-call handler *)

Module ServerProperties.
Import JS Embeddings Store Server ListFacts StoreFacts Scenario Notions MoreNotions.
Local Open Scope string_scope.

(** Case analysis on the innermost scrutinee of the goal. *)
Ltac destruct_scrutinee :=
  match goal with
  | |- context [match ?x with _ => _ end] =>
      lazymatch x with
      | context [match _ with _ => _ end] => fail
      | _ => destruct x
      end
  end.

Section Handler.

Variable toLowerCase : jsstr -> jsstr.
Variable world : World.
Variable distance : Vector -> Vector -> Q.

(** X21. Through the handler, a document stored with store_document is
    returned by get_document under the id of the success message, with the
    title, content, tags and project path of the call (when no document had
    that id before); get_document for an id that no document has answers
    with the error-flagged text 'Document not found' and changes nothing. *)
Theorem store_document_then_get_document (fx fx' : Effects) (args args' : Args)
    (st : State) (t : Table) :
  table (store st) = Some t ->
  (forall e, In e t -> type e = document ->
             id e <> "doc-" ++ numberToString (now1 fx)) ->
  exists st',
    callTool toLowerCase world distance fx "store_document" args st
    = (success (Text ("Document stored successfully with ID: "
                      ++ "doc-" ++ numberToString (now1 fx))), st')
    /\ (docId args' = "doc-" ++ numberToString (now1 fx) ->
        callTool toLowerCase world distance fx' "get_document" args' st'
        = (success (JsonDocument
                      {| doc_id := "doc-" ++ numberToString (now1 fx);
                         doc_title := arg_title args;
                         doc_content := arg_content args;
                         doc_tags := orElse (arg_tags args) [];
                         doc_timestamp := now2 fx;
                         doc_projectPath := arg_projectPath args |}), st'))
    /\ ((forall e, In e t -> type e = document -> id e <> docId args') ->
        callTool toLowerCase world distance fx' "get_document" args' st
        = (failure ("Document not found: " ++ docId args'), st)).
Proof.
  intros Ht Hfresh.
  destruct (StoreProperties.getDocument_after_storeDocument toLowerCase world
              (store st) t (arg_title args) (arg_content args)
              (orElse (arg_tags args) []) (arg_projectPath args)
              (now1 fx) (now2 fx) Ht Hfresh) as [Hid Hget].
  unfold callTool, callToolBody. cbn [String.eqb Ascii.eqb Bool.eqb andb].
  destruct (storeDocument toLowerCase world (arg_title args) (arg_content args)
              (orElse (arg_tags args) []) (arg_projectPath args)
              (now1 fx) (now2 fx) (store st)) as [r s'] eqn:Hrun.
  cbn [fst snd] in Hid, Hget. subst r.
  eexists. split; [reflexivity|]. split.
  - intros ->. cbn [store withStore]. rewrite Hget. reflexivity.
  - intros Hnone. unfold getDocument. rewrite Ht.
    replace (find (fun e => String.eqb (id e) (docId args') && isType document e) t)
      with (@None ContextEntry); [reflexivity|].
    symmetry.
    destruct (find (fun e => String.eqb (id e) (docId args') && isType document e) t)
      as [e|] eqn:Hf; [|reflexivity].
    apply find_some in Hf. destruct Hf as [Hin He].
    apply andb_true_iff in He. destruct He as [He1 He2].
    apply String.eqb_eq in He1. apply isType_true in He2.
    exfalso. exact (Hnone e Hin He2 He1).
Qed.

(** X22. The handler changes the state only in the eight tools that write or
    index: every other tool name, known or not, leaves the store and the
    watching flag as they were. No tool ever clears the watching flag, and
    the flag is raised only by a start_watching call that succeeds. *)
Theorem handler_state_changes (fx : Effects) (name : string) (args : Args)
    (st : State) :
  (~ In name writingTools ->
   snd (callTool toLowerCase world distance fx name args st) = st)
  /\ (isWatching st = true ->
      isWatching (snd (callTool toLowerCase world distance fx name args st)) = true)
  /\ (isWatching st = false ->
      isWatching (snd (callTool toLowerCase world distance fx name args st)) = true ->
      name = "start_watching"
      /\ isError (fst (callTool toLowerCase world distance fx name args st)) = false).
Proof.
  split; [|split].
  - intros Hn. unfold callTool, callToolBody.
    repeat match goal with
           | |- context [String.eqb name ?x] =>
               destruct (String.eqb_spec name x) as [-> | ?];
               [ cbn [String.eqb Ascii.eqb Bool.eqb andb];
                 first [ exfalso; apply Hn; simpl; tauto
                       | repeat destruct_scrutinee; reflexivity ] |]
           end.
    reflexivity.
  - intros Hw. unfold callTool, callToolBody, withStore. rewrite ?Hw.
    repeat match goal with
           | |- context [String.eqb name ?x] =>
               destruct (String.eqb_spec name x) as [-> | ?];
               [ cbn [String.eqb Ascii.eqb Bool.eqb andb];
                 repeat destruct_scrutinee; cbn;
                 solve [reflexivity | assumption | congruence] |]
           end.
    exact Hw.
  - intros Hw. unfold callTool, callToolBody, withStore. rewrite ?Hw.
    repeat match goal with
           | |- context [String.eqb name ?x] =>
               destruct (String.eqb_spec name x) as [-> | ?];
               [ cbn [String.eqb Ascii.eqb Bool.eqb andb];
                 repeat destruct_scrutinee; cbn; intros H;
                 solve [congruence | split; reflexivity] |]
           end.
    cbn. congruence.
Qed.



End Handler.


Lemma store_document_then_get_document_witness :
  exists st',
    callTool latin1LowerCase offline differing quiet "store_document"
      {| query := ""; limit := None; arg_type := None; arg_projectPath := None;
         arg_title := "API notes"; arg_content := "Use POST /v1/x";
         arg_tags := Some ["api"]; topic := ""; force := None;
         arg_status := None; arg_priority := None; taskId := ""; docId := "" |}
      {| store := fresh; isWatching := false |}
    = (success (Text "Document stored successfully with ID: doc-20"), st')
    /\ callTool latin1LowerCase offline differing quiet "get_document"
         {| query := ""; limit := None; arg_type := None; arg_projectPath := None;
            arg_title := ""; arg_content := ""; arg_tags := None; topic := "";
            force := None; arg_status := None; arg_priority := None;
            taskId := ""; docId := "doc-20" |} st'
       = (success (JsonDocument
                     {| doc_id := "doc-20"; doc_title := "API notes";
                        doc_content := "Use POST /v1/x"; doc_tags := ["api"];
                        doc_timestamp := 20; doc_projectPath := None |}), st').
Proof.
  destruct (store_document_then_get_document latin1LowerCase offline differing
              quiet quiet
              {| query := ""; limit := None; arg_type := None;
                 arg_projectPath := None; arg_title := "API notes";
                 arg_content := "Use POST /v1/x"; arg_tags := Some ["api"];
                 topic := ""; force := None; arg_status := None;
                 arg_priority := None; taskId := ""; docId := "" |}
              {| query := ""; limit := None; arg_type := None;
                 arg_projectPath := None; arg_title := ""; arg_content := "";
                 arg_tags := None; topic := ""; force := None; arg_status := None;
                 arg_priority := None; taskId := ""; docId := "doc-20" |}
              {| store := fresh; isWatching := false |} (rowsOf fresh))
    as (st' & Hstore & Hget & _).
  - reflexivity.
  - intros e [<- | []]. discriminate.
  - exists st'. split; [exact Hstore | exact (Hget eq_refl)].
Defined.

Lemma handler_state_changes_witness :
  snd (callTool latin1LowerCase offline differing quiet "list_tasks" noArgs
                {| store := fresh; isWatching := true |})
  = {| store := fresh; isWatching := true |}.
Proof.
  apply (handler_state_changes latin1LowerCase offline differing quiet "list_tasks"
           noArgs {| store := fresh; isWatching := true |}).
  intros H. vm_compute in H. intuition discriminate.
Defined.


End ServerProperties.

(** ** Properties of the conversation indexer *)

Module IndexerProperties.
Import JS Hash Embeddings Store Summary Indexer Scenario Notions MoreNotions.
Import IndexerScenario.
Local Open Scope string_scope.

Section WithEnvironment.

Variable toLowerCase : jsstr -> jsstr.
Variable world : World.
Variable createMessage : string -> SummaryOutcome.
Variable fs : FileSystem.
Variable clock : nat -> Z.
Variable projectsDir : string.

Lemma indexFile_unreadable (filePath projectPath : string) (st : IndexerState)
    (e : Thrown) :
  readConversation fs filePath = Throw e ->
  indexConversationFile toLowerCase world createMessage fs clock filePath projectPath
      st = (Throw e, st).
Proof. intros H. unfold indexConversationFile. rewrite H. reflexivity. Qed.

Lemma indexFile_unopened (filePath projectPath : string) (st : IndexerState)
    (c : ClaudeConversation) :
  readConversation fs filePath = Ok c -> table (store st) = None ->
  indexConversationFile toLowerCase world createMessage fs clock filePath projectPath st
  = (Throw notInitialized,
     {| store := store st; indexedFiles := indexedFiles st;
        ticks := S (ticks st) |}).
Proof.
  intros H Ht. unfold indexConversationFile, storeConversation, addEntry.
  rewrite H, Ht. reflexivity.
Qed.

Lemma indexFile_stores (filePath projectPath : string) (st : IndexerState)
    (c : ClaudeConversation) (t : Table) :
  readConversation fs filePath = Ok c -> table (store st) = Some t ->
  exists e,
    indexConversationFile toLowerCase world createMessage fs clock filePath projectPath
        st
    = (Ok tt, {| store := withTable (store st) (t ++ [e])%list;
                 indexedFiles := indexedFiles st; ticks := S (ticks st) |})
    /\ id e = idOf c filePath /\ timestamp e = clock (ticks st)
    /\ isConversationOf projectPath e.
Proof.
  intros H Ht. unfold indexConversationFile, storeConversation, addEntry.
  rewrite H, Ht. cbv zeta. cbn [fitsSchema Store.status Store.priority].
  eexists. split; [reflexivity|].
  cbn [id timestamp]. split; [reflexivity|]. split; [reflexivity|].
  unfold isConversationOf. cbn [type Store.projectPath title].
  split; [reflexivity|]. split; [reflexivity|].
  unfold titleOf. destruct (find isUser (messages c)).
  - apply StoreProperties.substring0_at_most.
  - cbn. lia.
Qed.


Lemma indexed_addIndexed_same (f : string) (files : list string) :
  indexed f (addIndexed f files) = true.
Proof.
  unfold addIndexed. destruct (indexed f files) eqn:H; [exact H|].
  unfold indexed. rewrite existsb_app. cbn. rewrite String.eqb_refl.
  rewrite orb_true_r. reflexivity.
Qed.

Lemma indexed_addIndexed_other (g f : string) (files : list string) :
  g <> f -> indexed g (addIndexed f files) = indexed g files.
Proof.
  intros Hne. unfold addIndexed. destruct (indexed f files); [reflexivity|].
  unfold indexed. rewrite existsb_app. cbn.
  apply String.eqb_neq in Hne. rewrite Hne. rewrite !orb_false_r. reflexivity.
Qed.

Lemma indexed_addIndexed_mono (g f : string) (files : list string) :
  indexed g files = true -> indexed g (addIndexed f files) = true.
Proof.
  intros H. destruct (String.eqb_spec g f) as [-> | Hne].
  - apply indexed_addIndexed_same.
  - rewrite indexed_addIndexed_other by exact Hne. exact H.
Qed.

Lemma sameIndex_refl (st : IndexerState) : sameIndex st st.
Proof. split; reflexivity. Qed.

Lemma sameIndex_trans (a b c : IndexerState) :
  sameIndex a b -> sameIndex b c -> sameIndex a c.
Proof. intros [H1 H2] [H3 H4]. split; congruence. Qed.

(** What one turn of the loop does. *)
Lemma stepFile_spec (dir projectPath : string) (force : bool)
    (st : IndexerState) (file : string) :
  (sameIndex st (indexOneFile toLowerCase world createMessage fs clock dir projectPath
      force st file)
   /\ (toIndex fs dir force (indexedFiles st) file = false
       \/ table (store st) = None))
  \/ exists t e,
       table (store st) = Some t
       /\ toIndex fs dir force (indexedFiles st) file = true
       /\ indexOneFile toLowerCase world createMessage fs clock dir projectPath force
           st file
          = {| store := withTable (store st) (t ++ [e])%list;
               indexedFiles := addIndexed (joinPath dir file) (indexedFiles st);
               ticks := S (ticks st) |}
       /\ isConversationOf projectPath e.
Proof.
  unfold indexOneFile, toIndex, readable.
  destruct (negb force && indexed (joinPath dir file) (indexedFiles st)) eqn:Hskip.
  - left. split; [apply sameIndex_refl|]. left.
    apply andb_true_iff in Hskip. destruct Hskip as [Hf Hi].
    apply negb_true_iff in Hf. rewrite Hf, Hi. cbn. apply andb_false_r.
  - assert (Hgo : force || negb (indexed (joinPath dir file) (indexedFiles st)) = true).
    { destruct force; [reflexivity|]. cbn in Hskip. rewrite Hskip. reflexivity. }
    rewrite Hgo.
    destruct (readConversation fs (joinPath dir file)) as [c | e] eqn:Hread.
    + destruct (table (store st)) as [t|] eqn:Ht.
      * right. destruct (indexFile_stores (joinPath dir file) projectPath st c t
                           Hread Ht) as (e & Hrun & _ & _ & Hconv).
        exists t, e. rewrite Hrun. cbn. repeat split; try reflexivity; apply Hconv.
      * left. rewrite (indexFile_unopened _ projectPath st c Hread Ht).
        split; [split; reflexivity | right; reflexivity].
    + left. rewrite (indexFile_unreadable _ projectPath st e Hread).
      split; [apply sameIndex_refl | left; reflexivity].
Qed.


Lemma appendsConversations_refl (projectPath : string) (st : IndexerState) :
  appendsConversations projectPath st st.
Proof. exists []. rewrite app_nil_r. split; [reflexivity | constructor]. Qed.

Lemma appendsConversations_trans (projectPath : string) (a b c : IndexerState) :
  appendsConversations projectPath a b -> appendsConversations projectPath b c ->
  appendsConversations projectPath a c.
Proof.
  intros (x & Hx & Fx) (y & Hy & Fy). exists (x ++ y)%list.
  rewrite Hy, Hx, app_assoc. split; [reflexivity|].
  apply Forall_app. split; assumption.
Qed.

Lemma sameIndex_appends (projectPath : string) (a b : IndexerState) :
  sameIndex a b -> appendsConversations projectPath a b.
Proof.
  intros [Hs _]. exists []. rewrite Hs, app_nil_r. split; [reflexivity | constructor].
Qed.

Lemma stepFile_appends (dir projectPath : string) (force : bool)
    (st : IndexerState) (file : string) :
  appendsConversations projectPath st (indexOneFile toLowerCase world createMessage fs
      clock dir projectPath force st file).
Proof.
  destruct (stepFile_spec dir projectPath force st file)
    as [[Hsame _] | (t & e & Ht & _ & Hrun & Hconv)].
  - apply sameIndex_appends, Hsame.
  - rewrite Hrun. exists [e]. unfold rowsOf. cbn [store table withTable].
    rewrite Ht. split; [reflexivity|]. constructor; [exact Hconv | constructor].
Qed.

Lemma loop_appends (dir projectPath : string) (force : bool)
    (files : list string) (st : IndexerState) :
  appendsConversations projectPath st
    (fold_left (indexOneFile toLowerCase world createMessage fs clock dir projectPath
        force) files st).
Proof.
  revert st. induction files as [|f files IH]; intros st; cbn [fold_left].
  - apply appendsConversations_refl.
  - eapply appendsConversations_trans; [apply stepFile_appends | apply IH].
Qed.

Lemma indexConversations_appends (projectDir projectPath : string) (force : bool)
    (st : IndexerState) :
  appendsConversations projectPath st
    (snd (indexProjectConversations toLowerCase world createMessage fs clock projectDir
        projectPath force st)).
Proof.
  unfold indexProjectConversations.
  destruct (negb (access fs (joinPath projectDir "conversations")));
    [apply appendsConversations_refl|].
  destruct (readdir fs (joinPath projectDir "conversations"));
    [apply loop_appends | apply appendsConversations_refl].
Qed.

(** Whether listing the conversations fails depends on the file system
    alone. *)
Lemma indexConversations_result (projectDir projectPath : string)
    (force force' : bool) (st st' : IndexerState) :
  fst (indexProjectConversations toLowerCase world createMessage fs clock projectDir
      projectPath force st)
  = fst (indexProjectConversations toLowerCase world createMessage fs clock projectDir
      projectPath force' st').
Proof.
  unfold indexProjectConversations.
  destruct (negb (access fs (joinPath projectDir "conversations")));
    [reflexivity|].
  destruct (readdir fs (joinPath projectDir "conversations")); reflexivity.
Qed.

Lemma indexConversations_throws (projectDir projectPath : string)
    (force : bool) (st : IndexerState) (e : Thrown) :
  fst (indexProjectConversations toLowerCase world createMessage fs clock projectDir
      projectPath force st) = Throw e ->
  snd (indexProjectConversations toLowerCase world createMessage fs clock projectDir
      projectPath force st) = st
  /\ readdir fs (joinPath projectDir "conversations") = Throw e.
Proof.
  unfold indexProjectConversations.
  destruct (negb (access fs (joinPath projectDir "conversations")));
    [discriminate|].
  destruct (readdir fs (joinPath projectDir "conversations")) as [files | e'];
    cbn [fst snd]; [discriminate|].
  intros H. injection H as ->. split; reflexivity.
Qed.

(** The loop over the project directories stops at the first directory that
    matches and whose conversations can be listed; which one that is depends
    on the file system alone. *)
Lemma searchDirs_found (projects : list string) (projectPath : string)
    (force : bool) (st st1 : IndexerState) :
  searchProjects toLowerCase world createMessage fs clock projectsDir projects
      projectPath force st = Some st1 ->
  exists projectDir,
    st1 = snd (indexProjectConversations toLowerCase world createMessage fs clock
        projectDir projectPath force st)
    /\ forall force' st',
         searchProjects toLowerCase world createMessage fs clock projectsDir projects
             projectPath force' st'
         = Some (snd (indexProjectConversations toLowerCase world createMessage fs
             clock projectDir projectPath force' st')).
Proof.
  induction projects as [|h projects IH]; cbn [searchProjects]; [discriminate|].
  destruct (readSettings fs (joinPath (joinPath projectsDir h) "settings.json"))
    as [settings | e].
  2:{ intros H. destruct (IH H) as (d & H1 & H2). exists d. split; [exact H1|].
      intros force' st'. cbn [searchProjects]. apply H2. }
  destruct (option_eqb settings (Some projectPath) || includes projectPath h).
  2:{ intros H. destruct (IH H) as (d & H1 & H2). exists d. split; [exact H1|].
      intros force' st'. apply H2. }
  destruct (indexProjectConversations toLowerCase world createMessage fs clock
      (joinPath projectsDir h) projectPath force st)
    as [r st2] eqn:Hrun.
  destruct r as [u | e].
  - intros H. injection H as <-. exists (joinPath projectsDir h).
    rewrite Hrun. split; [reflexivity|]. intros force' st'.
    pose proof (indexConversations_result (joinPath projectsDir h) projectPath
                  force force' st st') as Hres.
    rewrite Hrun in Hres. cbn [fst] in Hres.
    destruct (indexProjectConversations toLowerCase world createMessage fs clock
        (joinPath projectsDir h) projectPath force' st')
      as [r' st3]. cbn [fst snd] in *. subst r'. reflexivity.
  - intros H. destruct (IH H) as (d & H1 & H2). exists d. split; [exact H1|].
    intros force' st'.
    pose proof (indexConversations_result (joinPath projectsDir h) projectPath
                  force force' st st') as Hres.
    rewrite Hrun in Hres. cbn [fst] in Hres.
    destruct (indexProjectConversations toLowerCase world createMessage fs clock
        (joinPath projectsDir h) projectPath force' st')
      as [r' st3]. cbn [fst snd] in *. subst r'. apply H2.
Qed.

Lemma searchDirs_none (projects : list string) (projectPath : string)
    (force force' : bool) (st st' : IndexerState) :
  searchProjects toLowerCase world createMessage fs clock projectsDir projects
      projectPath force st = None ->
  searchProjects toLowerCase world createMessage fs clock projectsDir projects
      projectPath force' st' = None.
Proof.
  intros H. destruct (searchProjects toLowerCase world createMessage fs clock
      projectsDir projects projectPath force' st') as [st1|] eqn:H';
    [|reflexivity].
  destruct (searchDirs_found _ _ _ _ _ H') as (d & _ & Hall).
  rewrite (Hall force st) in H. discriminate.
Qed.

Lemma searchDirs_appends (projects : list string) (projectPath : string)
    (force : bool) (st st1 : IndexerState) :
  searchProjects toLowerCase world createMessage fs clock projectsDir projects
      projectPath force st = Some st1 ->
  appendsConversations projectPath st st1.
Proof.
  intros H. destruct (searchDirs_found _ _ _ _ _ H) as (d & -> & _).
  apply indexConversations_appends.
Qed.

Lemma settled_sameIndex (dir : string) (a b : IndexerState) (file : string) :
  sameIndex a b -> settled fs dir b file = settled fs dir a file.
Proof. intros [Hs Hi]. unfold settled. rewrite Hs, Hi. reflexivity. Qed.

Lemma stepFile_settles (dir projectPath : string) (force : bool)
    (st : IndexerState) (file : string) :
  settled fs dir (indexOneFile toLowerCase world createMessage fs clock dir projectPath
      force st file) file = true.
Proof.
  destruct (stepFile_spec dir projectPath force st file)
    as [[Hsame Hwhy] | (t & e & Ht & _ & Hrun & _)].
  - rewrite (settled_sameIndex dir st _ file Hsame). unfold settled.
    destruct Hwhy as [Hno | Ht]; [|rewrite Ht; apply orb_true_r].
    unfold toIndex in Hno.
    destruct (readable fs (joinPath dir file));
      [|cbn; rewrite orb_true_r; reflexivity].
    destruct (indexed (joinPath dir file) (indexedFiles st)); [reflexivity|].
    destruct force; discriminate.
  - rewrite Hrun. unfold settled. cbn [indexedFiles].
    rewrite indexed_addIndexed_same. reflexivity.
Qed.

Lemma stepFile_keeps_settled (dir projectPath : string) (force : bool)
    (st : IndexerState) (file other : string) :
  settled fs dir st other = true ->
  settled fs dir (indexOneFile toLowerCase world createMessage fs clock dir projectPath
      force st file) other = true.
Proof.
  intros H.
  destruct (stepFile_spec dir projectPath force st file)
    as [[Hsame _] | (t & e & Ht & _ & Hrun & _)].
  - rewrite (settled_sameIndex dir st _ other Hsame). exact H.
  - rewrite Hrun. unfold settled in *. cbn [indexedFiles store table withTable].
    rewrite Ht in H. rewrite orb_false_r in *.
    apply orb_true_iff in H. destruct H as [H | H].
    + rewrite (indexed_addIndexed_mono _ _ _ H). reflexivity.
    + rewrite H. apply orb_true_r.
Qed.

Lemma loop_keeps_settled (dir projectPath : string) (force : bool)
    (files : list string) (st : IndexerState) (other : string) :
  settled fs dir st other = true ->
  settled fs dir (fold_left (indexOneFile toLowerCase world createMessage fs clock dir
      projectPath force) files st) other = true.
Proof.
  revert st. induction files as [|f files IH]; intros st H; cbn [fold_left];
    [exact H|].
  apply IH, stepFile_keeps_settled, H.
Qed.

Lemma loop_settles (dir projectPath : string) (force : bool)
    (files : list string) (st : IndexerState) (file : string) :
  In file files ->
  settled fs dir (fold_left (indexOneFile toLowerCase world createMessage fs clock dir
      projectPath force) files st) file = true.
Proof.
  revert st. induction files as [|f files IH]; intros st Hin; [destruct Hin|].
  cbn [fold_left]. destruct Hin as [-> | Hin].
  - apply loop_keeps_settled, stepFile_settles.
  - apply IH, Hin.
Qed.

Lemma settled_step_same (dir projectPath : string) (st : IndexerState)
    (file : string) :
  settled fs dir st file = true ->
  sameIndex st (indexOneFile toLowerCase world createMessage fs clock dir projectPath
      false st file).
Proof.
  intros H.
  destruct (stepFile_spec dir projectPath false st file)
    as [[Hsame _] | (t & e & Ht & Hgo & _)]; [exact Hsame|].
  exfalso. unfold settled in H. unfold toIndex in Hgo. rewrite Ht in H.
  apply andb_true_iff in Hgo. destruct Hgo as [Hr Hi]. rewrite Hr in H.
  cbn in Hi. apply negb_true_iff in Hi. rewrite Hi in H. discriminate.
Qed.

Lemma settled_loop_same (dir projectPath : string) (files : list string)
    (st : IndexerState) :
  (forall file, In file files -> settled fs dir st file = true) ->
  sameIndex st (fold_left (indexOneFile toLowerCase world createMessage fs clock dir
      projectPath false) files st).
Proof.
  revert st. induction files as [|f files IH]; intros st H; cbn [fold_left];
    [apply sameIndex_refl|].
  assert (Hstep : sameIndex st (indexOneFile toLowerCase world createMessage fs clock
      dir projectPath false st f))
    by (apply settled_step_same, H; left; reflexivity).
  eapply sameIndex_trans; [exact Hstep|]. apply IH. intros g Hg.
  rewrite (settled_sameIndex dir st _ g Hstep). apply H. right. exact Hg.
Qed.

Lemma indexConversations_again (projectDir projectPath : string) (force : bool)
    (st : IndexerState) :
  sameIndex (snd (indexProjectConversations toLowerCase world createMessage fs clock
      projectDir projectPath force st))
    (snd (indexProjectConversations toLowerCase world createMessage fs clock projectDir
        projectPath false
            (snd (indexProjectConversations toLowerCase world createMessage fs clock
                projectDir projectPath force st)))).
Proof.
  unfold indexProjectConversations.
  destruct (negb (access fs (joinPath projectDir "conversations")));
    [apply sameIndex_refl|].
  destruct (readdir fs (joinPath projectDir "conversations")) as [files | e];
    cbn [snd]; [|apply sameIndex_refl].
  apply settled_loop_same. intros g Hg. apply loop_settles, Hg.
Qed.

(** X24. Indexing a project again without [force] adds nothing: after any run
    of [indexProject] (forced or not), a second run without [force] on the
    same file system leaves the store and the set of indexed files as the
    first run left them, and has the same outcome as the first. *)
Theorem indexProject_again_adds_nothing (projectPath : string) (force : bool)
    (st : IndexerState) :
  let st1 := snd (indexProject toLowerCase world createMessage fs clock projectsDir
      projectPath force st) in
  sameIndex st1 (snd (indexProject toLowerCase world createMessage fs clock projectsDir
      projectPath false st1))
  /\ fst (indexProject toLowerCase world createMessage fs clock projectsDir projectPath
      false st1) = fst (indexProject toLowerCase world createMessage fs clock
      projectsDir projectPath force st).
Proof.
  unfold indexProject.
  destruct (readdir fs projectsDir) as [projects | e]; cbn [snd fst].
  2:{ split; [apply sameIndex_refl | reflexivity]. }
  destruct (searchProjects toLowerCase world createMessage fs clock projectsDir
      projects projectPath force st) as [st1|] eqn:Hs.
  - destruct (searchDirs_found _ _ _ _ _ Hs) as (d & -> & Hall). cbn [snd fst].
    rewrite Hall. cbn [snd fst]. split; [apply indexConversations_again | reflexivity].
  - rewrite (searchDirs_none projects projectPath force false st
               (snd (if access fs (joinPath projectsDir
                                     (hashProjectPath (codeUnits projectPath)))
                     then indexProjectConversations toLowerCase world createMessage fs
                         clock
                            (joinPath projectsDir
                               (hashProjectPath (codeUnits projectPath)))
                            projectPath force st
                     else (Ok tt, st))) Hs).
    destruct (access fs _); cbn [snd fst];
      [|split; [apply sameIndex_refl | reflexivity]].
    split; [apply indexConversations_again | apply indexConversations_result].
Qed.


Lemma joinPath_injective (dir a b : string) :
  joinPath dir a = joinPath dir b -> a = b.
Proof.
  unfold joinPath. induction dir as [|c dir IH]; cbn; intros H.
  - injection H as H. exact H.
  - injection H as H. exact (IH H).
Qed.

Lemma toIndex_after_other (dir : string) (force : bool) (files : list string)
    (file other : string) :
  other <> file ->
  toIndex fs dir force (addIndexed (joinPath dir file) files) other
  = toIndex fs dir force files other.
Proof.
  intros Hne. unfold toIndex. rewrite indexed_addIndexed_other; [reflexivity|].
  intros H. apply Hne, (joinPath_injective dir), H.
Qed.

Lemma loop_count (dir projectPath : string) (force : bool) (files : list string) :
  NoDup files ->
  forall (st : IndexerState) (t : Table),
    table (store st) = Some t ->
    List.length (rowsOf (store (fold_left (indexOneFile toLowerCase world createMessage
        fs clock dir projectPath force) files st)))
    = (List.length t
       + List.length (filter (toIndex fs dir force (indexedFiles st)) files))%nat.
Proof.
  induction 1 as [|f files Hnotin Hnodup IH]; intros st t Ht; cbn [fold_left filter].
  - unfold rowsOf. rewrite Ht. cbn. lia.
  - destruct (stepFile_spec dir projectPath force st f)
      as [[[Hs Hi] Hwhy] | (t' & e & Ht' & Hgo & Hrun & _)].
    + destruct Hwhy as [Hno | Hnone]; [|congruence].
      rewrite Hno. rewrite (IH _ t) by (rewrite Hs; exact Ht).
      rewrite Hi. reflexivity.
    + rewrite Hgo, Hrun.
      rewrite (IH _ (t' ++ [e])%list) by reflexivity.
      cbn [indexedFiles]. assert (t' = t) by congruence. subst t'.
      rewrite length_app. cbn [List.length].
      rewrite (filter_ext_in (toIndex fs dir force
                                (addIndexed (joinPath dir f) (indexedFiles st)))
                             (toIndex fs dir force (indexedFiles st))).
      * lia.
      * intros g Hg. apply toIndex_after_other. intros ->. exact (Hnotin Hg).
Qed.

Lemma loop_stays_open (dir projectPath : string) (force : bool)
    (files : list string) (st : IndexerState) (t : Table) :
  table (store st) = Some t ->
  exists t', table (store (fold_left (indexOneFile toLowerCase world createMessage fs
      clock dir projectPath force) files st))
             = Some t'.
Proof.
  revert st t. induction files as [|f files IH]; intros st t Ht; cbn [fold_left].
  - exists t. exact Ht.
  - destruct (stepFile_spec dir projectPath force st f)
      as [[[Hs _] _] | (t' & e & _ & _ & Hrun & _)].
    + apply (IH _ t). rewrite Hs. exact Ht.
    + rewrite Hrun. eapply IH. reflexivity.
Qed.

(** X26. [indexProjectConversations] on an open store, for a conversations
    directory that lists without repetition: the store gains one row for each
    listed '.json' file that can be read and, unless [force] is set, is not
    among the indexed files yet; with [force] the files already indexed are
    stored a second time. Afterwards every listed '.json' file that can be
    read is among the indexed files. *)
Theorem force_decides_what_is_indexed (projectDir projectPath : string)
    (force : bool) (st : IndexerState) (t : Table) (files : list string) :
  access fs (joinPath projectDir "conversations") = true ->
  readdir fs (joinPath projectDir "conversations") = Ok files ->
  NoDup files ->
  table (store st) = Some t ->
  let st' := snd (indexProjectConversations toLowerCase world createMessage fs clock
      projectDir projectPath force st) in
  List.length (rowsOf (store st'))
  = (List.length t
     + List.length
         (filter (toIndex fs (joinPath projectDir "conversations") force
                    (indexedFiles st))
                 (jsonFilesOf files)))%nat
  /\ (forall file, In file (jsonFilesOf files) ->
        readable fs (joinPath (joinPath projectDir "conversations") file) = true ->
        indexed (joinPath (joinPath projectDir "conversations") file)
                (indexedFiles st') = true).
Proof.
  intros Ha Hr Hnd Ht. unfold indexProjectConversations. rewrite Ha, Hr.
  cbn [negb snd]. split.
  - apply loop_count; [|exact Ht]. apply NoDup_filter, Hnd.
  - intros file Hin Hread.
    pose proof (loop_settles (joinPath projectDir "conversations") projectPath
                  force (jsonFilesOf files) st file Hin) as Hs.
    destruct (loop_stays_open (joinPath projectDir "conversations") projectPath
                force (jsonFilesOf files) st t Ht) as (t' & Ht').
    unfold settled in Hs. rewrite Hread, Ht' in Hs. cbn [negb] in Hs.
    rewrite !orb_false_r in Hs. exact Hs.
Qed.

(** X27. The watcher stores a changed conversation again: after an 'add'
    event and a 'change' event for the same readable conversation file, an
    open store holds two rows with the same id, stamped with successive
    clock readings, and the file is among the indexed files after the 'add'
    event. *)
Theorem changed_conversation_is_stored_again (projectPath filePath : string)
    (st : IndexerState) (c : ClaudeConversation) (t : Table) :
  watchedFile filePath = true ->
  readConversation fs filePath = Ok c ->
  table (store st) = Some t ->
  let st1 := onAdd toLowerCase world createMessage fs clock projectPath filePath st in
  let st2 := onChange toLowerCase world createMessage fs clock projectPath filePath st1
      in
  indexed filePath (indexedFiles st1) = true
  /\ exists e1 e2,
       rowsOf (store st1) = (t ++ [e1])%list
       /\ rowsOf (store st2) = (t ++ [e1; e2])%list
       /\ id e1 = idOf c filePath /\ id e2 = idOf c filePath
       /\ timestamp e1 = clock (ticks st)
       /\ timestamp e2 = clock (S (ticks st)).
Proof.
  intros Hw Hread Ht. unfold onAdd, onChange. rewrite Hw.
  destruct (indexFile_stores filePath projectPath st c t Hread Ht)
    as (e1 & Hrun1 & Hid1 & Hts1 & _).
  rewrite Hrun1. cbn [store indexedFiles ticks].
  split; [apply indexed_addIndexed_same|].
  match goal with
  | |- context [indexConversationFile toLowerCase world createMessage fs clock filePath
      projectPath ?s] =>
      destruct (indexFile_stores filePath projectPath s c (t ++ [e1])%list Hread
                  eq_refl) as (e2 & Hrun2 & Hid2 & Hts2 & _)
  end.
  exists e1, e2. rewrite Hrun2. unfold rowsOf. cbn [snd store table withTable].
  rewrite <- app_assoc. cbn [app]. cbn [ticks] in Hts2. repeat split; assumption.
Qed.

(** X28. When [indexProject] throws, the indexer and the store are as they
    were, and the error is the one of listing the projects directory or the
    conversations directory of the fallback hash directory. *)
Theorem indexProject_failure_leaves_state (projectPath : string) (force : bool)
    (st : IndexerState) (e : Thrown) :
  fst (indexProject toLowerCase world createMessage fs clock projectsDir projectPath
      force st) = Throw e ->
  snd (indexProject toLowerCase world createMessage fs clock projectsDir projectPath
      force st) = st
  /\ (readdir fs projectsDir = Throw e
      \/ readdir fs (joinPath (joinPath projectsDir
                                 (hashProjectPath (codeUnits projectPath)))
                              "conversations") = Throw e).
Proof.
  unfold indexProject.
  destruct (readdir fs projectsDir) as [projects | e'] eqn:Hp; cbn [fst snd].
  2:{ intros H. injection H as ->. split; [reflexivity | left; reflexivity]. }
  destruct (searchProjects toLowerCase world createMessage fs clock projectsDir
      projects projectPath force st) as [st1|];
    cbn [fst]; [discriminate|].
  destruct (access fs _); cbn [fst]; [|discriminate].
  intros H. apply indexConversations_throws in H. destruct H as [H1 H2].
  split; [exact H1 | right; exact H2].
Qed.

Lemma loop_unopened (dir projectPath : string) (force : bool)
    (files : list string) (st : IndexerState) :
  table (store st) = None ->
  sameIndex st (fold_left (indexOneFile toLowerCase world createMessage fs clock dir
      projectPath force) files st).
Proof.
  revert st. induction files as [|f files IH]; intros st Ht; cbn [fold_left];
    [apply sameIndex_refl|].
  destruct (stepFile_spec dir projectPath force st f)
    as [[Hsame _] | (t & e & Ht' & _)]; [|congruence].
  eapply sameIndex_trans; [exact Hsame|]. apply IH.
  destruct Hsame as [-> _]. exact Ht.
Qed.

Lemma indexConversations_unopened (projectDir projectPath : string) (force : bool)
    (st : IndexerState) :
  table (store st) = None ->
  sameIndex st (snd (indexProjectConversations toLowerCase world createMessage fs clock
      projectDir projectPath force st)).
Proof.
  intros Ht. unfold indexProjectConversations.
  destruct (negb (access fs _)); [apply sameIndex_refl|].
  destruct (readdir fs _); cbn [snd]; [apply loop_unopened, Ht | apply sameIndex_refl].
Qed.

(** X29. On a store that is not open [indexProject] stores nothing and marks
    no file as indexed, and its outcome is the one it has on any other
    indexer over the same file system: the failure of the store is caught
    file by file and never reported. *)
Theorem indexProject_hides_store_failures (projectPath : string)
    (force force' : bool) (st st' : IndexerState) :
  table (store st) = None ->
  sameIndex st (snd (indexProject toLowerCase world createMessage fs clock projectsDir
      projectPath force st))
  /\ fst (indexProject toLowerCase world createMessage fs clock projectsDir projectPath
      force st) = fst (indexProject toLowerCase world createMessage fs clock
      projectsDir projectPath force' st').
Proof.
  intros Ht. unfold indexProject.
  destruct (readdir fs projectsDir) as [projects | e]; cbn [fst snd].
  2:{ split; [apply sameIndex_refl | reflexivity]. }
  destruct (searchProjects toLowerCase world createMessage fs clock projectsDir
      projects projectPath force st) as [st1|] eqn:Hs.
  - destruct (searchDirs_found _ _ _ _ _ Hs) as (d & -> & Hall).
    rewrite Hall. cbn [fst snd]. split; [|reflexivity].
    apply indexConversations_unopened, Ht.
  - rewrite (searchDirs_none _ _ force force' st st' Hs).
    destruct (access fs _); cbn [fst snd].
    + split; [apply indexConversations_unopened, Ht
             | apply indexConversations_result].
    + split; [apply sameIndex_refl | reflexivity].
Qed.

Lemma indexFile_appends (filePath projectPath : string) (st : IndexerState) :
  appendsConversations projectPath st (snd (indexConversationFile toLowerCase world
      createMessage fs clock filePath projectPath st)).
Proof.
  destruct (readConversation fs filePath) as [c | e] eqn:Hread.
  - destruct (table (store st)) as [t|] eqn:Ht.
    + destruct (indexFile_stores filePath projectPath st c t Hread Ht)
        as (e & Hrun & _ & _ & Hconv).
      rewrite Hrun. exists [e]. unfold rowsOf. cbn [snd store table withTable].
      rewrite Ht. split; [reflexivity|]. constructor; [exact Hconv | constructor].
    + rewrite (indexFile_unopened filePath projectPath st c Hread Ht).
      apply sameIndex_appends. split; reflexivity.
  - rewrite (indexFile_unreadable filePath projectPath st e Hread).
    apply appendsConversations_refl.
Qed.

(** X25. Whatever the indexer does, [indexProject] or the watcher's 'add'
    and 'change' callbacks, the store keeps the rows it had, in place, and
    gains after them only conversations of the requested project whose title
    has at most 100 characters. *)
Theorem indexer_appends_conversations (projectPath : string) (force : bool)
    (filePath : string) (st : IndexerState) :
  appendsConversations projectPath st (snd (indexProject toLowerCase world
      createMessage fs clock projectsDir projectPath force st))
  /\ appendsConversations projectPath st
       (onAdd toLowerCase world createMessage fs clock projectPath filePath st)
  /\ appendsConversations projectPath st
       (onChange toLowerCase world createMessage fs clock projectPath filePath st).
Proof.
  split; [|split].
  - unfold indexProject.
    destruct (readdir fs projectsDir) as [projects | e];
      [|apply appendsConversations_refl].
    destruct (searchProjects toLowerCase world createMessage fs clock projectsDir
        projects projectPath force st) as [st1|] eqn:Hs.
    + apply (searchDirs_appends _ _ _ _ _ Hs).
    + destruct (access fs _); [apply indexConversations_appends
                              | apply appendsConversations_refl].
  - unfold onAdd. destruct (watchedFile filePath);
      [|apply appendsConversations_refl].
    pose proof (indexFile_appends filePath projectPath st) as H.
    destruct (indexConversationFile toLowerCase world createMessage fs clock filePath
        projectPath st) as [[u | e] st1]; cbn [snd] in H;
      [|exact H].
    destruct H as (added & Hrows & Hall). exists added. split; assumption.
  - unfold onChange. destruct (watchedFile filePath);
      [apply indexFile_appends | apply appendsConversations_refl].
Qed.

End WithEnvironment.

Lemma force_decides_what_is_indexed_witness :
  List.length
    (rowsOf (store (snd (indexProjectConversations latin1LowerCase offline
                           noSummary oneProject tick
                           "/home/user/.claude/projects/abc" "/work/app" true
                           {| store := fresh;
                              indexedFiles :=
                                ["/home/user/.claude/projects/abc/conversations/one.json"];
                              ticks := 0 |}))))
  = 2%nat.
Proof.
  apply (force_decides_what_is_indexed latin1LowerCase offline noSummary
           oneProject tick "/home/user/.claude/projects/abc" "/work/app" true
           {| store := fresh;
              indexedFiles :=
                ["/home/user/.claude/projects/abc/conversations/one.json"];
              ticks := 0 |}
           (rowsOf fresh) ["one.json"; "notes.txt"; "broken.json"]).
  - reflexivity.
  - reflexivity.
  - repeat constructor; cbn; intuition discriminate.
  - reflexivity.
Defined.

Lemma changed_conversation_is_stored_again_witness :
  exists e1 e2,
    rowsOf (store (onChange latin1LowerCase offline noSummary oneProject tick
                     "/work/app"
                     "/home/user/.claude/projects/abc/conversations/one.json"
                     (onAdd latin1LowerCase offline noSummary oneProject tick
                        "/work/app"
                        "/home/user/.claude/projects/abc/conversations/one.json"
                        (idle fresh))))
    = (rowsOf fresh ++ [e1; e2])%list
    /\ id e1 = "one" /\ id e2 = "one"
    /\ timestamp e1 = 100%Z /\ timestamp e2 = 101%Z.
Proof.
  destruct (changed_conversation_is_stored_again latin1LowerCase offline noSummary
              oneProject tick "/work/app"
              "/home/user/.claude/projects/abc/conversations/one.json"
              (idle fresh) shipping (rowsOf fresh))
    as (_ & e1 & e2 & _ & H2 & Hi1 & Hi2 & Ht1 & Ht2).
  - reflexivity.
  - reflexivity.
  - reflexivity.
  - exists e1, e2. repeat split; assumption.
Defined.

Lemma indexProject_failure_leaves_state_witness :
  snd (indexProject latin1LowerCase offline noSummary noClaudeDirectory tick
         claudeProjects "/work/app" false (idle fresh))
  = idle fresh.
Proof.
  apply (indexProject_failure_leaves_state latin1LowerCase offline noSummary
      noClaudeDirectory
           tick claudeProjects "/work/app" false (idle fresh)
           (ErrorObject "ENOENT")).
  reflexivity.
Defined.

Lemma indexProject_hides_store_failures_witness :
  sameIndex (idle unopened)
    (snd (indexProject latin1LowerCase offline noSummary oneProject tick
            claudeProjects "/work/app" false (idle unopened)))
  /\ fst (indexProject latin1LowerCase offline noSummary oneProject tick
            claudeProjects "/work/app" false (idle unopened))
     = Ok tt.
Proof.
  destruct (indexProject_hides_store_failures latin1LowerCase offline noSummary
              oneProject tick claudeProjects "/work/app" false false
              (idle unopened) (idle fresh)) as [H1 H2].
  - reflexivity.
  - split; [exact H1|]. rewrite H2. vm_compute. reflexivity.
Defined.

End IndexerProperties.
